(** * tinygrad/renderer/assembly.py: lowering of a linearized kernel to PTX text

    A shallow embedding of [uops_to_asm] and of [PTXLanguage].  The uop graph
    is a mutable Python object: nodes are addressed here by handles, the graph
    is threaded through the pre-transform explicitly, and every function that
    can raise returns a [result]. *)

From Stdlib Require Import ZArith String Ascii List Bool Lia.
From stdpp Require Import base option list gmap strings pretty.

Local Open Scope string_scope.
#[local] Set Warnings "-register-all".

(** ** Exceptions *)

Inductive exn :=
| AssertionError (msg : string)
| NotImplementedError (msg : string)
| KeyError
| IndexError
| ValueError
| TypeError
| AttributeError
| Dangling    (* a handle without a node: no Python object graph has one *)
| Diverged.   (* the sweep ran out of fuel *)

Inductive result (A : Type) : Type :=
| Ok (a : A)
| Raise (e : exn).
Arguments Ok {A} a.
Arguments Raise {A} e.

#[export] Instance result_ret : MRet result := fun A a => Ok a.
#[export] Instance result_bind : MBind result :=
  fun A B f m => match m with Ok a => f a | Raise e => Raise e end.

Definition from_opt {A} (e : exn) (o : option A) : result A :=
  match o with Some a => Ok a | None => Raise e end.

Definition py_assert (b : bool) (msg : string) : result unit :=
  if b then Ok tt else Raise (AssertionError msg).

Definition is_ok {A} (m : result A) : bool :=
  match m with Ok _ => true | Raise _ => false end.

(** ** Python lists and strings *)

(** [l.insert(i, x)] for [0 <= i]: past the end it appends. *)
Definition py_insert {A} (i : nat) (x : A) (l : list A) : list A :=
  take i l ++ x :: drop i l.

(** [l.index(x)]: the first position, [ValueError] when absent. *)
Fixpoint py_index (x : nat) (l : list nat) : result nat :=
  match l with
  | [] => Raise ValueError
  | y :: l' => if decide (y = x) then Ok O else i ← py_index x l'; Ok (S i)
  end.

(** [l[i]] with Python's negative indices. *)
Definition py_getitem {A} (l : list A) (i : Z) : result A :=
  let n := Z.of_nat (length l) in
  let j := if (i <? 0)%Z then (i + n)%Z else i in
  if ((j <? 0) || (n <=? j))%Z then Raise IndexError
  else from_opt IndexError (l !! Z.to_nat j).

(** [t[k]] for a literal index [k]. *)
Definition item {A} (l : list A) (k : nat) : result A := from_opt IndexError (l !! k).

Fixpoint join (sep : string) (l : list string) : string :=
  match l with
  | [] => ""
  | x :: l' => match l' with [] => x | _ => x +:+ sep +:+ join sep l' end
  end.

Fixpoint chars (s : string) : list string :=
  match s with
  | EmptyString => []
  | String a s' => String a "" :: chars s'
  end.

(** [s[1:]] *)
Definition str_tail (s : string) : string :=
  match s with EmptyString => "" | String _ s' => s' end.

(** [s.split(c)] for a one-character separator. *)
Fixpoint split_on (c : ascii) (s : string) : list string :=
  match s with
  | EmptyString => [""]
  | String a s' =>
      match split_on c s' with
      | w :: ws => if Ascii.eqb a c then "" :: w :: ws else String a w :: ws
      | [] => [String a ""]
      end
  end.

(** [s.replace(c, t, 1)] *)
Fixpoint replace_first (c : ascii) (t : string) (s : string) : string :=
  match s with
  | EmptyString => ""
  | String a s' => if Ascii.eqb a c then t +:+ s' else String a (replace_first c t s')
  end.

Definition LF : ascii := ascii_of_nat 10.
Definition CR : ascii := ascii_of_nat 13.
Definition TAB : ascii := ascii_of_nat 9.
Definition nl : string := String LF "".
Definition tab : string := String TAB "".

(** The one-byte line boundaries of [str.splitlines]. *)
Definition is_linebreak (a : ascii) : bool :=
  bool_decide (nat_of_ascii a ∈ [10; 11; 12; 13; 28; 29; 30]%nat).

Fixpoint splitlines_go (cur : string) (after_cr : bool) (s : string) : list string :=
  match s with
  | EmptyString => if String.eqb cur "" then [] else [cur]
  | String a s' =>
      if after_cr && Ascii.eqb a LF then splitlines_go cur false s'
      else if is_linebreak a then cur :: splitlines_go "" (Ascii.eqb a CR) s'
      else splitlines_go (cur +:+ String a "") false s'
  end.

Definition splitlines (s : string) : list string := splitlines_go "" false s.

Definition str_Z (z : Z) : string := pretty z.
Definition str_nat (n : nat) : string := pretty (Z.of_nat n).

Definition hex_digit (n : nat) : string :=
  match n with
  | 10 => "A" | 11 => "B" | 12 => "C" | 13 => "D" | 14 => "E" | 15 => "F"
  | _ => pretty n
  end%nat.

(** The ["%02X"] conversion of a byte. *)
Definition hex02X (b : Z) : string :=
  hex_digit (Z.to_nat ((b / 16) mod 16)) +:+ hex_digit (Z.to_nat (b mod 16)).

Definition hex_lower (n : nat) : string :=
  match n with
  | 10 => "a" | 11 => "b" | 12 => "c" | 13 => "d" | 14 => "e" | 15 => "f"
  | _ => pretty n
  end%nat.

Definition squote : ascii := ascii_of_nat 39.
Definition dquote : ascii := ascii_of_nat 34.
Definition bslash : ascii := ascii_of_nat 92.

Fixpoint str_has (c : ascii) (s : string) : bool :=
  match s with
  | EmptyString => false
  | String a s' => Ascii.eqb a c || str_has c s'
  end.

Fixpoint repr_body (q : ascii) (s : string) : string :=
  match s with
  | EmptyString => ""
  | String a s' =>
      let n := nat_of_ascii a in
      (if Ascii.eqb a q || Ascii.eqb a bslash then String bslash (String a "")
       else if Ascii.eqb a LF then String bslash "n"
       else if Ascii.eqb a CR then String bslash "r"
       else if Ascii.eqb a TAB then String bslash "t"
       else if (n <? 32)%nat || (126 <? n)%nat
            then String bslash "x" +:+ hex_lower (n / 16) +:+ hex_lower (n mod 16)
       else String a "") +:+ repr_body q s'
  end.

(** [repr] of a [str] (one character per byte). *)
Definition repr_str (s : string) : string :=
  let q := if str_has squote s && negb (str_has dquote s) then dquote else squote in
  String q "" +:+ repr_body q s +:+ String q "".

(** ** Operators and opcodes (tinygrad.ops, tinygrad.codegen.linearizer) *)

Module UnaryOps.
Inductive t := NEG | EXP2 | LOG2 | SIN | SQRT.
End UnaryOps.

Module BinaryOps.
Inductive t := ADD | SUB | MUL | DIV | MAX | MOD | CMPLT | CMPEQ | XOR.
End BinaryOps.

Module TernaryOps.
Inductive t := WHERE.
End TernaryOps.

(** [Op = Union[UnaryOps, BinaryOps, TernaryOps]] *)
Inductive Op :=
| Unary (o : UnaryOps.t)
| Binary (o : BinaryOps.t)
| Ternary (o : TernaryOps.t).
Coercion Unary : UnaryOps.t >-> Op.
Coercion Binary : BinaryOps.t >-> Op.
Coercion Ternary : TernaryOps.t >-> Op.

#[export] Instance UnaryOps_eq_dec : EqDecision UnaryOps.t.
Proof. solve_decision. Defined.
#[export] Instance BinaryOps_eq_dec : EqDecision BinaryOps.t.
Proof. solve_decision. Defined.
#[export] Instance TernaryOps_eq_dec : EqDecision TernaryOps.t.
Proof. solve_decision. Defined.
#[export] Instance Op_eq_dec : EqDecision Op.
Proof. solve_decision. Defined.

Definition str_Op (o : Op) : string :=
  match o with
  | Unary UnaryOps.NEG => "UnaryOps.NEG" | Unary UnaryOps.EXP2 => "UnaryOps.EXP2"
  | Unary UnaryOps.LOG2 => "UnaryOps.LOG2" | Unary UnaryOps.SIN => "UnaryOps.SIN"
  | Unary UnaryOps.SQRT => "UnaryOps.SQRT"
  | Binary BinaryOps.ADD => "BinaryOps.ADD" | Binary BinaryOps.SUB => "BinaryOps.SUB"
  | Binary BinaryOps.MUL => "BinaryOps.MUL" | Binary BinaryOps.DIV => "BinaryOps.DIV"
  | Binary BinaryOps.MAX => "BinaryOps.MAX" | Binary BinaryOps.MOD => "BinaryOps.MOD"
  | Binary BinaryOps.CMPLT => "BinaryOps.CMPLT" | Binary BinaryOps.CMPEQ => "BinaryOps.CMPEQ"
  | Binary BinaryOps.XOR => "BinaryOps.XOR"
  | Ternary TernaryOps.WHERE => "TernaryOps.WHERE"
  end.

(** The opcodes [uops_to_asm] dispatches on; [OTHER] stands for every member
    of the enumeration that the renderer has no case for. *)
Module UOps.
Inductive t :=
| LOOP | IF_ | ENDLOOP | ENDIF | SPECIAL
| DEFINE_GLOBAL | DEFINE_VAR | DEFINE_LOCAL | DEFINE_ACC
| LOAD | STORE | CONST | BARRIER | PHI
| ALU | CAST | BITCAST | GEP
| OTHER (name : string).

Definition name (u : t) : string :=
  match u with
  | LOOP => "LOOP" | IF_ => "IF" | ENDLOOP => "ENDLOOP" | ENDIF => "ENDIF"
  | SPECIAL => "SPECIAL" | DEFINE_GLOBAL => "DEFINE_GLOBAL" | DEFINE_VAR => "DEFINE_VAR"
  | DEFINE_LOCAL => "DEFINE_LOCAL" | DEFINE_ACC => "DEFINE_ACC" | LOAD => "LOAD"
  | STORE => "STORE" | CONST => "CONST" | BARRIER => "BARRIER" | PHI => "PHI"
  | ALU => "ALU" | CAST => "CAST" | BITCAST => "BITCAST" | GEP => "GEP"
  | OTHER n => n
  end.
End UOps.

#[export] Instance UOps_eq_dec : EqDecision UOps.t.
Proof. solve_decision. Defined.

(** ** Value types (tinygrad.dtype) *)

(** Modelled from the spec: [DType], [PtrDType] and the [dtypes] table are not
    in this file.  A value type is a scalar kind with a lane count; a pointer
    type carries the kind it points to; the byte size is the kind's width
    times the lane count. *)
Inductive Kind :=
| Kbool | Kint8 | Kint16 | Kint32 | Kint64
| Kuint8 | Kuint16 | Kuint32 | Kuint64
| Kfloat16 | Kfloat32 | Kfloat64.

#[export] Instance Kind_eq_dec : EqDecision Kind.
Proof. solve_decision. Defined.

Record DType := mkDType { kind : Kind; count : nat; is_ptr : bool }.

#[export] Instance DType_eq_dec : EqDecision DType.
Proof. solve_decision. Defined.

Definition kind_size (k : Kind) : Z :=
  match k with
  | Kbool | Kint8 | Kuint8 => 1
  | Kint16 | Kuint16 | Kfloat16 => 2
  | Kint32 | Kuint32 | Kfloat32 => 4
  | Kint64 | Kuint64 | Kfloat64 => 8
  end.

Definition itemsize (d : DType) : Z := kind_size (kind d) * Z.of_nat (count d).

Definition PtrDType (d : DType) : DType := mkDType (kind d) (count d) true.

Module dtypes.
Definition scalar_of (k : Kind) : DType := mkDType k 1 false.
Definition bool := scalar_of Kbool.
Definition int8 := scalar_of Kint8.
Definition int16 := scalar_of Kint16.
Definition int32 := scalar_of Kint32.
Definition int64 := scalar_of Kint64.
Definition uint8 := scalar_of Kuint8.
Definition uint16 := scalar_of Kuint16.
Definition uint32 := scalar_of Kuint32.
Definition uint64 := scalar_of Kuint64.
Definition float16 := scalar_of Kfloat16.
Definition float32 := scalar_of Kfloat32.
Definition float64 := scalar_of Kfloat64.
Definition half := float16.
Definition double := float64.
Definition int := int32.
Definition ulong := uint64.

Definition is_float (d : DType) : Datatypes.bool :=
  match kind d with Kfloat16 | Kfloat32 | Kfloat64 => true | _ => false end.
Definition is_unsigned (d : DType) : Datatypes.bool :=
  match kind d with Kuint8 | Kuint16 | Kuint32 | Kuint64 => true | _ => false end.
Definition is_int (d : DType) : Datatypes.bool :=
  match kind d with
  | Kint8 | Kint16 | Kint32 | Kint64 | Kuint8 | Kuint16 | Kuint32 | Kuint64 => true
  | _ => false
  end.
End dtypes.

(** [dtype.vec(n)] and [dtype.scalar()] *)
Definition vec (d : DType) (n : nat) : DType := mkDType (kind d) n (is_ptr d).
Definition scalar (d : DType) : DType :=
  if (1 <? count d)%nat then dtypes.scalar_of (kind d) else d.

(** ** Python values

    The payload of a node ([arg] is [Any]), the entries of the register table
    ([Union[List[str], str]]) and what the renderers format with f-strings. *)
Inductive pyobj :=
| PNone
| PInt (z : Z)
| PBool (b : bool)
| PFloat (bits : Z)          (* a float, by its binary64 bit pattern *)
| PStr (s : string)
| PList (l : list pyobj)
| PTuple (l : list pyobj)
| POp (o : Op)
| PVar (expr : string).      (* a symbolic Variable, by its [expr] *)

(** Floats: the conversions done by Python's [struct], [int] and [repr] are
    taken as given. *)
Record FloatModel := {
  pack_d : pyobj -> result (list Z);   (* bytes of struct.pack("d", x) *)
  pack_f : pyobj -> result (list Z);   (* bytes of struct.pack("f", x) *)
  pack_e : pyobj -> result (list Z);   (* bytes of struct.pack("e", x) *)
  trunc_float : Z -> result Z;         (* int(x) for a float x *)
  repr_float : Z -> string;            (* repr(x) for a float x *)
}.

(** A handle names a node object. *)
Definition handle := nat.

Record UOp := mkUOp {
  uop : UOps.t;
  dtype : option DType;
  vin : list handle;
  arg : pyobj;
}.

(** Modelled from the spec: [UOpGraph] is not in this file.  The graph is an
    arena of nodes addressed by handles plus the ordered list [uops] of the
    handles; [add] creates a node and splices it into the list at the given
    position. *)
Record UOpGraph := mkGraph {
  nodes : gmap handle UOp;
  uops : list handle;
}.

Definition node (g : UOpGraph) (h : handle) : result UOp :=
  from_opt Dangling (nodes g !! h).

Definition set_vin (g : UOpGraph) (h : handle) (v : list handle) : UOpGraph :=
  mkGraph (alter (fun n => mkUOp (uop n) (dtype n) v (arg n)) h (nodes g)) (uops g).
Definition set_arg (g : UOpGraph) (h : handle) (a : pyobj) : UOpGraph :=
  mkGraph (alter (fun n => mkUOp (uop n) (dtype n) (vin n) a) h (nodes g)) (uops g).
Definition set_dtype (g : UOpGraph) (h : handle) (d : option DType) : UOpGraph :=
  mkGraph (alter (fun n => mkUOp (uop n) d (vin n) (arg n)) h (nodes g)) (uops g).

(** Modelled from the spec: the integer that a node holds when it is a
    compile-time constant, that is a CONST node with an integer payload. *)
Definition const_int (g : UOpGraph) (h : handle) : option Z :=
  match nodes g !! h with
  | Some n => match uop n, arg n with
              | UOps.CONST, PInt z => Some z
              | _, _ => None
              end
  | None => None
  end.

(** Modelled from the spec: the value of the node to create when it is a
    compile-time constant.  The spec has the product of the index and the
    element size be one ("if the resulting offset is a compile-time
    constant"): a multiply of two integer constants is their product.  Every
    other insertion the spec words as the insertion of the node asked for. *)
Definition folded (g : UOpGraph) (op : UOps.t) (v : list handle) (a : pyobj) : option Z :=
  match op, a, v with
  | UOps.ALU, POp (Binary BinaryOps.MUL), [x; y] =>
      match const_int g x, const_int g y with
      | Some cx, Some cy => Some (cx * cy)%Z
      | _, _ => None
      end
  | _, _, _ => None
  end.

(** The node that [add] creates: the constant when there is one. *)
Definition created (g : UOpGraph) (op : UOps.t) (dt : option DType) (v : list handle)
    (a : pyobj) : UOp :=
  match folded g op v a with
  | Some z => mkUOp UOps.CONST dt [] (PInt z)
  | None => mkUOp op dt v a
  end.

(** Modelled from the spec: [UOpGraph.add] is not in this file.  It creates a
    new node, a CONST when the node asked for is a compile-time constant, and
    inserts it at [insert_before] (at the end when absent); the [cachable]
    flag is carried and has no effect here. *)
Definition add (g : UOpGraph) (op : UOps.t) (dt : option DType) (v : list handle)
    (a : pyobj) (cachable : bool) (insert_before : option nat) : UOpGraph * handle :=
  let h := fresh (dom (nodes g)) in
  (mkGraph (<[h := created g op dt v a]> (nodes g))
           (py_insert (default (length (uops g)) insert_before) h (uops g)), h).

(** [uops.uops.index(u)] *)
Definition index (g : UOpGraph) (h : handle) : result nat := py_index h (uops g).

(** [repr(x)] and [str(x)] (what an f-string prints). *)
Fixpoint pyrepr (fm : FloatModel) (v : pyobj) : string :=
  match v with
  | PNone => "None"
  | PInt z => str_Z z
  | PBool b => if b then "True" else "False"
  | PFloat f => repr_float fm f
  | PStr s => repr_str s
  | PList l => "[" +:+ join ", " (map (pyrepr fm) l) +:+ "]"
  | PTuple l =>
      "(" +:+ join ", " (map (pyrepr fm) l) +:+ (match l with [_] => "," | _ => "" end) +:+ ")"
  | POp o => str_Op o
  | PVar e => e
  end.

Definition pystr (fm : FloatModel) (v : pyobj) : string :=
  match v with PStr s => s | _ => pyrepr fm v end.

(** Truth value of an object in a condition. *)
Definition truthy (v : pyobj) : bool :=
  match v with
  | PNone => false
  | PInt z => negb (z =? 0)%Z
  | PBool b => b
  | PFloat f => negb ((f =? 0)%Z || (f =? 2 ^ 63)%Z)
  | PStr s => negb (String.eqb s "")
  | PList l | PTuple l => match l with [] => false | _ => true end
  | POp _ | PVar _ => true
  end.

(** [arg == op] for an operator tag [op]. *)
Definition arg_is (a : pyobj) (o : Op) : bool :=
  match a with POp o' => bool_decide (o' = o) | _ => false end.

(** ** The pre-transform (lines 46-100)

    Every rewrite takes the graph and returns the rewritten graph.  The
    closures of the source read and write the one graph object [uops]. *)

(** Lines 69-72 of [ptr_ar]: the byte offset [ptr], for a base of element
    size [size]. *)
Definition ptr_offset (g : UOpGraph) (root : handle) (u : UOp) (size : Z)
    : result (UOpGraph * handle) :=
  if (1 <? size)%Z then
    i ← index g root;
    let '(g, val) := add g UOps.CONST (Some dtypes.int) [] (PInt size) true (Some i) in
    x ← item (vin u) 1;
    i ← index g root;
    Ok (add g UOps.ALU (Some dtypes.int) [x; val] (POp BinaryOps.MUL) true (Some i))
  else
    x ← item (vin u) 1; Ok (g, x).

(** Lines 73-78 of [ptr_ar]: fold a constant offset, or add it to the base. *)
Definition ptr_fold (g : UOpGraph) (root : handle) (u : UOp) (b ptr : handle)
    : result UOpGraph :=
  np ← node g ptr;
  if bool_decide (uop np = UOps.CONST) then
    Ok (set_vin g root (b :: ptr :: drop 2 (vin u)))
  else
    i ← index g root;
    let '(g, zero) := add g UOps.CONST (Some dtypes.int) [] (PInt 0) false (Some i) in
    i ← index g root;
    let '(g, bptr) := add g UOps.CAST (Some dtypes.uint64) [ptr] PNone true (Some i) in
    i ← index g root;
    let '(g, fptr) := add g UOps.ALU (Some dtypes.uint64) [b; bptr] (POp BinaryOps.ADD)
                          true (Some i) in
    Ok (set_vin g root (fptr :: zero :: drop 2 (vin u))).

Definition ptr_ar (g : UOpGraph) (root : handle) : result UOpGraph :=
  u ← node g root;
  b ← item (vin u) 0;
  nb ← node g b;
  let g := set_arg g root
             (PStr (if bool_decide (uop nb = UOps.DEFINE_LOCAL) then ".shared" else ".global")) in
  db ← from_opt AttributeError (dtype nb);
  '(g, ptr) ← ptr_offset g root u (itemsize db);
  ptr_fold g root u b ptr.

Definition eq_rep (g : UOpGraph) (root : handle) : result (UOpGraph * handle) :=
  let g := set_arg g root (POp BinaryOps.XOR) in
  i ← index g root;
  Ok (add g UOps.ALU (Some dtypes.bool) [root] (POp UnaryOps.NEG) true (Some (i + 1)%nat)).

(** [lt_rep] works on [u], the node the sweep is at. *)
Definition lt_rep (g : UOpGraph) (u : handle) : result UOpGraph :=
  n ← node g u;
  x ← item (vin n) 0;
  i ← index g u;
  let '(g, new) := add g UOps.ALU (Some dtypes.bool) [x] (POp UnaryOps.NEG) true (Some i) in
  y ← item (vin n) 1;
  let g := set_vin g u [new; y] in
  Ok (set_arg g u (POp BinaryOps.MUL)).

Definition ld_rep (g : UOpGraph) (root : handle) : result (UOpGraph * handle) :=
  let g := set_dtype g root (Some dtypes.uint8) in
  i ← index g root;
  let '(g, new) := add g UOps.CAST (Some dtypes.bool) [root] PNone true (Some (i + 1)%nat) in
  g ← ptr_ar g root;
  Ok (g, new).

Definition gate_rep (g : UOpGraph) (root x y z k : handle) : result (UOpGraph * handle) :=
  i ← index g root;
  let '(g, new) := add g UOps.CAST (Some dtypes.uint8) [k] PNone true (Some i) in
  let g := set_vin g root [x; y; z; new] in
  ld_rep g root.

(** [x.dtype == dtypes.bool] for the first operand [x] of a two-operand node. *)
Definition first_of_two_is_bool (g : UOpGraph) (n : UOp) : bool :=
  match vin n with
  | [x; _] => match nodes g !! x with
              | Some nx => bool_decide (dtype nx = Some dtypes.bool)
              | None => false
              end
  | _ => false
  end.

(** The six patterns of [matcher], by what they test. *)
Inductive rule := R_eq | R_lt | R_gate | R_ld | R_store | R_load.

(** Modelled from the spec: [PatternMatcher] is not in this file.  The
    patterns are tried in the order of the list and the first that matches
    is applied. *)
Definition matching_rule (g : UOpGraph) (n : UOp) : option rule :=
  if bool_decide (uop n = UOps.ALU) && arg_is (arg n) BinaryOps.CMPEQ
     && first_of_two_is_bool g n then Some R_eq
  else if bool_decide (uop n = UOps.ALU) && arg_is (arg n) BinaryOps.CMPLT
     && first_of_two_is_bool g n then Some R_lt
  else if bool_decide (uop n = UOps.LOAD) && bool_decide (dtype n = Some dtypes.bool)
     && bool_decide (length (vin n) = 4%nat) then Some R_gate
  else if bool_decide (uop n = UOps.LOAD) && bool_decide (dtype n = Some dtypes.bool)
     && bool_decide (length (vin n) = 2%nat) then Some R_ld
  else if bool_decide (uop n = UOps.STORE) then Some R_store
  else if bool_decide (uop n = UOps.LOAD) then Some R_load
  else None.

(** [matcher.rewrite(u)]: the new graph and what the rewrite returned. *)
Definition rewrite (g : UOpGraph) (u : handle) : result (UOpGraph * option handle) :=
  n ← node g u;
  match matching_rule g n with
  | Some R_eq => '(g, new) ← eq_rep g u; Ok (g, Some new)
  | Some R_lt => g ← lt_rep g u; Ok (g, None)
  | Some R_gate =>
      match vin n with
      | [x; y; z; k] => '(g, new) ← gate_rep g u x y z k; Ok (g, Some new)
      | _ => Ok (g, None)
      end
  | Some R_ld => '(g, new) ← ld_rep g u; Ok (g, Some new)
  | Some R_store | Some R_load => g ← ptr_ar g u; Ok (g, None)
  | None => Ok (g, None)
  end.

(** The dict [replace], in insertion order. *)
Fixpoint dict_set {V} (d : list (handle * V)) (k : handle) (v : V) : list (handle * V) :=
  match d with
  | [] => [(k, v)]
  | (k', v') :: d' => if decide (k' = k) then (k, v) :: d' else (k', v') :: dict_set d' k v
  end.

(** Lines 97-99: redirect the operands of [u] that were replaced. *)
Definition redirect1 (u : handle) (on : handle * handle) (n : UOp) : UOp :=
  let '(o, new) := on in
  if bool_decide (o ∈ vin n) && negb (bool_decide (u = new))
  then mkUOp (uop n) (dtype n) ((fun x => if decide (x = o) then new else x) <$> vin n) (arg n)
  else n.

Definition redirect (g : UOpGraph) (u : handle) (replace : list (handle * handle)) : UOpGraph :=
  foldl (fun g on => mkGraph (alter (redirect1 u on) u (nodes g)) (uops g)) g replace.

(** Lines 92-100.  [for u in uops] walks the list by position while the
    rewrites insert into it; [i] is the iterator's position. *)
Record Sweep := mkSweep {
  sw_graph : UOpGraph;
  sw_seen : gset handle;
  sw_replace : list (handle * handle);
}.

Definition visit (s : Sweep) (u : handle) : result Sweep :=
  if bool_decide (u ∈ sw_seen s) then Ok s
  else
    let g := redirect (sw_graph s) u (sw_replace s) in
    '(g, rew) ← rewrite g u;
    Ok (mkSweep g ({[u]} ∪ sw_seen s)
          (match rew with Some new => dict_set (sw_replace s) u new | None => sw_replace s end)).

Fixpoint sweep (fuel : nat) (i : nat) (s : Sweep) : result Sweep :=
  match fuel with
  | O => Raise Diverged
  | S fuel =>
      match uops (sw_graph s) !! i with
      | None => Ok s
      | Some u => s ← visit s u; sweep fuel (S i) s
      end
  end.

(** A visited node that matches inserts at most seven nodes, and an inserted
    node matches no pattern. *)
Definition sweep_fuel (g : UOpGraph) : nat := 8 * length (uops g) + 1.

Definition pretransform (g : UOpGraph) : result UOpGraph :=
  s ← sweep (sweep_fuel g) 0 (mkSweep g ∅ []); Ok (sw_graph s).

(** ** The backend contract (lines 16-40) *)

(** An instruction template of [asm_for_op]: called with the destination and
    the operands, then the type and its name. *)
Definition template := list pyobj -> DType -> string -> result string.

Record AssemblyLanguage := {
  kernel_prefix : string;
  barrier : string;
  load_global : bool;
  label_prefix : string;
  gid : list string;
  gdim : list string;
  lid : list string;
  const_requires_mov : list DType;
  asm_for_op : Op -> option template;
  types : DType -> option string;
  supports_half : list Op;
  (* render_const(x, dtype, mov) *)
  render_const : pyobj -> DType -> option string -> result pyobj;
  (* render_local(dest, name, size, dtype) *)
  render_local : string -> pyobj -> pyobj -> DType -> result (list string);
  (* render_loop(idx, start, label) *)
  render_loop : string -> pyobj -> string -> result (list string);
  (* render_bra(b1, pred, b2) *)
  render_bra : string -> pyobj -> pyobj -> result (list string);
  (* render_load(loc, dest, dtype, gate, alt, ss, offset) *)
  render_load : pyobj -> string -> DType -> pyobj -> pyobj -> pyobj -> pyobj
                -> result (list string);
  (* render_store(loc, val, dtype, gate, ss, offset) *)
  render_store : pyobj -> pyobj -> DType -> pyobj -> pyobj -> pyobj -> result (list string);
  (* render_cast(d, a, dtype, atype, bitcast, pred) *)
  render_cast : string -> pyobj -> DType -> DType -> bool -> bool -> result (list string);
  (* render_kernel(kernel, function_name, bufs, regs) *)
  render_kernel : list string -> string -> list (pyobj * DType) -> list (string * Z)
                  -> result string;
  mem_type : DType -> result string;
}.

(** The defaults of the base class: every renderer raises. *)
Definition AssemblyLanguage_base : AssemblyLanguage := {|
  kernel_prefix := ""; barrier := ""; load_global := false; label_prefix := "";
  gid := []; gdim := []; lid := []; const_requires_mov := [];
  asm_for_op := fun _ => None; types := fun _ => None; supports_half := [];
  render_const := fun _ _ _ => Raise (NotImplementedError "");
  render_local := fun _ _ _ _ => Raise (NotImplementedError "");
  render_loop := fun _ _ _ => Raise (NotImplementedError "");
  render_bra := fun _ _ _ => Raise (NotImplementedError "");
  render_load := fun _ _ _ _ _ _ _ => Raise (NotImplementedError "");
  render_store := fun _ _ _ _ _ _ => Raise (NotImplementedError "");
  render_cast := fun _ _ _ _ _ _ => Raise (NotImplementedError "");
  render_kernel := fun _ _ _ _ => Raise (NotImplementedError "");
  mem_type := fun _ => Raise (NotImplementedError "");
|}.

(** ** Dicts in insertion order *)

Fixpoint dd_get (d : list (string * Z)) (k : string) : option Z :=
  match d with
  | [] => None
  | (k', v) :: d' => if String.eqb k' k then Some v else dd_get d' k
  end.

Fixpoint dd_set (d : list (string * Z)) (k : string) (v : Z) : list (string * Z) :=
  match d with
  | [] => [(k, v)]
  | (k', v') :: d' => if String.eqb k' k then (k, v) :: d' else (k', v') :: dd_set d' k v
  end.

(** [d[k] += 1] on a [defaultdict(int)]; the new value is returned too. *)
Definition dd_incr (d : list (string * Z)) (k : string) : list (string * Z) * Z :=
  let v := (default 0 (dd_get d k) + 1)%Z in (dd_set d k v, v).

(** ** The state of one lowering (lines 43-44, 104-105, 113-114) *)

Record LState := mkL {
  kernel : list string;
  bufs : list (pyobj * DType);
  c : list (string * Z);
  r : gmap handle pyobj;
  c_label : list (string * Z);
  r_label : gmap handle string;
}.

Definition LState_init : LState := mkL [] [] [] ∅ [] ∅.

Definition M (A : Type) : Type := LState -> result (A * LState).

#[export] Instance M_ret : MRet M := fun A a s => Ok (a, s).
#[export] Instance M_bind : MBind M :=
  fun A B f m s => match m s with Ok (a, s') => f a s' | Raise e => Raise e end.

Definition lift {A} (m : result A) : M A :=
  fun s => match m with Ok a => Ok (a, s) | Raise e => Raise e end.

Definition key {A} (o : option A) : M A := lift (from_opt KeyError o).

Definition get_r (h : handle) : M pyobj := fun s => key (r s !! h) s.

Definition set_r (h : handle) (v : pyobj) : M unit :=
  fun s => Ok (tt, mkL (kernel s) (bufs s) (c s) (<[h := v]> (r s)) (c_label s) (r_label s)).

(** [kk]: one entry, the lines joined by a newline. *)
Definition kk (lines : list string) : M unit :=
  fun s => Ok (tt, mkL (kernel s ++ [join nl lines]) (bufs s) (c s) (r s) (c_label s) (r_label s)).

(** [c[prefix] += 1] and [c_label[prefix] += 1] *)
Definition incr_c (prefix : string) : M Z :=
  fun s => let '(d, n) := dd_incr (c s) prefix in
           Ok (n, mkL (kernel s) (bufs s) d (r s) (c_label s) (r_label s)).

Definition incr_c_label (prefix : string) : M Z :=
  fun s => let '(d, n) := dd_incr (c_label s) prefix in
           Ok (n, mkL (kernel s) (bufs s) (c s) (r s) d (r_label s)).

Definition set_label (h : handle) (name : string) : M unit :=
  fun s => Ok (tt, mkL (kernel s) (bufs s) (c s) (r s) (c_label s) (<[h := name]> (r_label s))).

Definition get_label (h : handle) : M string := fun s => key (r_label s !! h) s.

(** [bufs.append(b)] *)
Definition append_buf (b : pyobj * DType) : M unit :=
  fun s => Ok (tt, mkL (kernel s) (bufs s ++ [b]) (c s) (r s) (c_label s) (r_label s)).

(** [kernel = [line] + kernel] *)
Definition prepend_kernel (line : string) : M unit :=
  fun s => Ok (tt, mkL (line :: kernel s) (bufs s) (c s) (r s) (c_label s) (r_label s)).

Fixpoint repeatM {A} (n : nat) (m : M A) : M (list A) :=
  match n with
  | O => mret []
  | S n => x ← m; xs ← repeatM n m; mret (x :: xs)
  end.

Fixpoint forM {A B} (l : list A) (f : A -> M B) : M (list B) :=
  match l with
  | [] => mret []
  | x :: l => y ← f x; ys ← forM l f; mret (y :: ys)
  end.

(** What unpacking [v] into arguments and [sep.join(v)] iterate over: the strings of a list, the
    characters of a string. *)
Fixpoint all_strs (l : list pyobj) : result (list string) :=
  match l with
  | [] => Ok []
  | PStr s :: l => ss ← all_strs l; Ok (s :: ss)
  | _ :: _ => Raise TypeError
  end.

Definition star (v : pyobj) : result (list string) :=
  match v with
  | PStr s => Ok (chars s)
  | PList l | PTuple l => all_strs l
  | _ => Raise TypeError
  end.

(** [v[i]] *)
Definition subscript (v : pyobj) (i : pyobj) : result pyobj :=
  match i with
  | PInt z =>
      match v with
      | PList l | PTuple l => py_getitem l z
      | PStr s => x ← py_getitem (chars s) z; Ok (PStr x)
      | _ => Raise TypeError
      end
  | _ => Raise TypeError
  end.

(** [v == s] for a string literal [s] *)
Definition str_is (v : pyobj) (s : string) : bool :=
  match v with PStr s' => String.eqb s' s | _ => false end.

Definition nonempty (s : string) : bool := negb (String.eqb s "").

(** ** [render_val] (lines 9-14) *)

Definition py_int (fm : FloatModel) (x : pyobj) : result Z :=
  match x with
  | PInt z => Ok z
  | PBool b => Ok (if b then 1 else 0)%Z
  | PFloat f => trunc_float fm f
  | PStr _ => Raise ValueError
  | _ => Raise TypeError
  end.

Definition hex_rev (n : nat) (bytes : list Z) : result string :=
  if bool_decide (length bytes = n) then Ok (join "" (hex02X <$> rev bytes))
  else Raise TypeError.

Definition render_val (fm : FloatModel) (x : pyobj) (dt : DType) : result string :=
  if dtypes.is_float dt then
    if bool_decide (dt = dtypes.double) then
      b ← pack_d fm x; h ← hex_rev 8 b; Ok ("0d" +:+ h)
    else if bool_decide (dt = dtypes.half) then
      b ← pack_e fm x; h ← hex_rev 2 b; Ok ("0x" +:+ h)
    else b ← pack_f fm x; h ← hex_rev 4 b; Ok ("0f" +:+ h)
  else
    z ← py_int fm x; Ok (str_Z z +:+ (if dtypes.is_unsigned dt then "U" else "")).

(** ** The lowering loop (lines 102-221) *)

Section Lower.
Variable fm : FloatModel.
Variable lang : AssemblyLanguage.
Variable g : UOpGraph.

Definition ty_of (d : DType) : M string := key (types lang d).

Definition ssa (u : option handle) (prefix : string) (dt : option string) : M string :=
  ty ← (match dt with
        | Some t => if nonempty t then mret t else
            match u with
            | Some h => n ← lift (node g h); d ← key (dtype n); ty_of d
            | None => lift (Raise AttributeError)
            end
        | None =>
            match u with
            | Some h => n ← lift (node g h); d ← key (dtype n); ty_of d
            | None => lift (Raise AttributeError)
            end
        end);
  let prefix := prefix +:+ "_" +:+ ty +:+ "_" in
  n ← incr_c prefix;
  let name := "%" +:+ prefix +:+ str_Z (n - 1) in
  _ ← (match u with Some h => set_r h (PStr name) | None => mret tt end);
  mret name.

Definition ssa_label (u : handle) (prefix : string) : M string :=
  n ← incr_c_label prefix;
  let name := label_prefix lang +:+ prefix +:+ "_" +:+ str_Z (n - 1) in
  _ ← set_label u name;
  mret name.

Definition const (x : pyobj) (dt : DType) (mov : bool) : M pyobj :=
  if mov || bool_decide (dt ∈ const_requires_mov lang) then
    ty ← ty_of dt;
    out ← ssa None "const" (Some ty);
    v ← lift (render_const lang x dt (Some out));
    lines ← lift (star v);
    _ ← kk lines;
    mret (PStr out)
  else lift (render_const lang x dt None).

Definition cast (a : pyobj) (dt atype : DType) (bitcast : bool) (u : option handle)
    : M pyobj :=
  if bool_decide (atype = dt) then
    _ ← (match u with Some h => set_r h a | None => mret tt end);
    mret a
  else
    ty ← ty_of dt;
    ret ← ssa u "cast" (Some ty);
    lines ← lift (render_cast lang ret a dt atype bitcast false);
    _ ← kk lines;
    mret (PStr ret).

(** [x.dtype] with [assert x.dtype is not None] *)
Definition dtype_of (h : handle) : M DType :=
  n ← lift (node g h);
  lift (from_opt (AssertionError "") (dtype n)).

Definition operand (v : list handle) (k : nat) : M handle := lift (item v k).

(** [r[x] if len(vin) > 3 else None] *)
Definition opt_r (v : list handle) (k : nat) : M pyobj :=
  if (3 <? length v)%nat then x ← operand v k; get_r x else mret PNone.

Definition arg_of (h : handle) : M pyobj := n ← lift (node g h); mret (arg n).

(** The body of the loop of lines 163-165. *)
Definition upcast_operand (dt' : DType) (op : pyobj) : M pyobj :=
  ty ← ty_of dt';
  o ← ssa None "alu_cast" (Some ty);
  lines ← lift (render_cast lang o op dt' dtypes.half false false);
  _ ← kk lines;
  mret (PStr o).

(** The [else] branch of the dispatch (lines 153-219). *)
Definition lower_typed (h : handle) (u : UOp) : M unit :=
  let v := vin u in
  let args := arg u in
  dt ← lift (from_opt (AssertionError ("None dtype for uop UOps." +:+ UOps.name (uop u)))
               (dtype u));
  match uop u with
  | UOps.LOOP =>
      idx ← ssa (Some h) "ridx" None;
      v0 ← operand v 0; start ← get_r v0;
      lb ← ssa_label h "loop";
      lines ← lift (render_loop lang idx start lb);
      kk lines
  | UOps.ALU =>
      v0 ← operand v 0; d0 ← dtype_of v0;
      operands ← forM v get_r;
      lab ← ssa (Some h) "alu" None;
      let needs_upcast := bool_decide (dt = dtypes.half)
                          && negb (match args with
                                   | POp o => bool_decide (o ∈ supports_half lang)
                                   | _ => false
                                   end) in
      let dt' := if needs_upcast then dtypes.float32 else dt in
      '(out_lab, lab, operands) ←
        (if needs_upcast then
           ty ← ty_of dt';
           lab' ← ssa None "alu_cast" (Some ty);
           ops ← forM operands (upcast_operand dt');
           mret (lab, lab', ops)
         else mret (lab, lab, operands));
      f ← key (match args with POp o => asm_for_op lang o | _ => None end);
      _ ← (if arg_is args BinaryOps.CMPLT || arg_is args BinaryOps.CMPEQ then
             ty ← ty_of d0;
             s ← lift (f (PStr lab :: operands) d0 ty);
             kk [s]
           else
             ty ← ty_of dt';
             s ← lift (f (PStr lab :: operands) dt' ty);
             kk [s]);
      if needs_upcast then
        lines ← lift (render_cast lang out_lab (PStr lab) dtypes.half dt' false false);
        kk lines
      else mret tt
  | UOps.DEFINE_ACC =>
      if (1 <? count dt)%nat then
        regs ← repeatM (count dt) (ty ← ty_of (scalar dt); ssa None "acc" (Some ty));
        _ ← set_r h (PList (PStr <$> regs));
        _ ← forM regs (fun uu =>
               ty ← ty_of (scalar dt);
               cv ← const args (scalar dt) false;
               kk ["mov.b" +:+ str_tail ty +:+ " " +:+ uu +:+ ", " +:+ pystr fm cv +:+ ";"]);
        mret tt
      else
        ty ← ty_of dt;
        a ← ssa (Some h) "acc" None;
        cv ← const args dt false;
        kk ["mov.b" +:+ str_tail ty +:+ " " +:+ a +:+ ", " +:+ pystr fm cv +:+ ";"]
  | UOps.SPECIAL =>
      a1 ← lift (subscript args (PInt 1));
      c0 ← lift (subscript a1 (PInt 0));
      _ ← lift (py_assert (negb (str_is c0 "i")) "idx not supported");
      a0 ← lift (subscript args (PInt 0));
      ax ← lift (match a0 with
                 | PInt z => py_getitem (if str_is c0 "g" then gid lang
                                         else lid lang) z
                 | _ => Raise TypeError
                 end);
      _ ← kk ["mov.u32 %" +:+ pystr fm a1 +:+ ", " +:+ ax +:+ ";"];
      name ← lift (match a1 with PStr s => Ok s | _ => Raise TypeError end);
      _ ← set_r h (PStr ("%" +:+ name));
      prepend_kernel (".reg .u32 %" +:+ pystr fm a1 +:+ ";")
  | UOps.CONST =>
      if (1 <? count dt)%nat then
        regs ← repeatM (count dt) (const args (scalar dt) true);
        set_r h (PList regs)
      else
        x ← const args dt true;
        set_r h x
  | UOps.GEP =>
      v0 ← operand v 0; r0 ← get_r v0;
      x ← lift (subscript r0 args);
      set_r h x
  | UOps.LOAD =>
      v1 ← operand v 1; _ ← dtype_of v1;
      if (1 <? count dt)%nat then
        regs ← repeatM (count dt) (ty ← ty_of (scalar dt); ssa None "val" (Some ty));
        _ ← set_r h (PList (PStr <$> regs));
        _ ← (if (3 <? length v)%nat then
               _ ← forM regs (fun x =>
                      mt ← lift (mem_type lang (scalar dt));
                      z ← lift (render_val fm (PInt 0) (scalar dt));
                      kk ["mov." +:+ mt +:+ " " +:+ x +:+ ", " +:+ z +:+ ";"]);
               mret tt
             else mret tt);
        gate ← (if (3 <? length v)%nat
                then v2 ← operand v 2; r2 ← get_r v2; mret ("@" +:+ pystr fm r2)
                else mret "");
        mt ← lift (mem_type lang (scalar dt));
        ru ← get_r h; lanes ← lift (star ru);
        v0 ← operand v 0; r0 ← get_r v0;
        off ← arg_of v1;
        kk [gate +:+ " ld" +:+ pystr fm args +:+ ".v" +:+ str_nat (count dt) +:+ "."
            +:+ mt +:+ " {" +:+ join ", " lanes +:+ "}, [" +:+ pystr fm r0 +:+ "+"
            +:+ pystr fm off +:+ "];"]
      else
        v0 ← operand v 0; r0 ← get_r v0;
        dest ← ssa (Some h) "val" None;
        gate ← opt_r v 2;
        alt ← opt_r v 3;
        off ← arg_of v1;
        lines ← lift (render_load lang r0 dest dt gate alt args off);
        kk lines
  | UOps.PHI =>
      ty ← ty_of dt;
      v0 ← operand v 0; r0 ← get_r v0;
      v1 ← operand v 1; r1 ← get_r v1;
      _ ← kk ["mov.b" +:+ str_tail ty +:+ " " +:+ pystr fm r0 +:+ ", " +:+ pystr fm r1 +:+ ";"];
      set_r h r0
  | UOps.CAST | UOps.BITCAST =>
      v0 ← operand v 0; d0 ← dtype_of v0;
      if (1 <? count dt)%nat then
        ops ← forM v get_r;
        set_r h (PList ops)
      else
        r0 ← get_r v0;
        _ ← cast r0 dt d0 (bool_decide (uop u = UOps.BITCAST)) (Some h);
        mret tt
  | UOps.DEFINE_LOCAL =>
      a1 ← lift (subscript args (PInt 1));
      size ← lift (match a1 with PInt z => Ok z | _ => Raise TypeError end);
      _ ← lift (py_assert (size * itemsize dt <=? 49152)%Z "too large local");
      ty ← ty_of dtypes.ulong;
      dest ← ssa (Some h) "local" (Some ty);
      a0 ← lift (subscript args (PInt 0));
      lines ← lift (render_local lang dest a0 a1 dt);
      kk lines
  | UOps.DEFINE_VAR =>
      expr ← lift (match args with PVar e => Ok e | _ => Raise AttributeError end);
      _ ← append_buf (PStr expr, dt);
      _ ← set_r h (PStr ("%" +:+ expr));
      if load_global lang then
        ty ← ty_of dt;
        dest ← ssa (Some h) "dat" (Some ty);
        lines ← lift (render_load lang (PStr expr) dest dt PNone PNone (PStr ".param") (PInt 0));
        kk lines
      else mret tt
  | UOps.DEFINE_GLOBAL =>
      a1 ← lift (subscript args (PInt 1));
      _ ← append_buf (a1, dt);
      _ ← set_r h (PStr ("%" +:+ pystr fm a1));
      if load_global lang then
        let dt' := if is_ptr dt then dtypes.ulong else dt in
        ty ← ty_of dt';
        dest ← ssa (Some h) "dat" (Some ty);
        lines ← lift (render_load lang a1 dest dt' PNone PNone (PStr ".param") (PInt 0));
        kk lines
      else mret tt
  | _ => lift (Raise (NotImplementedError ("no code for UOps." +:+ UOps.name (uop u))))
  end.

(** The dispatch on the opcode (lines 134-219). *)
Definition lower_uop (h : handle) : M unit :=
  u ← lift (node g h);
  let v := vin u in
  match uop u with
  | UOps.IF_ =>
      v0 ← operand v 0; d0 ← dtype_of v0;
      lb ← ssa_label h "if";
      r0 ← get_r v0;
      p ← cast r0 dtypes.bool d0 false (Some h);
      lines ← lift (render_bra lang lb p (PStr (lb +:+ "_true")));
      kk (lines ++ [lb +:+ "_true:"])
  | UOps.BARRIER =>
      if nonempty (barrier lang) then kk [barrier lang] else lower_typed h u
  | UOps.ENDLOOP =>
      v0 ← operand v 0;
      fadd ← key (asm_for_op lang BinaryOps.ADD);
      r0 ← get_r v0;
      tint ← ty_of dtypes.int;
      s1 ← lift (fadd [r0; r0; PStr "1"] dtypes.int tint);
      fcmp ← key (asm_for_op lang BinaryOps.CMPLT);
      pred ← ssa None "pred" (Some "pred");
      n0 ← lift (node g v0);
      v01 ← operand (vin n0) 1; r01 ← get_r v01;
      s2 ← lift (fcmp [PStr pred; r0; r01] dtypes.int tint);
      _ ← kk [s1; s2];
      lb ← get_label v0;
      lines ← lift (render_bra lang lb (PStr pred) (PStr (lb +:+ "_exit")));
      kk (lines ++ [lb +:+ "_exit:"])
  | UOps.ENDIF =>
      v0 ← operand v 0; lb ← get_label v0;
      kk [lb +:+ ":"]
  | UOps.STORE =>
      v0 ← operand v 0; _ ← dtype_of v0;
      v1 ← operand v 1; _ ← dtype_of v1;
      v2 ← operand v 2; d2 ← dtype_of v2;
      if (1 <? count d2)%nat then
        gate ← (if (3 <? length v)%nat
                then v3 ← operand v 3; r3 ← get_r v3; mret ("@" +:+ pystr fm r3 +:+ " ")
                else mret "");
        mt ← lift (mem_type lang (scalar d2));
        r0 ← get_r v0;
        off ← arg_of v1;
        r2 ← get_r v2; lanes ← lift (star r2);
        kk [gate +:+ "st" +:+ pystr fm (arg u) +:+ ".v" +:+ str_nat (count d2) +:+ "."
            +:+ mt +:+ " [" +:+ pystr fm r0 +:+ "+" +:+ pystr fm off +:+ "], {"
            +:+ join ", " lanes +:+ "};"]
      else
        r0 ← get_r v0; r2 ← get_r v2;
        gate ← opt_r v 3;
        off ← arg_of v1;
        lines ← lift (render_store lang r0 r2 d2 gate (arg u) off);
        kk lines
  | _ => lower_typed h u
  end.

Definition lower_all : M unit := _ ← forM (uops g) lower_uop; mret tt.
End Lower.

(** [uops_to_asm]: the text, and the graph object as the call leaves it. *)
Definition uops_to_asm (fm : FloatModel) (lang : AssemblyLanguage) (function_name : string)
    (g : UOpGraph) : result (string * UOpGraph) :=
  g ← pretransform g;
  '(_, s) ← lower_all fm lang g LState_init;
  text ← render_kernel lang (kernel s) function_name (bufs s) (c s);
  Ok (text, g).

(** ** [PTXLanguage] (lines 223-296) *)

Section PTX.
Variable fm : FloatModel.

Definition PTX_types (d : DType) : option string :=
  if bool_decide (d = dtypes.scalar_of (kind d)) then
    Some match kind d with
         | Kint8 => "s16" | Kint16 => "s16" | Kint32 => "s32" | Kint64 => "s64"
         | Kuint8 => "u16" | Kuint16 => "u16" | Kuint32 => "u32" | Kuint64 => "u64"
         | Kfloat16 => "f16" | Kfloat32 => "f32" | Kfloat64 => "f64" | Kbool => "pred"
         end
  else None.

Definition tpl1 (f : string -> string -> DType -> string -> string) : template :=
  fun xs dt name =>
    match xs with
    | [d; a] => Ok (f (pystr fm d) (pystr fm a) dt name)
    | _ => Raise TypeError
    end.
Definition tpl2 (f : string -> string -> string -> DType -> string -> string) : template :=
  fun xs dt name =>
    match xs with
    | [d; a; b] => Ok (f (pystr fm d) (pystr fm a) (pystr fm b) dt name)
    | _ => Raise TypeError
    end.
Definition tpl3 (f : string -> string -> string -> string -> DType -> string -> string)
    : template :=
  fun xs dt name =>
    match xs with
    | [d; a; b; c] => Ok (f (pystr fm d) (pystr fm a) (pystr fm b) (pystr fm c) dt name)
    | _ => Raise TypeError
    end.

Definition PTX_asm_for_op (o : Op) : option template :=
  match o with
  | Unary UnaryOps.NEG => Some (tpl1 (fun d a dt name =>
      if String.eqb name "pred" then "not.pred " +:+ d +:+ ", " +:+ a +:+ ";"
      else "neg." +:+ name +:+ " " +:+ d +:+ ", " +:+ a +:+ ";"))
  | Unary UnaryOps.EXP2 => Some (tpl1 (fun d a dt name =>
      "ex2.approx." +:+ name +:+ " " +:+ d +:+ ", " +:+ a +:+ ";"))
  | Unary UnaryOps.LOG2 => Some (tpl1 (fun d a dt name =>
      "lg2.approx." +:+ name +:+ " " +:+ d +:+ ", " +:+ a +:+ ";"))
  | Unary UnaryOps.SIN => Some (tpl1 (fun d a dt name =>
      "sin.approx." +:+ name +:+ " " +:+ d +:+ ", " +:+ a +:+ ";"))
  | Unary UnaryOps.SQRT => Some (tpl1 (fun d a dt name =>
      "sqrt.approx." +:+ name +:+ " " +:+ d +:+ ", " +:+ a +:+ ";"))
  | Binary BinaryOps.ADD => Some (tpl2 (fun d a b dt name =>
      (if String.eqb name "pred" then "or" else "add") +:+ "." +:+ name +:+ " "
      +:+ d +:+ ", " +:+ a +:+ ", " +:+ b +:+ ";"))
  | Binary BinaryOps.SUB => Some (tpl2 (fun d a b dt name =>
      "sub." +:+ name +:+ " " +:+ d +:+ ", " +:+ a +:+ ", " +:+ b +:+ ";"))
  | Binary BinaryOps.MUL => Some (tpl2 (fun d a b dt name =>
      (if bool_decide (dt = dtypes.bool) then "and" else "mul")
      +:+ (if dtypes.is_int dt then ".lo" else "") +:+ "." +:+ name +:+ " "
      +:+ d +:+ ", " +:+ a +:+ ", " +:+ b +:+ ";"))
  | Binary BinaryOps.XOR => Some (tpl2 (fun d a b dt name =>
      if String.eqb name "pred" then "xor.pred " +:+ d +:+ ", " +:+ a +:+ ", " +:+ b +:+ ";"
      else "xor.b" +:+ str_tail name +:+ " " +:+ d +:+ ", " +:+ a +:+ ", " +:+ b +:+ ";"))
  | Binary BinaryOps.DIV => Some (tpl2 (fun d a b dt name =>
      "div" +:+ (if dtypes.is_float dt then ".approx" else "") +:+ "." +:+ name +:+ " "
      +:+ d +:+ ", " +:+ a +:+ ", " +:+ b +:+ ";"))
  | Binary BinaryOps.MAX => Some (tpl2 (fun d a b dt name =>
      "max." +:+ name +:+ " " +:+ d +:+ ", " +:+ a +:+ ", " +:+ b +:+ ";"))
  | Binary BinaryOps.MOD => Some (tpl2 (fun d a b dt name =>
      "rem." +:+ name +:+ " " +:+ d +:+ ", " +:+ a +:+ ", " +:+ b +:+ ";"))
  | Binary BinaryOps.CMPLT => Some (tpl2 (fun d a b dt name =>
      "setp.lt." +:+ name +:+ " " +:+ d +:+ ", " +:+ a +:+ ", " +:+ b +:+ ";"))
  | Binary BinaryOps.CMPEQ => Some (tpl2 (fun d a b dt name =>
      "setp.eq." +:+ name +:+ " " +:+ d +:+ ", " +:+ a +:+ ", " +:+ b +:+ ";"))
  | Ternary TernaryOps.WHERE => Some (tpl3 (fun d a b c dt name =>
      if String.eqb name "pred"
      then "@" +:+ a +:+ " mov." +:+ name +:+ " " +:+ d +:+ ", " +:+ b +:+ ";" +:+ nl
           +:+ "@!" +:+ a +:+ " mov." +:+ name +:+ " " +:+ d +:+ ", " +:+ c +:+ ";"
      else "selp." +:+ (if String.eqb name "f16" then "b16" else name) +:+ " "
           +:+ d +:+ ", " +:+ b +:+ ", " +:+ c +:+ ", " +:+ a +:+ ";"))
  end.

Definition PTX_types_get (d : DType) : result string := from_opt KeyError (PTX_types d).

Definition PTX_render_const (x : pyobj) (dt : DType) (mov : option string) : result pyobj :=
  val ← render_val fm x dt;
  if bool_decide (dt = dtypes.bool) then
    Ok (PList [PStr ("setp.ne.s16 " +:+ default "None" mov +:+ ", " +:+ val +:+ ", 0;")])
  else
    match mov with
    | Some m =>
        if nonempty m then
          ty ← PTX_types_get dt;
          Ok (PList [PStr ("mov.b" +:+ str_tail ty +:+ " " +:+ m +:+ ", " +:+ val +:+ ";")])
        else Ok (PStr val)
    | None => Ok (PStr val)
    end.

Definition PTX_render_local (dest : string) (name size : pyobj) (dt : DType)
    : result (list string) :=
  sz ← match size with PInt z => Ok z | _ => Raise TypeError end;
  Ok [".shared .align 4 .b8 " +:+ pystr fm name +:+ "[" +:+ str_Z (sz * itemsize dt) +:+ "];";
      "mov.u64 " +:+ dest +:+ ", " +:+ pystr fm name +:+ "[0];"].

Definition PTX_render_loop (idx : string) (start : pyobj) (label : string)
    : result (list string) :=
  Ok ["mov.u32 " +:+ idx +:+ ", " +:+ pystr fm start +:+ ";"; label +:+ ":"].

Definition PTX_render_bra (b1 : string) (pred b2 : pyobj) : result (list string) :=
  if truthy pred then
    Ok ["@" +:+ pystr fm pred +:+ " bra " +:+ b1 +:+ ";";
        "@!" +:+ pystr fm pred +:+ " bra " +:+ pystr fm b2 +:+ ";"]
  else Ok ["bra " +:+ b1 +:+ ";"].

Definition PTX_mem_type (dt : DType) : result string :=
  if (itemsize dt =? 1)%Z then Ok "s8"
  else if bool_decide (dt = dtypes.float16) then Ok "b16"
  else PTX_types_get dt.

Definition PTX_render_load (loc : pyobj) (dest : string) (dt : DType)
    (gate alt ss offset : pyobj) : result (list string) :=
  _ ← py_assert (negb (bool_decide (dt = dtypes.bool))) "";
  if truthy gate then
    mt ← PTX_mem_type dt;
    ty ← PTX_types_get dt;
    Ok ["@" +:+ pystr fm gate +:+ " ld" +:+ pystr fm ss +:+ "." +:+ mt +:+ " " +:+ dest
        +:+ ", [" +:+ pystr fm loc +:+ "+" +:+ pystr fm offset +:+ "];";
        "@!" +:+ pystr fm gate +:+ " mov.b" +:+ str_tail ty +:+ " " +:+ dest +:+ ", "
        +:+ pystr fm alt +:+ ";"]
  else
    mt ← PTX_mem_type dt;
    Ok ["ld" +:+ pystr fm ss +:+ "." +:+ mt +:+ " " +:+ dest
        +:+ ", [" +:+ pystr fm loc +:+ "+" +:+ pystr fm offset +:+ "];"].

Definition PTX_render_cast (d : string) (a : pyobj) (dt atype : DType)
    (bitcast pred : bool) : result (list string) :=
  if bitcast then
    ty ← PTX_types_get dt;
    Ok ["mov.b" +:+ str_tail ty +:+ " " +:+ d +:+ ", " +:+ pystr fm a +:+ ";"]
  else if bool_decide (atype = dtypes.bool) then
    ty ← PTX_types_get dt;
    one ← render_val fm (PInt 1) dt;
    zero ← render_val fm (PInt 0) dt;
    Ok ["selp.b" +:+ str_tail ty +:+ " " +:+ d +:+ ", " +:+ one +:+ ", " +:+ zero +:+ ", "
        +:+ pystr fm a +:+ ";"]
  else if bool_decide (dt = dtypes.bool) then
    ty ← PTX_types_get atype;
    zero ← PTX_render_const (PInt 0) atype None;
    Ok ["setp.ne.b" +:+ str_tail ty +:+ " " +:+ d +:+ ", " +:+ pystr fm a +:+ ", "
        +:+ pystr fm zero +:+ ";"]
  else
    let rnd :=
      if dtypes.is_int dt && dtypes.is_float atype then ".rzi"
      else if dtypes.is_float dt
              && ((itemsize dt <? itemsize atype)%Z || dtypes.is_int atype
                  || bool_decide (atype = dtypes.bool)) then ".rn"
      else "" in
    ty ← PTX_types_get dt;
    aty ← PTX_types_get atype;
    Ok ["cvt" +:+ rnd +:+ "." +:+ ty +:+ "." +:+ aty +:+ " " +:+ d +:+ ", "
        +:+ pystr fm a +:+ ";"].

Definition PTX_render_store (loc val : pyobj) (dt : DType) (gate ss offset : pyobj)
    : result (list string) :=
  let pre := if truthy gate then "@" +:+ pystr fm gate +:+ " " else "" in
  if bool_decide (dt = dtypes.bool) then
    cst ← PTX_render_cast (pystr fm val +:+ "_cast") val dtypes.int16 dt false false;
    mt ← PTX_mem_type dt;
    Ok ([".reg .s16 " +:+ pystr fm val +:+ "_cast;"] ++ cst ++
        [pre +:+ "st" +:+ pystr fm ss +:+ "." +:+ mt +:+ " [" +:+ pystr fm loc +:+ "+"
         +:+ pystr fm offset +:+ "], " +:+ pystr fm val +:+ "_cast;"])%list
  else
    mt ← PTX_mem_type dt;
    Ok [pre +:+ "st" +:+ pystr fm ss +:+ "." +:+ mt +:+ " [" +:+ pystr fm loc +:+ "+"
        +:+ pystr fm offset +:+ "], " +:+ pystr fm val +:+ ";"].

Definition PTX_kernel_prefix : string :=
  ".version 7.5" +:+ nl +:+ ".target TARGET" +:+ nl +:+ ".address_size 64" +:+ nl
  +:+ ".visible .entry".

(** [fmt] of [render_kernel] *)
Definition PTX_fmt (line : string) : result string :=
  match line with
  | EmptyString => Raise IndexError
  | String a _ =>
      if Ascii.eqb a "$" then Ok line
      else
        let first := match split_on " " line with w :: _ => w | [] => "" end in
        Ok (tab +:+ replace_first " " (if (7 <? String.length first)%nat then tab
                                       else tab +:+ tab) line)
  end.

Fixpoint mapR {A B} (f : A -> result B) (l : list A) : result (list B) :=
  match l with
  | [] => Ok []
  | x :: l => y ← f x; ys ← mapR f l; Ok (y :: ys)
  end.

Definition PTX_render_kernel (kernel : list string) (function_name : string)
    (bufs : list (pyobj * DType)) (regs : list (string * Z)) : result string :=
  decls ← mapR (fun rc : string * Z =>
                  ty ← py_getitem (split_on "_" rc.1) (-2);
                  Ok (".reg ." +:+ ty +:+ " %" +:+ rc.1 +:+ "<" +:+ str_Z rc.2 +:+ ">;"))
               regs;
  let kernel := (decls ++ kernel ++ ["ret;"])%list in
  params ← mapR (fun nd : pyobj * DType =>
                   ty ← (if is_ptr nd.2 then Ok "u64" else PTX_types_get nd.2);
                   Ok (".param ." +:+ ty +:+ " " +:+ pystr fm nd.1))
                bufs;
  lines ← mapR PTX_fmt (concat (splitlines <$> kernel));
  Ok (PTX_kernel_prefix +:+ " " +:+ function_name +:+ "(" +:+ nl +:+ tab
      +:+ join ("," +:+ nl +:+ tab) params +:+ nl +:+ ")" +:+ nl +:+ "{" +:+ nl
      +:+ join nl lines +:+ nl +:+ "}").

Definition PTXLanguage : AssemblyLanguage := {|
  kernel_prefix := PTX_kernel_prefix;
  barrier := "bar.sync" +:+ tab +:+ "0;";
  load_global := true;
  label_prefix := "$";
  gid := ["%ctaid.x"; "%ctaid.y"; "%ctaid.z"];
  gdim := ["%nctaid.x"; "%nctaid.y"; "%nctaid.z"];
  lid := ["%tid.x"; "%tid.y"; "%tid.z"];
  const_requires_mov := [dtypes.half; dtypes.bool];
  asm_for_op := PTX_asm_for_op;
  types := PTX_types;
  supports_half := [Unary UnaryOps.NEG; Unary UnaryOps.EXP2; Binary BinaryOps.ADD;
                    Binary BinaryOps.SUB; Binary BinaryOps.MUL; Binary BinaryOps.MAX;
                    Binary BinaryOps.CMPLT; Ternary TernaryOps.WHERE];
  render_const := PTX_render_const;
  render_local := PTX_render_local;
  render_loop := PTX_render_loop;
  render_bra := PTX_render_bra;
  render_load := PTX_render_load;
  render_store := PTX_render_store;
  render_cast := PTX_render_cast;
  render_kernel := PTX_render_kernel;
  mem_type := PTX_mem_type;
|}.

(** [PTXRenderer = functools.partial(uops_to_asm, PTXLanguage())] *)
Definition PTXRenderer : string -> UOpGraph -> result (string * UOpGraph) :=
  uops_to_asm fm PTXLanguage.
End PTX.

(** ** Vocabulary of the statements *)

(** The value [c[k]] of a counter, before it is bumped. *)
Definition counter (d : list (string * Z)) (k : string) : Z := default 0%Z (dd_get d k).

(** The prefix [ssa] builds and the name it returns. *)
Definition ssa_prefix (prefix ty : string) : string := prefix +:+ "_" +:+ ty +:+ "_".
Definition reg (prefix ty : string) (n : Z) : string :=
  "%" +:+ ssa_prefix prefix ty +:+ str_Z n.

(** The graph with the nodes [l], in that order, under the handles [0, 1, ...]. *)
Definition graph_of (l : list UOp) : UOpGraph :=
  mkGraph (list_to_map (imap (fun i n => (i, n)) l)) (seq 0 (length l)).

(** A float model for kernels without float constants. *)
Definition no_floats : FloatModel := {|
  pack_d := fun _ => Raise TypeError;
  pack_f := fun _ => Raise TypeError;
  pack_e := fun _ => Raise TypeError;
  trunc_float := fun _ => Raise TypeError;
  repr_float := fun _ => "";
|}.

(** The names [ssa] hands out on [cnt] consecutive calls, from counter [n]. *)
Fixpoint regs_from (prefix ty : string) (n : Z) (cnt : nat) : list string :=
  match cnt with
  | O => []
  | S k => reg prefix ty n :: regs_from prefix ty (n + 1) k
  end.

(** The dict of counters after [k] more allocations under the prefix [p]. *)
Definition bump (d : list (string * Z)) (p : string) (k : nat) : list (string * Z) :=
  match k with
  | O => d
  | S _ => dd_set d p (counter d p + Z.of_nat k)
  end.

(** A backend that keeps the base class's empty [barrier]. *)
Definition PTX_without_barrier (fm : FloatModel) : AssemblyLanguage := {|
  kernel_prefix := PTX_kernel_prefix;
  barrier := "";
  load_global := true;
  label_prefix := "$";
  gid := gid (PTXLanguage fm); gdim := gdim (PTXLanguage fm); lid := lid (PTXLanguage fm);
  const_requires_mov := [dtypes.half; dtypes.bool];
  asm_for_op := PTX_asm_for_op fm;
  types := PTX_types;
  supports_half := supports_half (PTXLanguage fm);
  render_const := PTX_render_const fm;
  render_local := PTX_render_local fm;
  render_loop := PTX_render_loop fm;
  render_bra := PTX_render_bra fm;
  render_load := PTX_render_load fm;
  render_store := PTX_render_store fm;
  render_cast := PTX_render_cast fm;
  render_kernel := PTX_render_kernel fm;
  mem_type := PTX_mem_type;
|}.

(** Example kernels. *)
Definition ex_cast_graph : UOpGraph := graph_of [
  mkUOp UOps.CONST (Some dtypes.int32) [] (PInt 5);
  mkUOp UOps.CAST (Some dtypes.int32) [0%nat] PNone ].

Definition ex_state (regs : list (handle * pyobj)) : LState :=
  mkL [] [] [] (list_to_map regs) [] ∅.

Definition ex_barrier_graph : UOpGraph := graph_of [ mkUOp UOps.BARRIER None [] PNone ].

Definition ex_local_graph (size : Z) : UOpGraph := graph_of [
  mkUOp UOps.DEFINE_LOCAL (Some (PtrDType dtypes.float32)) [] (PTuple [PStr "temp"; PInt size]) ].

Definition ex_const_graph : UOpGraph := graph_of [
  mkUOp UOps.CONST (Some dtypes.int32) [] (PInt 5);
  mkUOp UOps.CONST (Some (vec dtypes.int32 2)) [] (PInt 7) ].

Definition ex_half_graph : UOpGraph := graph_of [
  mkUOp UOps.LOAD (Some dtypes.half) [] PNone;
  mkUOp UOps.LOAD (Some dtypes.half) [] PNone;
  mkUOp UOps.ALU (Some dtypes.half) [0%nat; 1%nat] (POp BinaryOps.DIV) ].

Definition ex_half_state : LState :=
  mkL [] [] [("val_f16_", 2%Z)]
      (list_to_map [(0%nat, PStr "%val_f16_0"); (1%nat, PStr "%val_f16_1")]) [] ∅.

(** The address-space tag [ptr_ar] gives a node whose base operand is [nb]. *)
Definition space_tag (nb : UOp) : pyobj :=
  PStr (if bool_decide (uop nb = UOps.DEFINE_LOCAL) then ".shared" else ".global").

(** The node [u] with other operands and payload. *)
Definition retarget (u : UOp) (v : list handle) (a : pyobj) : UOp :=
  mkUOp (uop u) (dtype u) v a.

(** The predicate instructions that the templates of [PTXLanguage] emit for
    NEG, MUL, XOR and ADD on booleans, with the meaning the PTX ISA gives
    them.  An instruction is its mnemonic, its destination and its sources;
    [print_instr] is the text the templates produce for it. *)
Definition instr : Type := string * string * list string.

Fixpoint print_srcs (srcs : list string) : string :=
  match srcs with
  | [] => ";"
  | x :: srcs => ", " +:+ x +:+ print_srcs srcs
  end.

Definition print_instr (i : instr) : string :=
  let '(mn, d, srcs) := i in mn +:+ " " +:+ d +:+ print_srcs srcs.

Definition pred_op (mn : string) (vals : list bool) : option bool :=
  match vals with
  | [a] => if String.eqb mn "not.pred" then Some (negb a) else None
  | [a; b] =>
      if String.eqb mn "and.pred" then Some (a && b)
      else if String.eqb mn "or.pred" then Some (a || b)
      else if String.eqb mn "xor.pred" then Some (xorb a b)
      else None
  | _ => None
  end.

Definition exec_instr (regs : gmap string bool) (i : instr) : option (gmap string bool) :=
  let '(mn, d, srcs) := i in
  vals ← mapM (fun x => regs !! x) srcs;
  v ← pred_op mn vals;
  Some (<[d := v]> regs).

Fixpoint exec (regs : gmap string bool) (l : list instr) : option (gmap string bool) :=
  match l with
  | [] => Some regs
  | i :: l => regs ← exec_instr regs i; exec regs l
  end.




(** The states the sweep goes through, from the graph [g0]. *)
Inductive reachable (g0 : UOpGraph) : Sweep -> Prop :=
| reach_init : reachable g0 (mkSweep g0 ∅ [])
| reach_visit st u st' :
    reachable g0 st -> u ∈ uops (sw_graph st) -> visit st u = Ok st' -> reachable g0 st'.



(** [g'] keeps every node of [g] other than [u] as it is, and keeps [u]. *)
Definition extends (u : handle) (g g' : UOpGraph) : Prop :=
  (forall h n, h <> u -> nodes g !! h = Some n -> nodes g' !! h = Some n)
  /\ (is_Some (nodes g !! u) -> is_Some (nodes g' !! u)).

(** What lines 97-99 make of one operand [x] of the node [u], and of its
    operand list. *)
Definition redirect_operand (u : handle) (replace : list (handle * handle)) (x : handle)
    : handle :=
  foldl (fun x '(o, new) => if bool_decide (x = o) && negb (bool_decide (u = new))
                            then new else x) x replace.

(** A gated load of a [bool] with a default, and a store of a [bool] after
    the pre-transform. *)
Definition ex_bool_load_graph : UOpGraph := graph_of [
  mkUOp UOps.DEFINE_GLOBAL (Some (PtrDType dtypes.bool)) [] (PTuple [PInt 0; PStr "data0"]);
  mkUOp UOps.CONST (Some dtypes.int) [] (PInt 3);
  mkUOp UOps.CONST (Some dtypes.bool) [] (PBool true);
  mkUOp UOps.CONST (Some dtypes.bool) [] (PBool false);
  mkUOp UOps.LOAD (Some dtypes.bool) [0%nat; 1%nat; 2%nat; 3%nat] PNone ].

Definition ex_bool_store_graph : UOpGraph := graph_of [
  mkUOp UOps.DEFINE_GLOBAL (Some (PtrDType dtypes.bool)) [] (PTuple [PInt 0; PStr "data0"]);
  mkUOp UOps.CONST (Some dtypes.int) [] (PInt 3);
  mkUOp UOps.CONST (Some dtypes.bool) [] (PBool true);
  mkUOp UOps.STORE None [0%nat; 1%nat; 2%nat] PNone ].

Definition ex_bool_store_rewritten : UOpGraph := graph_of [
  mkUOp UOps.DEFINE_GLOBAL (Some (PtrDType dtypes.bool)) [] (PTuple [PInt 0; PStr "data0"]);
  mkUOp UOps.CONST (Some dtypes.int) [] (PInt 3);
  mkUOp UOps.CONST (Some dtypes.bool) [] (PBool true);
  mkUOp UOps.STORE None [0%nat; 1%nat; 2%nat] (PStr ".global") ].

Definition ex_bool_store_state : LState :=
  ex_state [(0%nat, PStr "%dat_u64_0"); (1%nat, PStr "%const_s32_0");
            (2%nat, PStr "%const_pred_0")].

(** A comparison [op] of two boolean constants, and the state of the
    lowering once the constants have their registers. *)
Definition ex_cmp_graph (op : BinaryOps.t) : UOpGraph := graph_of [
  mkUOp UOps.CONST (Some dtypes.bool) [] (PBool true);
  mkUOp UOps.CONST (Some dtypes.bool) [] (PBool false);
  mkUOp UOps.ALU (Some dtypes.bool) [0%nat; 1%nat] (POp op) ].

Definition ex_cmp_state : LState :=
  mkL [] [] [("const_pred_", 2%Z)]
      (list_to_map [(0%nat, PStr "%const_pred_0"); (1%nat, PStr "%const_pred_1")]) [] ∅.

(** A store through a pointer to bytes at a run-time index. *)
Definition ex_twice_graph : UOpGraph := graph_of [
  mkUOp UOps.DEFINE_GLOBAL (Some (PtrDType dtypes.uint8)) [] (PTuple [PInt 0; PStr "data0"]);
  mkUOp UOps.SPECIAL (Some dtypes.int32) [] (PTuple [PInt 0; PStr "gidx0"; PInt 16]);
  mkUOp UOps.CONST (Some dtypes.uint8) [] (PInt 7);
  mkUOp UOps.STORE None [0%nat; 1%nat; 2%nat] PNone ].

(** The instructions of the kernel, before [render_kernel] lays them out. *)
Definition kernel_lines (fm : FloatModel) (lang : AssemblyLanguage) (g : UOpGraph)
    : result (list string) :=
  g ← pretransform g;
  '(_, s) ← lower_all fm lang g LState_init;
  Ok (kernel s).

(** Nodes that the dispatch cannot lower, a lane selection and a thread index. *)
Definition ex_untyped_graph : UOpGraph := graph_of [ mkUOp UOps.CONST None [] (PInt 1) ].

Definition ex_gep_graph : UOpGraph := graph_of [
  mkUOp UOps.CONST (Some (vec dtypes.int32 2)) [] (PInt 7);
  mkUOp UOps.GEP (Some dtypes.int32) [0%nat] (PInt 1) ].

Definition ex_special_graph : UOpGraph := graph_of [
  mkUOp UOps.SPECIAL (Some dtypes.int32) [] (PTuple [PInt 1; PStr "lidx1"; PInt 8]) ].

(** A loop from 0 to 4 closed by its ENDLOOP, and a branch on a constant. *)
Definition ex_loop_graph : UOpGraph := graph_of [
  mkUOp UOps.CONST (Some dtypes.int32) [] (PInt 0);
  mkUOp UOps.CONST (Some dtypes.int32) [] (PInt 4);
  mkUOp UOps.LOOP (Some dtypes.int32) [0%nat; 1%nat] PNone;
  mkUOp UOps.ENDLOOP None [2%nat] PNone ].

Definition ex_loop_state : LState :=
  mkL [] [] [("const_s32_", 2%Z)]
      (list_to_map [(0%nat, PStr "%const_s32_0"); (1%nat, PStr "%const_s32_1")]) [] ∅.

Definition ex_if_graph : UOpGraph := graph_of [
  mkUOp UOps.CONST (Some dtypes.bool) [] (PBool true);
  mkUOp UOps.IF_ None [0%nat] PNone;
  mkUOp UOps.ENDIF None [1%nat] PNone ].

Definition ex_if_state : LState :=
  mkL [] [] [("const_pred_", 1%Z)] (list_to_map [(0%nat, PStr "%const_pred_0")]) [] ∅.

(** The label [ssa_label] builds. *)
Definition label (lang : AssemblyLanguage) (prefix : string) (n : Z) : string :=
  label_prefix lang +:+ prefix +:+ "_" +:+ str_Z n.

(** An accumulator, its update, and a kernel argument. *)
Definition ex_acc_graph (dt : DType) (init : pyobj) : UOpGraph := graph_of [
  mkUOp UOps.DEFINE_ACC (Some dt) [] init;
  mkUOp UOps.CONST (Some dt) [] init;
  mkUOp UOps.PHI (Some dt) [0%nat; 1%nat] PNone ].

Definition ex_global_graph : UOpGraph := graph_of [
  mkUOp UOps.DEFINE_GLOBAL (Some (PtrDType dtypes.float32)) [] (PTuple [PInt 0; PStr "data0"]) ].

(** A conversion between two integer types. *)
Definition ex_convert_graph : UOpGraph := graph_of [
  mkUOp UOps.CONST (Some dtypes.int32) [] (PInt 5);
  mkUOp UOps.CAST (Some dtypes.float32) [0%nat] PNone ].

(** What a step of the lowering may do to the state: emit lines, among those
    already emitted; raise counters; bind more nodes and labels; append
    arguments. *)
Definition grows (s s' : LState) : Prop :=
  sublist (kernel s) (kernel s')
  /\ (bufs s) `prefix_of` (bufs s')
  /\ (forall k, counter (c s) k <= counter (c s') k)%Z
  /\ (forall k, counter (c_label s) k <= counter (c_label s') k)%Z
  /\ (forall h, is_Some (r s !! h) -> is_Some (r s' !! h))
  /\ (forall h, is_Some (r_label s !! h) -> is_Some (r_label s' !! h)).

Definition mono {A} (m : M A) : Prop := forall s a s', m s = Ok (a, s') -> grows s s'.

(** A node that a pattern of [matcher] can match, by its opcode and payload. *)
Definition can_match (n : UOp) : bool :=
  bool_decide (uop n = UOps.LOAD) || bool_decide (uop n = UOps.STORE)
  || (bool_decide (uop n = UOps.ALU)
      && (arg_is (arg n) BinaryOps.CMPEQ || arg_is (arg n) BinaryOps.CMPLT)).

(** [inserted Q k l l']: the list [l'] is [l] with [k] handles inserted, each
    of which satisfies [Q]. *)
Inductive inserted (Q : handle -> Prop) : nat -> list handle -> list handle -> Prop :=
| ins_nil : inserted Q 0 [] []
| ins_keep x k l l' : inserted Q k l l' -> inserted Q k (x :: l) (x :: l')
| ins_new x k l l' : Q x -> inserted Q k l l' -> inserted Q (S k) l (x :: l').

(** A handle that [g'] has and [g] has not, for a node no pattern can match. *)
Definition inert_new (g g' : UOpGraph) (h : handle) : Prop :=
  nodes g !! h = None /\ exists n, nodes g' !! h = Some n /\ can_match n = false.

(** [g'] is [g] after work on the node [u]: the other nodes are as they were
    and [k] new nodes, which no pattern can match, are in the list. *)
Definition grew (u : handle) (k : nat) (g g' : UOpGraph) : Prop :=
  extends u g g' /\ inserted (inert_new g g') k (uops g) (uops g').

(** The handles of the list that the sweep has not seen and that a pattern
    could still match. *)
Definition is_pending (seen : gset handle) (g : UOpGraph) (h : handle) : bool :=
  negb (bool_decide (h ∈ seen))
  && match nodes g !! h with Some n => can_match n | None => true end.

Fixpoint count_if (f : handle -> bool) (l : list handle) : nat :=
  match l with
  | [] => 0
  | x :: l => (if f x then 1 else 0) + count_if f l
  end.

Definition pending (st : Sweep) : nat :=
  count_if (is_pending (sw_seen st) (sw_graph st)) (uops (sw_graph st)).

(** An outcome other than running out of fuel. *)
Definition safe {A} (m : result A) : Prop := m <> Raise Diverged.

(** Loads of a [bool]: from a pointer and an index, and with a third operand
    that is not a gate with its default. *)
Definition ex_bool_load2_graph : UOpGraph := graph_of [
  mkUOp UOps.DEFINE_GLOBAL (Some (PtrDType dtypes.bool)) [] (PTuple [PInt 0; PStr "data0"]);
  mkUOp UOps.CONST (Some dtypes.int) [] (PInt 3);
  mkUOp UOps.LOAD (Some dtypes.bool) [0%nat; 1%nat] PNone ].

Definition ex_bool_load3_graph : UOpGraph := graph_of [
  mkUOp UOps.DEFINE_LOCAL (Some (PtrDType dtypes.bool)) [] (PTuple [PStr "temp"; PInt 16]);
  mkUOp UOps.CONST (Some dtypes.int) [] (PInt 3);
  mkUOp UOps.BARRIER None [] PNone;
  mkUOp UOps.LOAD (Some dtypes.bool) [0%nat; 1%nat; 2%nat] PNone ].

(** A gated load of two integers, and a comparison of two integers. *)
Definition ex_vec_load_graph : UOpGraph := graph_of [
  mkUOp UOps.DEFINE_GLOBAL (Some (PtrDType dtypes.int32)) [] (PTuple [PInt 0; PStr "data0"]);
  mkUOp UOps.CONST (Some dtypes.int) [] (PInt 16);
  mkUOp UOps.CONST (Some dtypes.bool) [] (PBool true);
  mkUOp UOps.CONST (Some (vec dtypes.int32 2)) [] (PInt 0);
  mkUOp UOps.LOAD (Some (vec dtypes.int32 2)) [0%nat; 1%nat; 2%nat; 3%nat] (PStr ".global") ].

Definition ex_vec_load_state : LState :=
  ex_state [(0%nat, PStr "%dat_u64_0"); (1%nat, PStr "%const_s32_0");
            (2%nat, PStr "%const_pred_0")].

Definition ex_int_cmp_graph : UOpGraph := graph_of [
  mkUOp UOps.CONST (Some dtypes.int32) [] (PInt 1);
  mkUOp UOps.CONST (Some dtypes.int32) [] (PInt 2);
  mkUOp UOps.ALU (Some dtypes.bool) [0%nat; 1%nat] (POp BinaryOps.CMPLT) ].

Definition ex_int_cmp_state : LState :=
  ex_state [(0%nat, PStr "%const_s32_0"); (1%nat, PStr "%const_s32_1")].

(** Stores of a half and of a vector of two integers, after the
    pre-transform. *)
Definition ex_store_graph : UOpGraph := graph_of [
  mkUOp UOps.DEFINE_GLOBAL (Some (PtrDType dtypes.half)) [] (PTuple [PInt 0; PStr "data0"]);
  mkUOp UOps.CONST (Some dtypes.int) [] (PInt 6);
  mkUOp UOps.LOAD (Some dtypes.half) [0%nat; 1%nat] (PStr ".global");
  mkUOp UOps.CONST (Some dtypes.bool) [] (PBool true);
  mkUOp UOps.STORE None [0%nat; 1%nat; 2%nat; 3%nat] (PStr ".global");
  mkUOp UOps.CONST (Some (vec dtypes.int32 2)) [] (PInt 7);
  mkUOp UOps.STORE None [0%nat; 1%nat; 5%nat] (PStr ".global") ].

Definition ex_store_state : LState :=
  ex_state [(0%nat, PStr "%dat_u64_0"); (1%nat, PStr "%const_s32_0");
            (2%nat, PStr "%val_f16_0"); (3%nat, PStr "%const_pred_0");
            (5%nat, PList [PStr "%const_s32_1"; PStr "%const_s32_2"])].

(** ** Running the lowering monad *)

Lemma bind_run {A B} (m : M A) (f : A -> M B) s a s' :
  m s = Ok (a, s') -> (m ≫= f) s = f a s'.
Proof. intros H. unfold mbind, M_bind. rewrite H. reflexivity. Qed.

Lemma bind_raise {A B} (m : M A) (f : A -> M B) s e :
  m s = Raise e -> (m ≫= f) s = Raise e.
Proof. intros H. unfold mbind, M_bind. rewrite H. reflexivity. Qed.

Lemma run_ret {A} (a : A) s : (mret a : M A) s = Ok (a, s).
Proof. reflexivity. Qed.

Lemma run_lift {A} (m : result A) a s : m = Ok a -> lift m s = Ok (a, s).
Proof. intros ->. reflexivity. Qed.

Lemma run_key {A} (o : option A) a s : o = Some a -> key o s = Ok (a, s).
Proof. intros ->. reflexivity. Qed.

Lemma run_node g h n : nodes g !! h = Some n -> node g h = Ok n.
Proof. unfold node. intros ->. reflexivity. Qed.

Lemma run_item {A} (v : list A) k x : v !! k = Some x -> item v k = Ok x.
Proof. unfold item. intros ->. reflexivity. Qed.

Lemma run_get_r h a s : r s !! h = Some a -> get_r h s = Ok (a, s).
Proof. unfold get_r, key. intros ->. reflexivity. Qed.

Lemma run_set_r h v s :
  set_r h v s = Ok (tt, mkL (kernel s) (bufs s) (c s) (<[h := v]> (r s)) (c_label s) (r_label s)).
Proof. reflexivity. Qed.

Lemma run_kk lines s :
  kk lines s
  = Ok (tt, mkL (kernel s ++ [join nl lines]) (bufs s) (c s) (r s) (c_label s) (r_label s)).
Proof. reflexivity. Qed.

Lemma run_dtype_of g h n d s :
  nodes g !! h = Some n -> dtype n = Some d -> dtype_of g h s = Ok (d, s).
Proof.
  unfold dtype_of. intros Hn Hd.
  erewrite bind_run by (apply run_lift, run_node, Hn).
  rewrite Hd. reflexivity.
Qed.

Lemma run_arg_of g h n s : nodes g !! h = Some n -> arg_of g h s = Ok (arg n, s).
Proof.
  unfold arg_of. intros Hn.
  erewrite bind_run by (apply run_lift, run_node, Hn). reflexivity.
Qed.

Lemma run_ty_of lang d t s : types lang d = Some t -> ty_of lang d s = Ok (t, s).
Proof. unfold ty_of. apply run_key. Qed.

Lemma run_incr_c p s :
  incr_c p s = Ok ((counter (c s) p + 1)%Z,
                   mkL (kernel s) (bufs s) (dd_set (c s) p (counter (c s) p + 1))
                       (r s) (c_label s) (r_label s)).
Proof. reflexivity. Qed.

(** [ssa(u, prefix, ty)] with an explicit type name. *)
Lemma run_ssa lang g u prefix t s :
  nonempty t = true ->
  ssa lang g u prefix (Some t) s
  = Ok (reg prefix t (counter (c s) (ssa_prefix prefix t)),
        mkL (kernel s) (bufs s)
            (dd_set (c s) (ssa_prefix prefix t) (counter (c s) (ssa_prefix prefix t) + 1))
            (match u with
             | Some h => <[h := PStr (reg prefix t (counter (c s) (ssa_prefix prefix t)))]> (r s)
             | None => r s
             end)
            (c_label s) (r_label s)).
Proof.
  intros Ht. unfold ssa. rewrite Ht.
  erewrite bind_run by apply run_ret.
  erewrite bind_run by apply run_incr_c.
  unfold reg, ssa_prefix. rewrite Z.add_simpl_r.
  destruct u; reflexivity.
Qed.

(** [ssa(u, prefix)]: the type name is that of the node's type. *)
Lemma run_ssa_node lang g h n d t prefix s :
  nodes g !! h = Some n -> dtype n = Some d -> types lang d = Some t ->
  ssa lang g (Some h) prefix None s
  = Ok (reg prefix t (counter (c s) (ssa_prefix prefix t)),
        mkL (kernel s) (bufs s)
            (dd_set (c s) (ssa_prefix prefix t) (counter (c s) (ssa_prefix prefix t) + 1))
            (<[h := PStr (reg prefix t (counter (c s) (ssa_prefix prefix t)))]> (r s))
            (c_label s) (r_label s)).
Proof.
  intros Hn Hd Ht. unfold ssa.
  erewrite (bind_run (_ ≫= _)); cycle 1.
  { erewrite bind_run by (apply run_lift, run_node, Hn).
    erewrite bind_run by (apply run_key, Hd).
    apply run_ty_of, Ht. }
  erewrite bind_run by apply run_incr_c.
  unfold reg, ssa_prefix. rewrite Z.add_simpl_r. reflexivity.
Qed.

Create HintDb run.
#[export] Hint Resolve run_ret run_lift run_key run_node run_item run_get_r run_set_r run_kk
  run_dtype_of run_arg_of run_ty_of run_incr_c : run.

Ltac mrun := repeat (erewrite bind_run by (unfold operand; eauto with run)).

Lemma ltb_count_scalar (d : DType) : (count d <= 1)%nat -> (1 <? count d)%nat = false.
Proof. intros H. apply Nat.ltb_ge. exact H. Qed.

(** ** CAST and BITCAST between equal types *)

(** C10: a scalar CAST or BITCAST node whose operand has the node's own type
    emits nothing: the kernel and the counters are unchanged, and the node is
    bound to the register of its operand. *)
Theorem cast_same_dtype_is_alias fm lang g h u v0 vs n0 dt a s :
  nodes g !! h = Some u ->
  uop u = UOps.CAST \/ uop u = UOps.BITCAST ->
  dtype u = Some dt -> (count dt <= 1)%nat ->
  vin u = v0 :: vs ->
  nodes g !! v0 = Some n0 -> dtype n0 = Some dt ->
  r s !! v0 = Some a ->
  lower_uop fm lang g h s
  = Ok (tt, mkL (kernel s) (bufs s) (c s) (<[h := a]> (r s)) (c_label s) (r_label s)).
Proof.
  intros Hu Hop Hdt Hc Hv Hn0 Hd0 Hr.
  pose proof (ltb_count_scalar dt Hc) as Hlt.
  assert (H0 : vin u !! 0%nat = Some v0) by (rewrite Hv; reflexivity).
  assert (Hty : lower_typed fm lang g h u s
    = Ok (tt, mkL (kernel s) (bufs s) (c s) (<[h := a]> (r s)) (c_label s) (r_label s))).
  { unfold lower_typed. rewrite Hdt. mrun.
    destruct Hop as [-> | ->]; mrun; rewrite Hlt; mrun;
      unfold cast; rewrite bool_decide_eq_true_2 by reflexivity; reflexivity. }
  unfold lower_uop. mrun.
  destruct Hop as [-> | ->]; exact Hty.
Qed.

Lemma cast_same_dtype_is_alias_witness :
  lower_uop no_floats (PTXLanguage no_floats) ex_cast_graph 1
    (ex_state [(0%nat, PStr "%const_s32_0")])
  = Ok (tt, mkL [] [] [] (<[1%nat := PStr "%const_s32_0"]> (list_to_map [(0%nat, PStr "%const_s32_0")]))
                [] ∅).
Proof.
  apply (cast_same_dtype_is_alias no_floats (PTXLanguage no_floats) ex_cast_graph 1
           (mkUOp UOps.CAST (Some dtypes.int32) [0%nat] PNone) 0%nat []
           (mkUOp UOps.CONST (Some dtypes.int32) [] (PInt 5)) dtypes.int32
           (PStr "%const_s32_0") (ex_state [(0%nat, PStr "%const_s32_0")])).
  - reflexivity.
  - left. reflexivity.
  - reflexivity.
  - simpl. lia.
  - reflexivity.
  - reflexivity.
  - reflexivity.
  - reflexivity.
Defined.

(** ** BARRIER *)

(** C7 (amended): a BARRIER node emits the backend's barrier text when that
    text is not empty; when it is empty the node falls through the dispatch
    and lowering raises: the missing-type assertion when the node has no
    type, "no code for" otherwise.  Nothing is emitted and the rest of the
    graph is not lowered. *)
Theorem barrier_emits_or_raises fm lang g h u s :
  nodes g !! h = Some u ->
  uop u = UOps.BARRIER ->
  (barrier lang <> "" ->
   lower_uop fm lang g h s
   = Ok (tt, mkL (kernel s ++ [barrier lang]) (bufs s) (c s) (r s) (c_label s) (r_label s)))
  /\ (barrier lang = "" ->
      lower_uop fm lang g h s
      = Raise (match dtype u with
               | None => AssertionError "None dtype for uop UOps.BARRIER"
               | Some _ => NotImplementedError "no code for UOps.BARRIER"
               end)).
Proof.
  intros Hu Hop. split; intros Hb.
  - unfold lower_uop. mrun. rewrite Hop.
    assert (Hne : nonempty (barrier lang) = true).
    { unfold nonempty. destruct (String.eqb_spec (barrier lang) ""); [contradiction | reflexivity]. }
    rewrite Hne. reflexivity.
  - unfold lower_uop. mrun. rewrite Hop, Hb. cbn [nonempty String.eqb negb].
    unfold lower_typed. rewrite Hop.
    destruct (dtype u); reflexivity.
Qed.

Lemma barrier_emits_or_raises_witness :
  lower_uop no_floats (PTXLanguage no_floats) ex_barrier_graph 0 LState_init
  = Ok (tt, mkL ["bar.sync" +:+ tab +:+ "0;"] [] [] ∅ [] ∅)
  /\ lower_uop no_floats (PTX_without_barrier no_floats) ex_barrier_graph 0 LState_init
     = Raise (AssertionError "None dtype for uop UOps.BARRIER").
Proof.
  pose proof (barrier_emits_or_raises no_floats (PTXLanguage no_floats) ex_barrier_graph 0
                (mkUOp UOps.BARRIER None [] PNone) LState_init eq_refl eq_refl) as [H1 _].
  pose proof (barrier_emits_or_raises no_floats (PTX_without_barrier no_floats) ex_barrier_graph 0
                (mkUOp UOps.BARRIER None [] PNone) LState_init eq_refl eq_refl) as [_ H2].
  split.
  - apply H1. discriminate.
  - apply H2. reflexivity.
Defined.

(** C7, as stated, fails: with an empty barrier text the kernel that consists
    of one BARRIER node is not lowered to a kernel without the barrier, the
    call raises. *)
Lemma barrier_empty_text_raises :
  uops_to_asm no_floats (PTX_without_barrier no_floats) "k" ex_barrier_graph
  = Raise (AssertionError "None dtype for uop UOps.BARRIER").
Proof. vm_compute. reflexivity. Qed.

(** ** DEFINE_LOCAL *)

Lemma py_getitem_0 {A} (x : A) (l : list A) : py_getitem (x :: l) 0 = Ok x.
Proof.
  unfold py_getitem. cbv zeta. change (0 <? 0)%Z with false. cbv iota.
  destruct ((0 <? 0)%Z || (Z.of_nat (length (x :: l)) <=? 0)%Z) eqn:E; [| reflexivity].
  apply orb_true_iff in E. destruct E as [E | E]; [discriminate |].
  apply Z.leb_le in E. cbn [length] in E. lia.
Qed.

Lemma py_getitem_1 {A} (x y : A) (l : list A) : py_getitem (x :: y :: l) 1 = Ok y.
Proof.
  unfold py_getitem. cbv zeta. change (1 <? 0)%Z with false. cbv iota.
  destruct ((1 <? 0)%Z || (Z.of_nat (length (x :: y :: l)) <=? 1)%Z) eqn:E; [| reflexivity].
  apply orb_true_iff in E. destruct E as [E | E]; [discriminate |].
  apply Z.leb_le in E. cbn [length] in E. lia.
Qed.

(** C9: a DEFINE_LOCAL node of [size] elements of type [dt] is lowered when
    [size * itemsize dt <= 0xC000] and raises "too large local" when it is
    larger, whatever the backend; on success the PTX backend emits the
    [.shared] declaration and the move of the handle, and binds the node to a
    fresh [local] register of the 64-bit unsigned type. *)
Theorem define_local_ceiling fm lang g h u dt name size rest s :
  nodes g !! h = Some u ->
  uop u = UOps.DEFINE_LOCAL ->
  dtype u = Some dt ->
  arg u = PTuple (name :: PInt size :: rest) ->
  ((49152 < size * itemsize dt)%Z ->
   lower_uop fm lang g h s = Raise (AssertionError "too large local"))
  /\ ((size * itemsize dt <= 49152)%Z ->
      lower_uop fm (PTXLanguage fm) g h s
      = Ok (tt, mkL (kernel s ++
                       [join nl
                          [".shared .align 4 .b8 " +:+ pystr fm name +:+ "["
                             +:+ str_Z (size * itemsize dt) +:+ "];";
                           "mov.u64 " +:+ reg "local" "u64" (counter (c s) "local_u64_")
                             +:+ ", " +:+ pystr fm name +:+ "[0];"]])
                    (bufs s)
                    (dd_set (c s) "local_u64_" (counter (c s) "local_u64_" + 1))
                    (<[h := PStr (reg "local" "u64" (counter (c s) "local_u64_"))]> (r s))
                    (c_label s) (r_label s))).
Proof.
  intros Hu Hop Hdt Harg.
  assert (H1 : subscript (arg u) (PInt 1) = Ok (PInt size))
    by (rewrite Harg; apply py_getitem_1).
  assert (H0 : subscript (arg u) (PInt 0) = Ok name)
    by (rewrite Harg; apply py_getitem_0).
  split; intros Hsz.
  - unfold lower_uop. mrun. rewrite Hop. unfold lower_typed. rewrite Hdt, Hop. mrun.
    apply bind_raise. unfold py_assert.
    replace (size * itemsize dt <=? 49152)%Z with false by (symmetry; apply Z.leb_gt; lia).
    reflexivity.
  - unfold lower_uop. mrun. rewrite Hop. unfold lower_typed. rewrite Hdt, Hop. mrun.
    erewrite bind_run; cycle 1.
    { apply run_lift. unfold py_assert.
      replace (size * itemsize dt <=? 49152)%Z with true by (symmetry; apply Z.leb_le; lia).
      reflexivity. }
    erewrite bind_run
      by (apply run_ty_of; exact (eq_refl : types (PTXLanguage fm) dtypes.ulong = Some "u64")).
    erewrite bind_run by (apply run_ssa; reflexivity).
    erewrite bind_run by (apply run_lift; exact H0).
    erewrite bind_run by (apply run_lift; reflexivity).
    rewrite run_kk. reflexivity.
Qed.

Lemma define_local_ceiling_witness :
  lower_uop no_floats (PTXLanguage no_floats) (ex_local_graph 12289) 0 LState_init
  = Raise (AssertionError "too large local")
  /\ is_ok (lower_uop no_floats (PTXLanguage no_floats) (ex_local_graph 12288) 0 LState_init)
     = true.
Proof.
  split.
  - apply (define_local_ceiling no_floats (PTXLanguage no_floats) (ex_local_graph 12289) 0
             (mkUOp UOps.DEFINE_LOCAL (Some (PtrDType dtypes.float32)) []
                (PTuple [PStr "temp"; PInt 12289]))
             (PtrDType dtypes.float32) (PStr "temp") 12289 [] LState_init
             eq_refl eq_refl eq_refl eq_refl).
    vm_compute. reflexivity.
  - rewrite (proj2 (define_local_ceiling no_floats (PTXLanguage no_floats) (ex_local_graph 12288) 0
             (mkUOp UOps.DEFINE_LOCAL (Some (PtrDType dtypes.float32)) []
                (PTuple [PStr "temp"; PInt 12288]))
             (PtrDType dtypes.float32) (PStr "temp") 12288 [] LState_init
             eq_refl eq_refl eq_refl eq_refl)).
    + reflexivity.
    + vm_compute. discriminate.
Defined.

(** ** Counters *)

Lemma dd_get_set d k v : dd_get (dd_set d k v) k = Some v.
Proof.
  induction d as [| [k' v'] d IH]; cbn.
  - rewrite String.eqb_refl. reflexivity.
  - destruct (String.eqb_spec k' k) as [-> | Hne]; cbn.
    + rewrite String.eqb_refl. reflexivity.
    + destruct (String.eqb_spec k' k); [contradiction | exact IH].
Qed.

Lemma dd_set_set d k v v' : dd_set (dd_set d k v) k v' = dd_set d k v'.
Proof.
  induction d as [| [k' w] d IH]; cbn.
  - rewrite String.eqb_refl. reflexivity.
  - destruct (String.eqb_spec k' k) as [-> | Hne]; cbn.
    + rewrite String.eqb_refl. reflexivity.
    + destruct (String.eqb_spec k' k); [contradiction | rewrite IH; reflexivity].
Qed.

Lemma counter_set d k v : counter (dd_set d k v) k = v.
Proof. unfold counter. rewrite dd_get_set. reflexivity. Qed.

Lemma bump_succ d p k :
  bump (dd_set d p (counter d p + 1)) p k = bump d p (S k).
Proof.
  destruct k as [| k]; cbn [bump].
  - reflexivity.
  - rewrite counter_set, dd_set_set. f_equal. lia.
Qed.

(** ** CONST *)

(** [const(x, dtype, mov=True)]: a fresh [const] register and its move. *)
Lemma run_const_forced lang g x dt ty v lines s :
  types lang dt = Some ty -> nonempty ty = true ->
  render_const lang x dt (Some (reg "const" ty (counter (c s) (ssa_prefix "const" ty)))) = Ok v ->
  star v = Ok lines ->
  const lang g x dt true s
  = Ok (PStr (reg "const" ty (counter (c s) (ssa_prefix "const" ty))),
        mkL (kernel s ++ [join nl lines]) (bufs s)
            (dd_set (c s) (ssa_prefix "const" ty) (counter (c s) (ssa_prefix "const" ty) + 1))
            (r s) (c_label s) (r_label s)).
Proof.
  intros Hty Hne Hrc Hst. unfold const. cbn [orb].
  erewrite bind_run by (apply run_ty_of, Hty).
  erewrite bind_run by (apply run_ssa, Hne).
  erewrite bind_run by (apply run_lift, Hrc).
  erewrite bind_run by (apply run_lift, Hst).
  erewrite bind_run by apply run_kk.
  reflexivity.
Qed.

Lemma run_repeat_const lang g x dt ty (ins : string -> list string) cnt :
  types lang dt = Some ty -> nonempty ty = true ->
  (forall out, (v ← render_const lang x dt (Some out); star v) = Ok (ins out)) ->
  forall s,
    repeatM cnt (const lang g x dt true) s
    = Ok (PStr <$> regs_from "const" ty (counter (c s) (ssa_prefix "const" ty)) cnt,
          mkL (kernel s ++ ((fun o => join nl (ins o))
                              <$> regs_from "const" ty (counter (c s) (ssa_prefix "const" ty)) cnt))
              (bufs s) (bump (c s) (ssa_prefix "const" ty) cnt)
              (r s) (c_label s) (r_label s)).
Proof.
  intros Hty Hne Hins. induction cnt as [| cnt IH]; intros s.
  - cbn. rewrite app_nil_r. destruct s; reflexivity.
  - cbn [repeatM].
    pose proof (Hins (reg "const" ty (counter (c s) (ssa_prefix "const" ty)))) as Hout.
    destruct (render_const lang x dt
                (Some (reg "const" ty (counter (c s) (ssa_prefix "const" ty))))) as [v | e] eqn:Hrc;
      [| discriminate].
    cbn in Hout.
    erewrite bind_run by (eapply run_const_forced; eassumption).
    erewrite bind_run by apply IH.
    cbn [c kernel bufs r c_label r_label].
    rewrite counter_set, bump_succ.
    cbn [regs_from fmap list_fmap]. rewrite <- app_assoc. reflexivity.
Qed.

(** C6 (amended): a scalar CONST node is always materialized into a forced
    [const] register, whatever its type: the CONST case calls [const] with
    [mov=True].  Each lane of a vector CONST node is a forced register of its
    own.  The inline literal is what [const] returns when it is not forced
    and the type is not in [const_requires_mov]. *)
Theorem const_node_is_forced fm lang g h u dt ty s :
  nodes g !! h = Some u ->
  uop u = UOps.CONST ->
  dtype u = Some dt ->
  types lang (scalar dt) = Some ty -> nonempty ty = true ->
  ((count dt <= 1)%nat ->
   forall v lines,
     render_const lang (arg u) dt
       (Some (reg "const" ty (counter (c s) (ssa_prefix "const" ty)))) = Ok v ->
     star v = Ok lines ->
     lower_uop fm lang g h s
     = Ok (tt, mkL (kernel s ++ [join nl lines]) (bufs s)
                   (dd_set (c s) (ssa_prefix "const" ty)
                           (counter (c s) (ssa_prefix "const" ty) + 1))
                   (<[h := PStr (reg "const" ty (counter (c s) (ssa_prefix "const" ty)))]> (r s))
                   (c_label s) (r_label s)))
  /\ ((1 < count dt)%nat ->
      forall ins : string -> list string,
        (forall out, (v ← render_const lang (arg u) (scalar dt) (Some out); star v)
                     = Ok (ins out)) ->
        lower_uop fm lang g h s
        = Ok (tt, mkL (kernel s ++
                         ((fun o => join nl (ins o))
                            <$> regs_from "const" ty (counter (c s) (ssa_prefix "const" ty))
                                  (count dt)))
                      (bufs s) (bump (c s) (ssa_prefix "const" ty) (count dt))
                      (<[h := PList (PStr <$> regs_from "const" ty
                                                (counter (c s) (ssa_prefix "const" ty))
                                                (count dt))]> (r s))
                      (c_label s) (r_label s)))
  /\ (forall x d, d ∉ const_requires_mov lang ->
        const lang g x d false s = lift (render_const lang x d None) s).
Proof.
  intros Hu Hop Hdt Hty Hne. split; [| split].
  - intros Hc v lines Hrc Hst.
    assert (Hsc : scalar dt = dt) by (unfold scalar; rewrite (ltb_count_scalar dt Hc); reflexivity).
    rewrite Hsc in Hty.
    unfold lower_uop. mrun. rewrite Hop. unfold lower_typed. rewrite Hdt, Hop. mrun.
    rewrite (ltb_count_scalar dt Hc).
    erewrite bind_run by (eapply run_const_forced; eassumption).
    rewrite run_set_r. reflexivity.
  - intros Hc ins Hins.
    unfold lower_uop. mrun. rewrite Hop. unfold lower_typed. rewrite Hdt, Hop. mrun.
    replace (1 <? count dt)%nat with true by (symmetry; apply Nat.ltb_lt; exact Hc).
    erewrite bind_run by (eapply run_repeat_const; eassumption).
    rewrite run_set_r. reflexivity.
  - intros x d Hd. unfold const. cbn [orb].
    rewrite bool_decide_eq_false_2 by exact Hd. reflexivity.
Qed.

Lemma const_node_is_forced_witness :
  lower_uop no_floats (PTXLanguage no_floats) ex_const_graph 0 LState_init
  = Ok (tt, mkL ["mov.b32 %const_s32_0, 5;"] [] [("const_s32_", 1%Z)]
                (<[0%nat := PStr "%const_s32_0"]> ∅) [] ∅)
  /\ lower_uop no_floats (PTXLanguage no_floats) ex_const_graph 1 LState_init
     = Ok (tt, mkL ["mov.b32 %const_s32_0, 7;"; "mov.b32 %const_s32_1, 7;"] []
                   [("const_s32_", 2%Z)]
                   (<[1%nat := PList [PStr "%const_s32_0"; PStr "%const_s32_1"]]> ∅) [] ∅).
Proof.
  split.
  - apply (proj1 (const_node_is_forced no_floats (PTXLanguage no_floats) ex_const_graph 0
                    (mkUOp UOps.CONST (Some dtypes.int32) [] (PInt 5)) dtypes.int32 "s32"
                    LState_init eq_refl eq_refl eq_refl eq_refl eq_refl)
             ltac:(simpl; lia) (PList [PStr "mov.b32 %const_s32_0, 5;"])
             ["mov.b32 %const_s32_0, 5;"] eq_refl eq_refl).
  - apply (proj1 (proj2 (const_node_is_forced no_floats (PTXLanguage no_floats) ex_const_graph 1
                    (mkUOp UOps.CONST (Some (vec dtypes.int32 2)) [] (PInt 7))
                    (vec dtypes.int32 2) "s32"
                    LState_init eq_refl eq_refl eq_refl eq_refl eq_refl))
             ltac:(simpl; lia)
             (fun out => if nonempty out then ["mov.b32 " +:+ out +:+ ", 7;"] else ["7"])).
    intros out. destruct out; reflexivity.
Defined.

(** C6, as stated, fails: [int32] is not a type that requires a move, and the
    CONST node of that type is still given a register and a [mov]. *)
Lemma const_int32_gets_a_register :
  (dtypes.int32 ∉ const_requires_mov (PTXLanguage no_floats))
  /\ render_const (PTXLanguage no_floats) (PInt 5) dtypes.int32 None = Ok (PStr "5")
  /\ lower_uop no_floats (PTXLanguage no_floats) ex_const_graph 0 LState_init
     = Ok (tt, mkL ["mov.b32 %const_s32_0, 5;"] [] [("const_s32_", 1%Z)]
                   (<[0%nat := PStr "%const_s32_0"]> ∅) [] ∅).
Proof.
  split; [| split].
  - cbn. rewrite !not_elem_of_cons. repeat split; try discriminate. apply not_elem_of_nil.
  - reflexivity.
  - vm_compute. reflexivity.
Qed.

(** ** ALU on half-precision values *)

Lemma run_forM_get_r (v : list handle) (ops : list pyobj) s :
  Forall2 (fun x a => r s !! x = Some a) v ops ->
  forM v get_r s = Ok (ops, s).
Proof.
  induction 1 as [| x a v ops Hx _ IH]; [reflexivity |].
  cbn [forM].
  erewrite bind_run by (apply run_get_r, Hx).
  erewrite bind_run by exact IH.
  reflexivity.
Qed.

Lemma run_upcast_operand lang g tf (up : string -> pyobj -> list string) a s :
  types lang dtypes.float32 = Some tf -> nonempty tf = true ->
  (forall d a, render_cast lang d a dtypes.float32 dtypes.half false false = Ok (up d a)) ->
  upcast_operand lang g dtypes.float32 a s
  = Ok (PStr (reg "alu_cast" tf (counter (c s) (ssa_prefix "alu_cast" tf))),
        mkL (kernel s ++
               [join nl (up (reg "alu_cast" tf (counter (c s) (ssa_prefix "alu_cast" tf))) a)])
            (bufs s)
            (dd_set (c s) (ssa_prefix "alu_cast" tf)
                    (counter (c s) (ssa_prefix "alu_cast" tf) + 1))
            (r s) (c_label s) (r_label s)).
Proof.
  intros Hty Hne Hup. unfold upcast_operand.
  erewrite bind_run by (apply run_ty_of, Hty).
  erewrite bind_run by (apply run_ssa, Hne).
  erewrite bind_run by (apply run_lift, Hup).
  erewrite bind_run by apply run_kk.
  reflexivity.
Qed.

Lemma run_upcasts lang g tf (up : string -> pyobj -> list string) :
  types lang dtypes.float32 = Some tf -> nonempty tf = true ->
  (forall d a, render_cast lang d a dtypes.float32 dtypes.half false false = Ok (up d a)) ->
  forall ops s,
    forM ops (upcast_operand lang g dtypes.float32) s
    = Ok (PStr <$> regs_from "alu_cast" tf (counter (c s) (ssa_prefix "alu_cast" tf))
                     (length ops),
          mkL (kernel s ++
                 zip_with (fun o a => join nl (up o a))
                   (regs_from "alu_cast" tf (counter (c s) (ssa_prefix "alu_cast" tf))
                      (length ops)) ops)
              (bufs s) (bump (c s) (ssa_prefix "alu_cast" tf) (length ops))
              (r s) (c_label s) (r_label s)).
Proof.
  intros Hty Hne Hup. induction ops as [| a ops IH]; intros s.
  - cbn. rewrite app_nil_r. destruct s; reflexivity.
  - cbn [forM].
    erewrite bind_run by (eapply run_upcast_operand; eassumption).
    erewrite bind_run by apply IH.
    cbn [c kernel bufs r c_label r_label].
    rewrite counter_set, bump_succ.
    cbn [length regs_from fmap list_fmap zip_with]. rewrite <- app_assoc. reflexivity.
Qed.

(** C5: an ALU node of type [half] whose operator is not in [supports_half]
    is bound to an [alu] register of the half type's name; every operand is
    converted from [half] to [float32] into an [alu_cast] register of its own;
    one instruction of the operator's template computes on these registers
    into a further [alu_cast] register (the template is given [float32], or,
    for a comparison, the type of the first operand); one conversion from
    [float32] to [half] moves the result into the node's register. *)
Theorem alu_half_is_promoted fm lang g h u o v0 vs n0 d0 ops th tf tc f
    (up : string -> pyobj -> list string) down ins s :
  let n_alu := counter (c s) (ssa_prefix "alu" th) in
  let c1 := dd_set (c s) (ssa_prefix "alu" th) (n_alu + 1) in
  let m := counter c1 (ssa_prefix "alu_cast" tf) in
  let out_lab := reg "alu" th n_alu in
  let lab := reg "alu_cast" tf m in
  let casts := regs_from "alu_cast" tf (m + 1) (length ops) in
  let T := if arg_is (POp o) BinaryOps.CMPLT || arg_is (POp o) BinaryOps.CMPEQ
           then d0 else dtypes.float32 in
  nodes g !! h = Some u ->
  uop u = UOps.ALU ->
  dtype u = Some dtypes.half ->
  arg u = POp o ->
  o ∉ supports_half lang ->
  vin u = v0 :: vs ->
  nodes g !! v0 = Some n0 -> dtype n0 = Some d0 ->
  Forall2 (fun x a => r s !! x = Some a) (vin u) ops ->
  types lang dtypes.half = Some th ->
  types lang dtypes.float32 = Some tf -> nonempty tf = true ->
  types lang T = Some tc ->
  asm_for_op lang o = Some f ->
  (forall d a, render_cast lang d a dtypes.float32 dtypes.half false false = Ok (up d a)) ->
  f (PStr lab :: (PStr <$> casts)) T tc = Ok ins ->
  render_cast lang out_lab (PStr lab) dtypes.half dtypes.float32 false false = Ok down ->
  lower_uop fm lang g h s
  = Ok (tt, mkL (kernel s ++ zip_with (fun o a => join nl (up o a)) casts ops
                   ++ [ins; join nl down])
                (bufs s)
                (bump c1 (ssa_prefix "alu_cast" tf) (S (length ops)))
                (<[h := PStr out_lab]> (r s))
                (c_label s) (r_label s)).
Proof.
  intros n_alu c1 m out_lab lab casts T
    Hu Hop Hdt Harg Hns Hv Hn0 Hd0 Hops Hth Htf Hne Htc Hf Hup Hins Hdown.
  assert (H0 : vin u !! 0%nat = Some v0) by (rewrite Hv; reflexivity).
  unfold lower_uop. mrun. rewrite Hop. unfold lower_typed. rewrite Hdt, Hop. mrun.
  erewrite bind_run by (apply run_forM_get_r, Hops).
  erewrite bind_run by (eapply run_ssa_node; eassumption).
  fold n_alu. fold c1. fold out_lab.
  rewrite Harg.
  rewrite bool_decide_eq_true_2 by reflexivity.
  rewrite (bool_decide_eq_false_2 _ Hns).
  cbn [andb negb].
  erewrite bind_run; cycle 1.
  { erewrite bind_run by (apply run_ty_of, Htf).
    erewrite bind_run by (apply run_ssa, Hne).
    cbn [c kernel bufs r c_label r_label]. fold m. fold lab.
    erewrite bind_run by (eapply run_upcasts; eassumption).
    cbn [c kernel bufs r c_label r_label].
    rewrite counter_set, bump_succ. fold casts.
    apply run_ret. }
  cbv beta iota.
  erewrite bind_run by (apply run_key, Hf).
  subst T.
  destruct (arg_is (POp o) BinaryOps.CMPLT || arg_is (POp o) BinaryOps.CMPEQ).
  - erewrite bind_run; cycle 1.
    { erewrite bind_run by (apply run_ty_of, Htc).
      erewrite bind_run by (apply run_lift, Hins).
      apply run_kk. }
    erewrite bind_run by (apply run_lift, Hdown).
    rewrite run_kk. cbn [c kernel bufs r c_label r_label join].
    rewrite <- !app_assoc. reflexivity.
  - erewrite bind_run; cycle 1.
    { erewrite bind_run by (apply run_ty_of, Htc).
      erewrite bind_run by (apply run_lift, Hins).
      apply run_kk. }
    erewrite bind_run by (apply run_lift, Hdown).
    rewrite run_kk. cbn [c kernel bufs r c_label r_label join].
    rewrite <- !app_assoc. reflexivity.
Qed.

Lemma alu_half_is_promoted_witness :
  lower_uop no_floats (PTXLanguage no_floats) ex_half_graph 2 ex_half_state
  = Ok (tt, mkL ["cvt.f32.f16 %alu_cast_f32_1, %val_f16_0;";
                 "cvt.f32.f16 %alu_cast_f32_2, %val_f16_1;";
                 "div.approx.f32 %alu_cast_f32_0, %alu_cast_f32_1, %alu_cast_f32_2;";
                 "cvt.rn.f16.f32 %alu_f16_0, %alu_cast_f32_0;"]
                []
                [("val_f16_", 2%Z); ("alu_f16_", 1%Z); ("alu_cast_f32_", 3%Z)]
                (<[2%nat := PStr "%alu_f16_0"]> (r ex_half_state))
                [] ∅).
Proof.
  apply (alu_half_is_promoted no_floats (PTXLanguage no_floats) ex_half_graph 2
           (mkUOp UOps.ALU (Some dtypes.half) [0%nat; 1%nat] (POp BinaryOps.DIV))
           (Binary BinaryOps.DIV) 0%nat [1%nat]
           (mkUOp UOps.LOAD (Some dtypes.half) [] PNone) dtypes.half
           [PStr "%val_f16_0"; PStr "%val_f16_1"] "f16" "f32" "f32"
           (tpl2 no_floats (fun d a b dt name =>
              "div" +:+ (if dtypes.is_float dt then ".approx" else "") +:+ "." +:+ name +:+ " "
              +:+ d +:+ ", " +:+ a +:+ ", " +:+ b +:+ ";"))
           (fun d a => ["cvt.f32.f16 " +:+ d +:+ ", " +:+ pystr no_floats a +:+ ";"])
           ["cvt.rn.f16.f32 %alu_f16_0, %alu_cast_f32_0;"]
           "div.approx.f32 %alu_cast_f32_0, %alu_cast_f32_1, %alu_cast_f32_2;"
           ex_half_state).
  - reflexivity.
  - reflexivity.
  - reflexivity.
  - reflexivity.
  - cbn. rewrite !not_elem_of_cons. repeat split; try discriminate. apply not_elem_of_nil.
  - reflexivity.
  - reflexivity.
  - reflexivity.
  - repeat constructor.
  - reflexivity.
  - reflexivity.
  - reflexivity.
  - reflexivity.
  - reflexivity.
  - intros d a. reflexivity.
  - reflexivity.
  - reflexivity.
Defined.

(** ** The graph under insertion *)

Lemma py_index_app x pre post : x ∉ pre -> py_index x (pre ++ x :: post) = Ok (length pre).
Proof.
  induction pre as [| y pre IH]; intros Hx; cbn.
  - rewrite decide_True by reflexivity. reflexivity.
  - apply not_elem_of_cons in Hx as [Hne Hx].
    rewrite decide_False by (intros E; apply Hne; symmetry; exact E).
    rewrite (IH Hx). reflexivity.
Qed.

Lemma py_insert_app {A} (pre : list A) (h : A) (l : list A) :
  py_insert (length pre) h (pre ++ l)%list = (pre ++ h :: l)%list.
Proof. unfold py_insert. rewrite take_app_length, drop_app_length. reflexivity. Qed.

Lemma add_eq g op dt v a cb i :
  exists h, nodes g !! h = None
    /\ add g op dt v a cb (Some i)
       = (mkGraph (<[h := created g op dt v a]> (nodes g)) (py_insert i h (uops g)), h).
Proof.
  exists (fresh (dom (nodes g))). split; [| reflexivity].
  apply not_elem_of_dom. apply is_fresh.
Qed.

Ltac fresh_facts :=
  repeat match goal with
  | H : <[_:=_]> _ !! _ = None |- _ => apply lookup_insert_None in H as [H ?]
  | H : alter _ _ _ !! _ = None |- _ => rewrite lookup_alter_None in H
  end.

Ltac map_solve :=
  apply map_eq; intros ?k;
  repeat (rewrite lookup_alter || rewrite lookup_insert);
  repeat case_decide; subst; simplify_map_eq; try congruence; try reflexivity.

Lemma rbind_ok {A B} (m : result A) (f : A -> result B) a : m = Ok a -> (m ≫= f) = f a.
Proof. intros ->. reflexivity. Qed.

Lemma run_from_opt {A} e (o : option A) a : o = Some a -> from_opt e o = Ok a.
Proof. intros ->. reflexivity. Qed.

#[export] Hint Resolve run_from_opt : run.

Lemma rbind_Ok {A B} (a : A) (f : A -> result B) : (Ok a ≫= f) = f a.
Proof. reflexivity. Qed.

Ltac rrun :=
  repeat first [ rewrite rbind_Ok | erewrite rbind_ok by eauto with run ].

Lemma set_arg_nodes g h a n :
  nodes g !! h = Some n ->
  set_arg g h a = mkGraph (<[h := retarget n (vin n) a]> (nodes g)) (uops g).
Proof. intros Hn. unfold set_arg, retarget. erewrite alter_alt_Some by exact Hn. reflexivity. Qed.

Lemma set_vin_nodes g h v n :
  nodes g !! h = Some n ->
  set_vin g h v = mkGraph (<[h := retarget n v (arg n)]> (nodes g)) (uops g).
Proof. intros Hn. unfold set_vin, retarget. erewrite alter_alt_Some by exact Hn. reflexivity. Qed.

Lemma set_dtype_nodes g h d n :
  nodes g !! h = Some n ->
  set_dtype g h d = mkGraph (<[h := mkUOp (uop n) d (vin n) (arg n)]> (nodes g)) (uops g).
Proof. intros Hn. unfold set_dtype. erewrite alter_alt_Some by exact Hn. reflexivity. Qed.

Lemma node_insert_same_uop (N : gmap handle UOp) root u u' x nx ups :
  N !! root = Some u -> uop u' = uop u -> N !! x = Some nx ->
  exists np, node (mkGraph (<[root := u']> N) ups) x = Ok np /\ uop np = uop nx.
Proof.
  intros Hu Huop Hx. unfold node. cbn.
  destruct (decide (x = root)) as [-> | Hne].
  - rewrite lookup_insert_eq. exists u'. split; [reflexivity |]. congruence.
  - rewrite lookup_insert_ne by congruence. rewrite Hx. exists nx. split; reflexivity.
Qed.

Lemma index_insert_before N pre root post :
  root ∉ pre -> index (mkGraph N (pre ++ root :: post)%list) root = Ok (length pre).
Proof. intros H. apply py_index_app, H. Qed.

Lemma app_snoc_cons {A} (P : list A) (h : A) (l : list A) :
  (P ++ h :: l)%list = ((P ++ [h]) ++ l)%list.
Proof. rewrite <- app_assoc. reflexivity. Qed.

Lemma not_elem_of_snoc (P : list handle) (h root : handle) :
  root ∉ P -> h <> root -> root ∉ (P ++ [h])%list.
Proof.
  intros HP Hne. rewrite not_elem_of_app. split; [exact HP |].
  apply not_elem_of_cons. split; [congruence | apply not_elem_of_nil].
Qed.

(** One [uops.add(..., insert_before=uops.uops.index(root))]. *)
Tactic Notation "add_before" ident(h) ident(Hh) :=
  rewrite index_insert_before by (repeat apply not_elem_of_snoc; (assumption || congruence));
  rrun;
  match goal with
  | |- context [add ?g ?o ?d ?v ?a ?cb (Some ?i)] =>
      destruct (add_eq g o d v a cb i) as (h & Hh & ->)
  end;
  cbn [created folded];
  cbn [nodes uops] in *;
  rewrite py_insert_app, app_snoc_cons;
  fresh_facts.

Ltac nodup_solve :=
  repeat (apply NoDup_cons; split;
          [rewrite ?not_elem_of_cons; repeat split; (congruence || apply not_elem_of_nil) |]);
  apply NoDup_nil_2.

(** ** Pointer arithmetic *)

Lemma ptr_offset_small g root u x size :
  (size <= 1)%Z -> vin u !! 1%nat = Some x -> ptr_offset g root u size = Ok (g, x).
Proof.
  intros Hsz Hx. unfold ptr_offset.
  replace (1 <? size)%Z with false by (symmetry; apply Z.ltb_ge; exact Hsz).
  rewrite (run_item _ _ _ Hx). reflexivity.
Qed.

Lemma created_plain g op dt v a : folded g op v a = None -> created g op dt v a = mkUOp op dt v a.
Proof. unfold created. intros ->. reflexivity. Qed.

Lemma const_int_insert_ne (N : gmap handle UOp) ups h n x :
  h <> x -> const_int (mkGraph (<[h := n]> N) ups) x = const_int (mkGraph N ups) x.
Proof. intros Hne. unfold const_int. cbn. rewrite lookup_insert_ne by exact Hne. reflexivity. Qed.

Lemma ptr_offset_large (N : gmap handle UOp) P root post u x size :
  (1 < size)%Z -> vin u !! 1%nat = Some x ->
  root ∉ P -> is_Some (N !! root) -> is_Some (N !! x) ->
  exists val off,
    N !! val = None /\ N !! off = None /\ val <> off
    /\ ptr_offset (mkGraph N (P ++ root :: post)%list) root u size
       = Ok (mkGraph (<[off := match const_int (mkGraph N (P ++ root :: post)%list) x with
                               | Some z => mkUOp UOps.CONST (Some dtypes.int) [] (PInt (z * size))
                               | None => mkUOp UOps.ALU (Some dtypes.int) [x; val]
                                           (POp BinaryOps.MUL)
                               end]>
                      (<[val := mkUOp UOps.CONST (Some dtypes.int) [] (PInt size)]> N))
                     (((P ++ [val]) ++ [off]) ++ root :: post)%list, off).
Proof.
  intros Hsz Hx HP [ur Hur] [nx Hnx]. unfold ptr_offset.
  replace (1 <? size)%Z with true by (symmetry; apply Z.ltb_lt; exact Hsz).
  add_before val Hval.
  rewrite (run_item _ _ _ Hx). rrun.
  rewrite index_insert_before by (apply not_elem_of_snoc; [assumption | congruence]).
  rrun.
  match goal with
  | |- context [add ?g ?o ?d ?v ?a ?cb (Some ?i)] =>
      destruct (add_eq g o d v a cb i) as (off & Hoff & ->)
  end.
  cbn [nodes uops] in *. rewrite py_insert_app, app_snoc_cons. fresh_facts.
  exists val, off. repeat split; try assumption.
  do 3 f_equal. unfold created, folded.
  assert (Hxv : x <> val) by congruence.
  rewrite (const_int_insert_ne _ _ _ _ _ (not_eq_sym Hxv)).
  replace (const_int _ val) with (Some size)
    by (unfold const_int; cbn; rewrite lookup_insert_eq; reflexivity).
  destruct (const_int _ x); try reflexivity.
  apply app_snoc_cons.
Qed.
Lemma ptr_fold_const g root u b ptr np :
  nodes g !! ptr = Some np -> uop np = UOps.CONST ->
  ptr_fold g root u b ptr = Ok (set_vin g root (b :: ptr :: drop 2 (vin u))).
Proof.
  intros Hp Hc. unfold ptr_fold. rrun.
  rewrite bool_decide_eq_true_2 by exact Hc. reflexivity.
Qed.

Lemma ptr_fold_var (N : gmap handle UOp) P root post u1 u b ptr np :
  N !! ptr = Some np -> uop np <> UOps.CONST ->
  root ∉ P -> N !! root = Some u1 ->
  exists zero bptr fptr,
    NoDup [zero; bptr; fptr]
    /\ Forall (fun h => N !! h = None) [zero; bptr; fptr]
    /\ ptr_fold (mkGraph N (P ++ root :: post)%list) root u b ptr
       = Ok (mkGraph
               (<[root := retarget u1 (fptr :: zero :: drop 2 (vin u)) (arg u1)]>
                (<[fptr := mkUOp UOps.ALU (Some dtypes.uint64) [b; bptr] (POp BinaryOps.ADD)]>
                (<[bptr := mkUOp UOps.CAST (Some dtypes.uint64) [ptr] PNone]>
                (<[zero := mkUOp UOps.CONST (Some dtypes.int) [] (PInt 0)]> N))))
               (P ++ [zero; bptr; fptr] ++ root :: post)%list).
Proof.
  intros Hp Hc HP Hur. unfold ptr_fold. rrun.
  rewrite bool_decide_eq_false_2 by exact Hc.
  add_before zero Hzero. add_before bptr Hbptr. add_before fptr Hfptr.
  exists zero, bptr, fptr. split; [nodup_solve | split; [repeat constructor; assumption |]].
  unfold set_vin, retarget. cbn [nodes uops].
  do 2 f_equal; [map_solve | rewrite <- !app_assoc; reflexivity].
Qed.






(** ** ALU without promotion *)

(** An ALU node that needs no upcast: one instruction of the operator's
    template into a fresh [alu] register of the node's type. *)
Lemma run_alu_plain fm lang g h u o v0 vs n0 d0 dt ops ty tc f ins s :
  let lab := reg "alu" ty (counter (c s) (ssa_prefix "alu" ty)) in
  let T := if arg_is (POp o) BinaryOps.CMPLT || arg_is (POp o) BinaryOps.CMPEQ
           then d0 else dt in
  nodes g !! h = Some u ->
  uop u = UOps.ALU ->
  dtype u = Some dt ->
  arg u = POp o ->
  dt <> dtypes.half \/ o ∈ supports_half lang ->
  vin u = v0 :: vs ->
  nodes g !! v0 = Some n0 -> dtype n0 = Some d0 ->
  Forall2 (fun x a => r s !! x = Some a) (vin u) ops ->
  types lang dt = Some ty ->
  types lang T = Some tc ->
  asm_for_op lang o = Some f ->
  f (PStr lab :: ops) T tc = Ok ins ->
  lower_uop fm lang g h s
  = Ok (tt, mkL (kernel s ++ [ins]) (bufs s)
                (dd_set (c s) (ssa_prefix "alu" ty) (counter (c s) (ssa_prefix "alu" ty) + 1))
                (<[h := PStr lab]> (r s)) (c_label s) (r_label s)).
Proof.
  intros lab T Hu Hop Hdt Harg Hplain Hv Hn0 Hd0 Hops Hty Htc Hf Hins.
  assert (H0 : vin u !! 0%nat = Some v0) by (rewrite Hv; reflexivity).
  unfold lower_uop. mrun. rewrite Hop. unfold lower_typed. rewrite Hdt, Hop. mrun.
  erewrite bind_run by (apply run_forM_get_r, Hops).
  erewrite bind_run by (eapply run_ssa_node; eassumption).
  fold lab. rewrite Harg.
  assert (Hno : bool_decide (dt = dtypes.half) && negb (bool_decide (o ∈ supports_half lang))
                = false).
  { destruct Hplain as [Hne | Hin].
    - rewrite bool_decide_eq_false_2 by exact Hne. reflexivity.
    - rewrite (bool_decide_eq_true_2 _ Hin). apply andb_false_r. }
  rewrite Hno.
  erewrite bind_run by apply run_ret.
  cbv beta iota.
  erewrite bind_run by (apply run_key, Hf).
  subst T.
  destruct (arg_is (POp o) BinaryOps.CMPLT || arg_is (POp o) BinaryOps.CMPEQ).
  - erewrite bind_run; cycle 1.
    { erewrite bind_run by (apply run_ty_of, Htc).
      erewrite bind_run by (apply run_lift, Hins).
      apply run_kk. }
    reflexivity.
  - erewrite bind_run; cycle 1.
    { erewrite bind_run by (apply run_ty_of, Htc).
      erewrite bind_run by (apply run_lift, Hins).
      apply run_kk. }
    reflexivity.
Qed.

(** ** Comparisons of booleans *)

Lemma matching_rule_lt g n x y nx :
  uop n = UOps.ALU -> arg n = POp BinaryOps.CMPLT -> vin n = [x; y] ->
  nodes g !! x = Some nx -> dtype nx = Some dtypes.bool ->
  matching_rule g n = Some R_lt.
Proof.
  intros Hop Harg Hv Hx Hdx. unfold matching_rule, first_of_two_is_bool.
  rewrite Hop, Harg, Hv, Hx, Hdx. reflexivity.
Qed.


Lemma lt_rep_effect g u n x y pre post :
  nodes g !! u = Some n -> vin n = [x; y] ->
  uops g = (pre ++ u :: post)%list -> u ∉ pre ->
  exists new,
    nodes g !! new = None
    /\ lt_rep g u
       = Ok (mkGraph (<[u := retarget n [new; y] (POp BinaryOps.MUL)]>
                      (<[new := mkUOp UOps.ALU (Some dtypes.bool) [x] (POp UnaryOps.NEG)]>
                         (nodes g)))
                     (pre ++ new :: u :: post)%list).
Proof.
  intros Hu Hv Huops Hpre.
  assert (H0 : vin n !! 0%nat = Some x) by (rewrite Hv; reflexivity).
  assert (H1 : vin n !! 1%nat = Some y) by (rewrite Hv; reflexivity).
  unfold lt_rep. rrun. destruct g as [N ups]. cbn [nodes uops] in *. subst ups.
  add_before new Hnew.
  rewrite (run_item _ _ _ H1). rrun.
  exists new. split; [exact Hnew |].
  assert (Hne : u <> new) by congruence.
  unfold set_arg, set_vin, retarget. cbn [nodes uops].
  do 2 f_equal; [map_solve | rewrite <- app_assoc; reflexivity].
Qed.

Lemma negb_andb_table (a b : bool) : negb a && b = true <-> a = false /\ b = true.
Proof. destruct a, b; cbn; intuition congruence. Qed.

(** C3: a CMPLT node [u] over booleans [x] and [y] keeps its place and its
    handle; a node [new = NEG x] is inserted just before it, its operands
    become [new; y] and its operator MUL; the rewrite returns no replacement,
    so the sweep records none.  The PTX backend lowers the two nodes to
    [not.pred t, ra] and [and.pred d, t, rb], which leave [not a and b] in
    the register [d] of [u]: true exactly when [a] is false and [b] true. *)
Theorem lt_rep_is_not_and fm g u n x y nx ny pre post s ra rb :
  let t := reg "alu" "pred" (counter (c s) "alu_pred_") in
  let d := reg "alu" "pred" (counter (c s) "alu_pred_" + 1) in
  nodes g !! u = Some n ->
  uop n = UOps.ALU -> arg n = POp BinaryOps.CMPLT -> dtype n = Some dtypes.bool ->
  vin n = [x; y] ->
  nodes g !! x = Some nx -> dtype nx = Some dtypes.bool ->
  nodes g !! y = Some ny ->
  uops g = (pre ++ u :: post)%list -> u ∉ pre ->
  r s !! x = Some (PStr ra) -> r s !! y = Some (PStr rb) -> rb <> t ->
  exists new g' s1,
    nodes g !! new = None
    /\ g' = mkGraph (<[u := mkUOp UOps.ALU (Some dtypes.bool) [new; y] (POp BinaryOps.MUL)]>
                     (<[new := mkUOp UOps.ALU (Some dtypes.bool) [x] (POp UnaryOps.NEG)]>
                        (nodes g)))
                    (pre ++ new :: u :: post)%list
    /\ rewrite g u = Ok (g', None)
    /\ (forall st, redirect (sw_graph st) u (sw_replace st) = g -> u ∉ sw_seen st ->
          visit st u = Ok (mkSweep g' ({[u]} ∪ sw_seen st) (sw_replace st)))
    /\ lower_uop fm (PTXLanguage fm) g' new s = Ok (tt, s1)
    /\ lower_uop fm (PTXLanguage fm) g' u s1
       = Ok (tt, mkL (kernel s ++ [print_instr ("not.pred", t, [ra]);
                                   print_instr ("and.pred", d, [t; rb])])
                     (bufs s) (bump (c s) "alu_pred_" 2)
                     (<[u := PStr d]> (<[new := PStr t]> (r s)))
                     (c_label s) (r_label s))
    /\ forall a b regs,
         regs !! ra = Some a -> regs !! rb = Some b ->
         exists regs',
           exec regs [("not.pred", t, [ra]); ("and.pred", d, [t; rb])] = Some regs'
           /\ regs' !! d = Some (negb a && b)
           /\ (negb a && b = true <-> a = false /\ b = true).
Proof.
  intros t d Hu Hop Harg Hdt Hv Hx Hdx Hy Huops Hpre Hra Hrb Hfresh.
  destruct (lt_rep_effect g u n x y pre post Hu Hv Huops Hpre) as (new & Hnew & Hlt).
  assert (Hret : retarget n [new; y] (POp BinaryOps.MUL)
                 = mkUOp UOps.ALU (Some dtypes.bool) [new; y] (POp BinaryOps.MUL))
    by (unfold retarget; rewrite Hop, Hdt; reflexivity).
  rewrite Hret in Hlt.
  set (g' := mkGraph _ _) in Hlt.
  assert (Hxn : x <> new) by congruence.
  assert (Hyn : y <> new) by congruence.
  assert (Hun : u <> new) by congruence.
  assert (Hrw : rewrite g u = Ok (g', None)).
  { unfold rewrite. rewrite (run_node g u n Hu), rbind_Ok.
    rewrite (matching_rule_lt g n x y nx Hop Harg Hv Hx Hdx). rewrite Hlt. reflexivity. }
  assert (Hgx : exists n0, nodes g' !! x = Some n0 /\ dtype n0 = Some dtypes.bool).
  { subst g'. cbn [nodes]. destruct (decide (x = u)) as [-> | Hxu].
    - rewrite lookup_insert_eq. eexists. split; reflexivity.
    - rewrite lookup_insert_ne by congruence. rewrite lookup_insert_ne by congruence.
      exists nx. split; assumption. }
  destruct Hgx as (n0 & Hgx & Hd0).
  assert (Hgnew : nodes g' !! new
                  = Some (mkUOp UOps.ALU (Some dtypes.bool) [x] (POp UnaryOps.NEG))).
  { subst g'. cbn [nodes]. rewrite lookup_insert_ne by congruence. apply lookup_insert_eq. }
  assert (Hgu : nodes g' !! u
                = Some (mkUOp UOps.ALU (Some dtypes.bool) [new; y] (POp BinaryOps.MUL))).
  { subst g'. cbn [nodes]. apply lookup_insert_eq. }
  pose (s1 := mkL (kernel s ++ [print_instr ("not.pred", t, [ra])]) (bufs s)
                  (dd_set (c s) "alu_pred_" (counter (c s) "alu_pred_" + 1))
                  (<[new := PStr t]> (r s)) (c_label s) (r_label s)).
  exists new, g', s1.
  split; [exact Hnew |]. split; [reflexivity |]. split; [exact Hrw |].
  split.
  { intros st Hg Hseen. unfold visit. rewrite bool_decide_eq_false_2 by exact Hseen.
    rewrite Hg, Hrw. reflexivity. }
  split.
  { eapply (run_alu_plain fm (PTXLanguage fm) g' new _ (Unary UnaryOps.NEG) x [] n0
              dtypes.bool dtypes.bool [PStr ra] "pred" "pred");
      try eassumption; try reflexivity.
    - left. discriminate.
    - repeat constructor. exact Hra. }
  split.
  { assert (Hc1 : counter (c s1) (ssa_prefix "alu" "pred") = (counter (c s) "alu_pred_" + 1)%Z)
      by (cbn [c s1]; apply counter_set).
    etransitivity.
    { eapply (run_alu_plain fm (PTXLanguage fm) g' u _ (Binary BinaryOps.MUL) new [y]
                (mkUOp UOps.ALU (Some dtypes.bool) [x] (POp UnaryOps.NEG))
                dtypes.bool dtypes.bool [PStr t; PStr rb] "pred" "pred");
        try eassumption; try reflexivity.
      - left. discriminate.
      - cbn [r s1 vin]. repeat constructor.
        + apply lookup_insert_eq.
        + rewrite lookup_insert_ne by congruence. exact Hrb. }
    rewrite Hc1.
    cbn [kernel bufs c r c_label r_label s1]. rewrite <- app_assoc.
    change (ssa_prefix "alu" "pred") with "alu_pred_".
    rewrite dd_set_set. unfold bump.
    replace (counter (c s) "alu_pred_" + 1 + 1)%Z
      with (counter (c s) "alu_pred_" + Z.of_nat 2)%Z by lia.
    reflexivity. }
  intros a b regs Ha Hb.
  exists (<[d := negb a && b]> (<[t := negb a]> regs)).
  split; [| split; [apply lookup_insert_eq | apply negb_andb_table]].
  cbn. rewrite Ha. cbn.
  rewrite lookup_insert_eq. cbn.
  rewrite lookup_insert_ne by congruence. rewrite Hb. reflexivity.
Qed.

Lemma not_in_01 : 2%nat ∉ [0%nat; 1%nat].
Proof. rewrite !not_elem_of_cons. repeat split; try discriminate. apply not_elem_of_nil. Qed.

Lemma lt_rep_is_not_and_witness :
  exists new g',
    nodes (ex_cmp_graph BinaryOps.CMPLT) !! new = None
    /\ rewrite (ex_cmp_graph BinaryOps.CMPLT) 2 = Ok (g', None)
    /\ uops g' = [0%nat; 1%nat; new; 2%nat].
Proof.
  destruct (lt_rep_is_not_and no_floats (ex_cmp_graph BinaryOps.CMPLT) 2%nat
              (mkUOp UOps.ALU (Some dtypes.bool) [0%nat; 1%nat] (POp BinaryOps.CMPLT))
              0%nat 1%nat
              (mkUOp UOps.CONST (Some dtypes.bool) [] (PBool true))
              (mkUOp UOps.CONST (Some dtypes.bool) [] (PBool false))
              [0%nat; 1%nat] [] ex_cmp_state "%const_pred_0" "%const_pred_1"
              eq_refl eq_refl eq_refl eq_refl eq_refl eq_refl eq_refl eq_refl eq_refl
              not_in_01 eq_refl eq_refl ltac:(vm_compute; discriminate))
    as (new & g' & s1 & Hnew & Hg' & Hrw & _).
  exists new, g'. split; [exact Hnew |]. split; [exact Hrw |].
  rewrite Hg'. reflexivity.
Defined.

(** ** What a rewrite leaves alone *)

Lemma extends_refl u g : extends u g g.
Proof. split; auto. Qed.

Lemma extends_trans u g1 g2 g3 : extends u g1 g2 -> extends u g2 g3 -> extends u g1 g3.
Proof. intros [H1 H1u] [H2 H2u]. split; auto. Qed.

Lemma extends_set_vin u g v : extends u g (set_vin g u v).
Proof.
  split.
  - intros h n Hne Hh. cbn. rewrite lookup_alter_ne by congruence. exact Hh.
  - intros [n Hn]. cbn. rewrite lookup_alter_eq, Hn. eexists. reflexivity.
Qed.

Lemma extends_set_arg u g a : extends u g (set_arg g u a).
Proof.
  split.
  - intros h n Hne Hh. cbn. rewrite lookup_alter_ne by congruence. exact Hh.
  - intros [n Hn]. cbn. rewrite lookup_alter_eq, Hn. eexists. reflexivity.
Qed.

Lemma extends_set_dtype u g d : extends u g (set_dtype g u d).
Proof.
  split.
  - intros h n Hne Hh. cbn. rewrite lookup_alter_ne by congruence. exact Hh.
  - intros [n Hn]. cbn. rewrite lookup_alter_eq, Hn. eexists. reflexivity.
Qed.

Lemma extends_add u g op dt v a cb i g' h :
  add g op dt v a cb i = (g', h) ->
  extends u g g' /\ nodes g !! h = None /\ nodes g' !! h = Some (created g op dt v a).
Proof.
  unfold add. intros [= <- <-].
  assert (Hf : nodes g !! fresh (dom (nodes g)) = None)
    by (apply not_elem_of_dom, is_fresh).
  split; [| split; [exact Hf | apply lookup_insert_eq]].
  split.
  - intros h n _ Hh. cbn. rewrite lookup_insert_ne by congruence. exact Hh.
  - intros [n Hn]. cbn. rewrite lookup_insert_ne by congruence. eauto.
Qed.

Ltac unbind :=
  repeat match goal with
  | H : Ok (add ?g ?o ?d ?v ?a ?cb ?i) = Ok _ |- _ =>
      let E := fresh "Eadd" in destruct (add g o d v a cb i) as [? ?] eqn:E
  | H : Ok _ = Ok _ |- _ => injection H as H
  | H : (?m ≫= _) = Ok _ |- _ =>
      let E := fresh "E" in
      destruct m eqn:E; [rewrite rbind_Ok in H | cbn in H; discriminate H]
  | H : (let '(_, _) := add ?g ?o ?d ?v ?a ?cb ?i in _) = Ok _ |- _ =>
      let E := fresh "Eadd" in destruct (add g o d v a cb i) as [? ?] eqn:E
  | H : (let '(_, _) := ?p in _) = Ok _ |- _ => destruct p as [? ?]
  | H : (if ?b then _ else _) = Ok _ |- _ =>
      let E := fresh "Eb" in destruct b eqn:E
  | H : (_, _) = (_, _) |- _ => injection H as ? ?
  end.

Ltac ext_facts u :=
  repeat match goal with
  | H : add _ _ _ _ _ _ _ = (_, _) |- _ =>
      apply (extends_add u) in H; destruct H as (? & ? & ?)
  end.

Ltac ext_chain :=
  match goal with
  | |- extends _ ?g ?g => apply extends_refl
  | |- extends ?u ?g (set_vin ?g1 ?u _) =>
      apply (extends_trans u g g1); [ext_chain | apply extends_set_vin]
  | |- extends ?u ?g (set_arg ?g1 ?u _) =>
      apply (extends_trans u g g1); [ext_chain | apply extends_set_arg]
  | |- extends ?u ?g (set_dtype ?g1 ?u _) =>
      apply (extends_trans u g g1); [ext_chain | apply extends_set_dtype]
  | H : extends ?u ?g1 ?g2 |- extends ?u ?g ?g2 =>
      apply (extends_trans u g g1); [ext_chain | exact H]
  end.

#[local] Opaque add.

Lemma ptr_offset_extends g root u size g' ptr :
  ptr_offset g root u size = Ok (g', ptr) -> extends root g g'.
Proof.
  unfold ptr_offset. intros H. unbind; subst; ext_facts root; ext_chain.
Qed.



Lemma extends_None u g g' h : extends u g g' -> nodes g' !! h = None -> nodes g !! h = None.
Proof.
  intros [Hf Hu] Hh. destruct (nodes g !! h) as [n |] eqn:E; [| reflexivity].
  destruct (decide (h = u)) as [-> | Hne].
  - destruct Hu as [n' Hn']; [eauto | congruence].
  - rewrite (Hf h n Hne E) in Hh. discriminate.
Qed.











#[local] Transparent add.

(** ** Redirection of replaced operands *)

Lemma redirect1_vin u on n :
  redirect1 u on n
  = retarget n ((fun x => let '(o, new) := on in
                          if bool_decide (x = o) && negb (bool_decide (u = new))
                          then new else x) <$> vin n) (arg n).
Proof.
  destruct on as [o new]. unfold redirect1, retarget.
  destruct (bool_decide (u = new)) eqn:Eu; cbn [negb].
  - rewrite andb_false_r.
    replace ((fun x => if bool_decide (x = o) && false then new else x) <$> vin n) with (vin n).
    + destruct n; reflexivity.
    + symmetry. rewrite <- (list_fmap_id (vin n)) at 2. apply list_fmap_ext.
      intros i x _. rewrite andb_false_r. reflexivity.
  - rewrite andb_true_r.
    destruct (bool_decide (o ∈ vin n)) eqn:Eo.
    + f_equal. apply list_fmap_ext. intros i x _.
      rewrite andb_true_r. destruct (decide (x = o)) as [-> | Hne].
      * rewrite bool_decide_eq_true_2 by reflexivity. reflexivity.
      * rewrite bool_decide_eq_false_2 by exact Hne. reflexivity.
    + apply bool_decide_eq_false in Eo.
      replace ((fun x => if bool_decide (x = o) && true then new else x) <$> vin n) with (vin n).
      * destruct n; reflexivity.
      * symmetry. rewrite <- (list_fmap_id (vin n)) at 2. apply list_fmap_ext.
        intros i x Hx. rewrite andb_true_r.
        rewrite bool_decide_eq_false_2; [reflexivity |].
        intros ->. apply Eo. eapply list_elem_of_lookup_2. exact Hx.
Qed.

Lemma redirect_node g u replace n :
  nodes g !! u = Some n ->
  redirect g u replace
  = mkGraph (<[u := retarget n (redirect_operand u replace <$> vin n) (arg n)]> (nodes g))
            (uops g).
Proof.
  revert g n. induction replace as [| on replace IH]; intros g n Hn.
  - cbn. unfold retarget, redirect_operand. cbn.
    rewrite list_fmap_id. destruct g as [N ups]. cbn in *. f_equal.
    rewrite insert_id; [reflexivity |]. rewrite Hn. destruct n; reflexivity.
  - cbn [redirect foldl]. fold (redirect (mkGraph (alter (redirect1 u on) u (nodes g)) (uops g))
                                  u replace).
    erewrite IH; cycle 1.
    { cbn. rewrite lookup_alter_eq, Hn. reflexivity. }
    cbn [nodes uops]. f_equal.
    erewrite alter_alt_Some by exact Hn. rewrite insert_insert_eq.
    f_equal. rewrite redirect1_vin. unfold retarget. cbn [uop dtype vin arg].
    f_equal. rewrite <- list_fmap_compose. apply list_fmap_ext.
    intros i x _. destruct on as [o new]. reflexivity.
Qed.

Lemma redirect_dangling g u replace : nodes g !! u = None -> redirect g u replace = g.
Proof.
  revert g. induction replace as [| on replace IH]; intros g Hn; [reflexivity |].
  cbn [redirect foldl]. fold (redirect (mkGraph (alter (redirect1 u on) u (nodes g)) (uops g))
                                u replace).
  assert (Ha : alter (redirect1 u on) u (nodes g) = nodes g).
  { apply map_eq. intros k. rewrite lookup_alter. case_decide; [subst; rewrite Hn |]; reflexivity. }
  rewrite Ha. destruct g as [N ups]. cbn in *. apply IH. exact Hn.
Qed.




(** ** The sweep's invariant *)








Lemma xorb_negb_table (a b : bool) : negb (xorb a b) = true <-> a = b.
Proof. destruct a, b; cbn; intuition congruence. Qed.



Lemma sweep_reachable g0 fuel : forall i st st',
  reachable g0 st -> sweep fuel i st = Ok st' -> reachable g0 st'.
Proof.
  induction fuel as [| fuel IH]; intros i st st' Hr Hs; [discriminate Hs |].
  cbn [sweep] in Hs. destruct (uops (sw_graph st) !! i) as [u |] eqn:Eu.
  - destruct (visit st u) as [st1 |] eqn:Ev; [| cbn in Hs; discriminate Hs].
    rewrite rbind_Ok in Hs. eapply IH; [| exact Hs].
    eapply reach_visit; [exact Hr | eapply list_elem_of_lookup_2, Eu | exact Ev].
  - injection Hs as <-. exact Hr.
Qed.

(** ** Booleans in memory *)

(** What every case of [ptr_ar] has in common. *)
Lemma ptr_ar_shape g root u b x rest nb nx db pre post :
  nodes g !! root = Some u ->
  vin u = b :: x :: rest ->
  nodes g !! b = Some nb -> dtype nb = Some db ->
  nodes g !! x = Some nx ->
  uops g = (pre ++ root :: post)%list -> root ∉ pre ->
  exists g' p o ins,
    ptr_ar g root = Ok g'
    /\ nodes g' !! root = Some (retarget u (p :: o :: rest) (space_tag nb))
    /\ uops g' = (pre ++ ins ++ root :: post)%list
    /\ (forall h m, h <> root -> nodes g !! h = Some m -> nodes g' !! h = Some m)
    /\ (o = x \/ exists c, nodes g' !! o = Some (mkUOp UOps.CONST (Some dtypes.int) [] (PInt c))).
Proof.
  intros Hu Hv Hb Hdb Hx Huops Hpre.
  assert (H0 : vin u !! 0%nat = Some b) by (rewrite Hv; reflexivity).
  assert (H1 : vin u !! 1%nat = Some x) by (rewrite Hv; reflexivity).
  assert (Hd2 : drop 2 (vin u) = rest) by (rewrite Hv; reflexivity).
  set (u1 := retarget u (vin u) (space_tag nb)).
  set (g1 := mkGraph (<[root := u1]> (nodes g)) (pre ++ root :: post)%list).
  assert (Hstart : ptr_ar g root
                   = ('(g2, ptr) ← ptr_offset g1 root u (itemsize db);
                      ptr_fold g2 root u b ptr)).
  { unfold ptr_ar. rrun. rewrite (set_arg_nodes _ _ _ _ Hu), Huops. reflexivity. }
  assert (Hroot : nodes g1 !! root = Some u1) by apply lookup_insert_eq.
  assert (H01 : extends root g g1).
  { split.
    - intros h m Hne Hh. cbn. rewrite lookup_insert_ne by congruence. exact Hh.
    - intros _. eauto. }
  assert (Hoff : exists g2 ptr P,
             ptr_offset g1 root u (itemsize db) = Ok (g2, ptr)
             /\ uops g2 = (P ++ root :: post)%list /\ (root ∉ P)
             /\ (exists Q, P = pre ++ Q)%list
             /\ nodes g2 !! root = Some u1 /\ is_Some (nodes g2 !! ptr)
             /\ (ptr = x
                 \/ exists np, nodes g2 !! ptr = Some np /\ ptr <> root
                    /\ (uop np = UOps.ALU
                        \/ exists c, np = mkUOp UOps.CONST (Some dtypes.int) [] (PInt c)))).
  { destruct (Z_le_gt_dec (itemsize db) 1) as [Hle | Hgt].
    - exists g1, x, pre. rewrite (ptr_offset_small g1 root u x _ Hle H1).
      repeat split; try assumption; try reflexivity.
      + exists []. rewrite app_nil_r. reflexivity.
      + destruct (node_insert_same_uop (nodes g) root u u1 x nx (uops g1) Hu eq_refl Hx)
          as (np & Hnp & _).
        unfold node in Hnp. cbn [nodes] in Hnp.
        change (nodes g1 !! x) with (<[root := u1]> (nodes g) !! x).
        destruct (<[root := u1]> (nodes g) !! x); [eauto | discriminate Hnp].
      + left. reflexivity.
    - assert (Hx1 : is_Some (nodes g1 !! x)).
      { destruct (node_insert_same_uop (nodes g) root u u1 x nx (uops g1) Hu eq_refl Hx)
          as (np & Hnp & _).
        unfold node in Hnp. cbn [nodes] in Hnp.
        change (nodes g1 !! x) with (<[root := u1]> (nodes g) !! x).
        destruct (<[root := u1]> (nodes g) !! x); [eauto | discriminate Hnp]. }
      destruct (ptr_offset_large (nodes g1) pre root post u x (itemsize db)
                  ltac:(lia) H1 Hpre ltac:(eauto) Hx1)
        as (val & mul & Hval & Hmul & Hvm & Hrun).
      change (mkGraph (nodes g1) (pre ++ root :: post)%list) with g1 in Hrun.
      assert (Hrv : root <> val) by congruence.
      assert (Hrm : root <> mul) by congruence.
      eexists _, mul, ((pre ++ [val]) ++ [mul])%list.
      split; [exact Hrun |]. cbn [nodes uops].
      split; [reflexivity |].
      split; [repeat (apply not_elem_of_snoc; [| congruence]); exact Hpre |].
      split; [exists [val; mul]; rewrite <- app_assoc; reflexivity |].
      split; [rewrite !lookup_insert_ne by congruence; exact Hroot |].
      split; [rewrite lookup_insert_eq; eauto |].
      right. eexists. split; [apply lookup_insert_eq |]. split; [congruence |].
      destruct (const_int g1 x); [right; eexists | left]; reflexivity. }
  destruct Hoff as (g2 & ptr & P & Hoff & Hups2 & HP & [Q HQ] & Hroot2 & [np Hnp] & Hptr).
  pose proof (ptr_offset_extends _ _ _ _ _ _ Hoff) as H12.
  rewrite Hstart, Hoff, rbind_Ok.
  destruct (decide (uop np = UOps.CONST)) as [Hc | Hc].
  - rewrite (ptr_fold_const g2 root u b ptr np Hnp Hc).
    exists (set_vin g2 root (b :: ptr :: drop 2 (vin u))), b, ptr, Q.
    split; [reflexivity |].
    split.
    { rewrite (set_vin_nodes _ _ _ _ Hroot2). cbn [nodes]. rewrite lookup_insert_eq, Hd2.
      reflexivity. }
    split; [cbn [set_vin uops]; rewrite Hups2, HQ, <- app_assoc; reflexivity |].
    split.
    { intros h m Hne Hh.
      apply (proj1 (extends_set_vin root g2 _)); [exact Hne |].
      apply (proj1 H12); [exact Hne |]. apply (proj1 H01); assumption. }
    destruct Hptr as [-> | (np' & Hnp' & Hpr & [Hop' | [c ->]])];
      [left; reflexivity | congruence |].
    right. exists c. cbn [set_vin nodes]. rewrite lookup_alter_ne by congruence. exact Hnp'.
  - destruct g2 as [N2 ups2]. cbn [nodes uops] in *. subst ups2.
    destruct (ptr_fold_var N2 P root post u1 u b ptr np Hnp Hc HP Hroot2)
      as (zero & bptr & fptr & Hnd & Hfr & Hrun).
    eexists _, fptr, zero, (Q ++ [zero; bptr; fptr])%list.
    split; [exact Hrun |]. cbn [nodes uops].
    split; [rewrite lookup_insert_eq, Hd2; reflexivity |].
    split; [rewrite HQ, <- !app_assoc; reflexivity |].
    apply Forall_cons in Hfr as [Hz Hfr]. apply Forall_cons in Hfr as [Hbp Hfr].
    apply Forall_cons in Hfr as [Hfp _].
    split.
    { intros h m Hne Hh.
      assert (Hh2 : N2 !! h = Some m).
      { apply (proj1 H12); [exact Hne |]. apply (proj1 H01); assumption. }
      rewrite !lookup_insert_ne by congruence. exact Hh2. }
    right. exists 0%Z. apply NoDup_cons in Hnd as [Hz1 _].
    assert (zero <> bptr /\ zero <> fptr) as [Hzb Hzf]
      by (split; intros ->; apply Hz1;
          [apply list_elem_of_here | apply list_elem_of_further, list_elem_of_here]).
    rewrite !lookup_insert_ne by congruence. apply lookup_insert_eq.
Qed.

Lemma matching_rule_gate g n :
  uop n = UOps.LOAD -> dtype n = Some dtypes.bool -> length (vin n) = 4%nat ->
  matching_rule g n = Some R_gate.
Proof.
  intros Hop Hdt Hlen. unfold matching_rule. rewrite Hop, Hdt, Hlen. reflexivity.
Qed.

(** The rewrite of a gated boolean load [u] with operands [x; y; z; k]. *)
Lemma gate_rep_effect g u n x y z k nx ny db pre post :
  nodes g !! u = Some n ->
  uop n = UOps.LOAD -> dtype n = Some dtypes.bool -> vin n = [x; y; z; k] ->
  nodes g !! x = Some nx -> dtype nx = Some db -> x <> u ->
  nodes g !! y = Some ny -> y <> u ->
  uops g = (pre ++ u :: post)%list -> u ∉ pre ->
  exists g' kc new p o ins,
    rewrite g u = Ok (g', Some new)
    /\ nodes g !! kc = None /\ nodes g !! new = None /\ kc <> new
    /\ nodes g' !! kc = Some (mkUOp UOps.CAST (Some dtypes.uint8) [k] PNone)
    /\ nodes g' !! u = Some (mkUOp UOps.LOAD (Some dtypes.uint8) [p; o; z; kc] (space_tag nx))
    /\ nodes g' !! new = Some (mkUOp UOps.CAST (Some dtypes.bool) [u] PNone)
    /\ uops g' = (pre ++ kc :: ins ++ u :: new :: post)%list
    /\ (exists no, nodes g' !! o = Some no
                   /\ (no = ny \/ exists c, no = mkUOp UOps.CONST (Some dtypes.int) [] (PInt c))).
Proof.
  intros Hu Hop Hdt Hv Hx Hdx Hxu Hy Hyu Huops Hpre.
  unfold rewrite. rewrite (run_node g u n Hu), rbind_Ok.
  rewrite (matching_rule_gate g n Hop Hdt) by (rewrite Hv; reflexivity).
  rewrite Hv. unfold gate_rep.
  destruct g as [N ups]. cbn [nodes uops] in *. subst ups.
  add_before kc Hkc.
  rewrite (set_vin_nodes _ u _ n) by (cbn; rewrite lookup_insert_ne by congruence; exact Hu).
  cbn [nodes uops]. unfold ld_rep.
  erewrite (set_dtype_nodes _ u) by (cbn; apply lookup_insert_eq).
  cbn [nodes uops]. rewrite insert_insert_eq.
  rewrite index_insert_before by (apply not_elem_of_snoc; [assumption | congruence]).
  rrun.
  match goal with
  | |- context [add ?g ?o ?d ?v ?a ?cb (Some ?i)] =>
      destruct (add_eq g o d v a cb i) as (new & Hnew & ->)
  end.
  cbn [nodes uops] in *. fresh_facts.
  replace (length (pre ++ [kc]) + 1)%nat with (length ((pre ++ [kc]) ++ [u])%list)
    by (rewrite !length_app; reflexivity).
  rewrite (app_snoc_cons (pre ++ [kc]) u post), py_insert_app.
  rewrite <- (app_assoc (pre ++ [kc]) [u] (new :: post)). cbn [app].
  unfold retarget. cbn [uop dtype vin arg]. rewrite Hop.
  set (u1 := mkUOp UOps.LOAD (Some dtypes.uint8) [x; y; z; kc] (arg n)).
  set (N1 := <[new := _]> _).
  assert (Hu1 : N1 !! u = Some u1).
  { subst N1. rewrite lookup_insert_ne by congruence. apply lookup_insert_eq. }
  assert (Hx1 : N1 !! x = Some nx).
  { subst N1. rewrite !lookup_insert_ne by congruence. exact Hx. }
  assert (Hy1 : N1 !! y = Some ny).
  { subst N1. rewrite !lookup_insert_ne by congruence. exact Hy. }
  destruct (ptr_ar_shape (mkGraph N1 ((pre ++ [kc]) ++ u :: new :: post)%list)
              u u1 x y [z; kc] nx ny db (pre ++ [kc])%list (new :: post)
              Hu1 eq_refl Hx1 Hdx Hy1 eq_refl
              ltac:(apply not_elem_of_snoc; [assumption | congruence]))
    as (g' & p & o & ins & Hrun & Hroot & Hups & Hframe & Hoff).
  rewrite Hrun. rrun.
  exists g', kc, new, p, o, ins.
  split; [reflexivity |]. split; [exact Hkc |]. split; [exact Hnew |].
  split; [congruence |].
  split.
  { apply Hframe; [congruence |]. cbn [nodes]. subst N1.
    rewrite !lookup_insert_ne by congruence. apply lookup_insert_eq. }
  split; [exact Hroot |].
  split.
  { apply Hframe; [congruence |]. cbn [nodes]. subst N1. apply lookup_insert_eq. }
  split; [rewrite Hups, <- !app_assoc; reflexivity |].
  destruct Hoff as [-> | [c Hoff]]; [| eexists; split; [exact Hoff | right; eauto]].
  exists ny. split; [| left; reflexivity].
  apply Hframe; [congruence | exact Hy1].
Qed.

Lemma PTX_mem_type_not_pred d : PTX_mem_type d <> Ok "pred".
Proof.
  unfold PTX_mem_type. destruct (itemsize d =? 1)%Z eqn:Esz; [discriminate |].
  case_bool_decide; [discriminate |].
  unfold PTX_types_get, PTX_types. case_bool_decide as Hd; [| discriminate].
  destruct d as [k cnt ptr]. unfold dtypes.scalar_of in Hd. cbn [kind] in *.
  injection Hd as -> ->.
  destruct k; discriminate.
Qed.

(** A gated scalar load of [uint8]. *)
Lemma run_gated_load_u8 fm g h u p o z kc no loc gt alt s :
  let dest := reg "val" "u16" (counter (c s) "val_u16_") in
  nodes g !! h = Some u ->
  uop u = UOps.LOAD -> dtype u = Some dtypes.uint8 -> vin u = [p; o; z; kc] ->
  nodes g !! o = Some no -> is_Some (dtype no) ->
  z <> h -> kc <> h ->
  r s !! p = Some loc -> r s !! z = Some (PStr gt) -> gt <> "" -> r s !! kc = Some alt ->
  lower_uop fm (PTXLanguage fm) g h s
  = Ok (tt, mkL (kernel s ++
                   [join nl
                      ["@" +:+ gt +:+ " ld" +:+ pystr fm (arg u) +:+ ".s8 " +:+ dest
                         +:+ ", [" +:+ pystr fm loc +:+ "+" +:+ pystr fm (arg no) +:+ "];";
                       "@!" +:+ gt +:+ " mov.b16 " +:+ dest +:+ ", " +:+ pystr fm alt +:+ ";"]])
                (bufs s) (dd_set (c s) "val_u16_" (counter (c s) "val_u16_" + 1))
                (<[h := PStr dest]> (r s)) (c_label s) (r_label s)).
Proof.
  intros dest Hu Hop Hdt Hv Ho [dno Hdno] Hzh Hkh Hp Hz Hgt Hkc.
  assert (H0 : vin u !! 0%nat = Some p) by (rewrite Hv; reflexivity).
  assert (H1 : vin u !! 1%nat = Some o) by (rewrite Hv; reflexivity).
  assert (H2 : vin u !! 2%nat = Some z) by (rewrite Hv; reflexivity).
  assert (H3 : vin u !! 3%nat = Some kc) by (rewrite Hv; reflexivity).
  assert (Hne : nonempty gt = true).
  { unfold nonempty. destruct (String.eqb_spec gt ""); [contradiction | reflexivity]. }
  unfold lower_uop. mrun. rewrite Hop. unfold lower_typed. rewrite Hdt, Hop. mrun.
  cbn [count dtypes.uint8 dtypes.scalar_of Nat.ltb Nat.leb].
  mrun.
  erewrite bind_run
    by (eapply (run_ssa_node (PTXLanguage fm) g h u dtypes.uint8 "u16");
        [exact Hu | exact Hdt | reflexivity]).
  unfold opt_r. rewrite Hv. cbn [length Nat.ltb Nat.leb].
  erewrite bind_run; cycle 1.
  { erewrite bind_run by (apply run_lift, run_item; reflexivity).
    apply run_get_r. cbn [r]. rewrite lookup_insert_ne by congruence. exact Hz. }
  erewrite bind_run; cycle 1.
  { erewrite bind_run by (apply run_lift, run_item; reflexivity).
    apply run_get_r. cbn [r]. rewrite lookup_insert_ne by congruence. exact Hkc. }
  mrun.
  erewrite bind_run; cycle 1.
  { apply run_lift. cbn [render_load PTXLanguage]. unfold PTX_render_load.
    change (py_assert _ _) with (Ok tt). rewrite rbind_Ok.
    cbn [truthy]. unfold nonempty in Hne. rewrite Hne. reflexivity. }
  rewrite run_kk. reflexivity.
Qed.

(** The cast of a [uint8] value to [bool]. *)
Lemma run_cast_u8_to_bool fm g h u a na ra s :
  let d := reg "cast" "pred" (counter (c s) "cast_pred_") in
  nodes g !! h = Some u ->
  uop u = UOps.CAST -> dtype u = Some dtypes.bool -> vin u = [a] ->
  nodes g !! a = Some na -> dtype na = Some dtypes.uint8 ->
  r s !! a = Some ra ->
  lower_uop fm (PTXLanguage fm) g h s
  = Ok (tt, mkL (kernel s ++ ["setp.ne.b16 " +:+ d +:+ ", " +:+ pystr fm ra +:+ ", 0U;"])
                (bufs s) (dd_set (c s) "cast_pred_" (counter (c s) "cast_pred_" + 1))
                (<[h := PStr d]> (r s)) (c_label s) (r_label s)).
Proof.
  intros d Hu Hop Hdt Hv Ha Hda Hra.
  assert (H0 : vin u !! 0%nat = Some a) by (rewrite Hv; reflexivity).
  unfold lower_uop. mrun. rewrite Hop. unfold lower_typed. rewrite Hdt, Hop. mrun.
  cbn [count dtypes.bool dtypes.scalar_of Nat.ltb Nat.leb].
  erewrite bind_run by (apply run_get_r; exact Hra).
  unfold cast.
  rewrite bool_decide_eq_false_2 by discriminate.
  erewrite bind_run; cycle 1.
  { erewrite bind_run by (apply run_ty_of; reflexivity).
    erewrite bind_run by (apply run_ssa; reflexivity).
    erewrite bind_run by (apply run_lift; reflexivity).
    erewrite bind_run by apply run_kk.
    apply run_ret. }
  reflexivity.
Qed.

(** The store of a [bool] value, with or without a gate. *)
Lemma run_store_bool fm g h u p o v gs np no nv loc val gate s :
  nodes g !! h = Some u ->
  uop u = UOps.STORE -> vin u = p :: o :: v :: gs ->
  nodes g !! p = Some np -> is_Some (dtype np) ->
  nodes g !! o = Some no -> is_Some (dtype no) ->
  nodes g !! v = Some nv -> dtype nv = Some dtypes.bool ->
  r s !! p = Some loc -> r s !! v = Some val ->
  (gs = [] /\ gate = PNone) \/ (exists gh, gs = [gh] /\ r s !! gh = Some gate) ->
  lower_uop fm (PTXLanguage fm) g h s
  = Ok (tt, mkL (kernel s ++
                   [join nl
                      [".reg .s16 " +:+ pystr fm val +:+ "_cast;";
                       "selp.b16 " +:+ (pystr fm val +:+ "_cast") +:+ ", 1, 0, "
                         +:+ pystr fm val +:+ ";";
                       (if truthy gate then "@" +:+ pystr fm gate +:+ " " else "")
                         +:+ "st" +:+ pystr fm (arg u) +:+ ".s8 [" +:+ pystr fm loc +:+ "+"
                         +:+ pystr fm (arg no) +:+ "], " +:+ pystr fm val +:+ "_cast;"]])
                (bufs s) (c s) (r s) (c_label s) (r_label s)).
Proof.
  intros Hu Hop Hv Hp [dp Hdp] Ho [dno Hdno] Hnv Hdv Hloc Hval Hgate.
  assert (H0 : vin u !! 0%nat = Some p) by (rewrite Hv; reflexivity).
  assert (H1 : vin u !! 1%nat = Some o) by (rewrite Hv; reflexivity).
  assert (H2 : vin u !! 2%nat = Some v) by (rewrite Hv; reflexivity).
  unfold lower_uop. mrun. rewrite Hop. mrun.
  cbn [count dtypes.bool dtypes.scalar_of Nat.ltb Nat.leb].
  mrun.
  assert (Hg : opt_r (vin u) 3 s = Ok (gate, s)).
  { unfold opt_r. rewrite Hv. destruct Hgate as [[-> ->] | (gh & -> & Hgh)].
    - reflexivity.
    - cbn [length Nat.ltb Nat.leb].
      erewrite bind_run by (apply run_lift, run_item; reflexivity).
      apply run_get_r, Hgh. }
  erewrite bind_run by exact Hg.
  erewrite bind_run by (eapply run_arg_of; exact Ho).
  erewrite bind_run by (apply run_lift; reflexivity).
  rewrite run_kk. reflexivity.
Qed.

Lemma dd_get_set_ne d k k' v : k <> k' -> dd_get (dd_set d k v) k' = dd_get d k'.
Proof.
  intros Hne. induction d as [| [k0 v0] d IH]; cbn.
  - destruct (String.eqb_spec k k'); [contradiction | reflexivity].
  - destruct (String.eqb_spec k0 k) as [-> | Hk]; cbn.
    + destruct (String.eqb_spec k k'); [contradiction | reflexivity].
    + destruct (String.eqb_spec k0 k'); [reflexivity | exact IH].
Qed.

Lemma counter_set_ne d k k' v : k <> k' -> counter (dd_set d k v) k' = counter d k'.
Proof. intros Hne. unfold counter. rewrite dd_get_set_ne by exact Hne. reflexivity. Qed.

(** C2 (amended): no memory instruction of the PTX backend has the
    predicate type, and [render_load] refuses a [bool] load.  A gated [bool]
    load [u] with operands [x; y; z; k] (base, index, gate, default) is
    rewritten to a [uint8] load whose default is the new node
    [kc = CAST uint8 k], followed by the new node [new = CAST bool u]; the
    two lower to an 8-bit load [ld.s8] into a 16-bit register under the gate,
    a [mov.b16] of the default under the negated gate, and
    [setp.ne.b16 d, dest, 0U].  A store of a [bool] value declares a 16-bit
    register, fills it with [selp.b16] from the predicate, and writes it with
    the 8-bit store [st.s8]. *)
Theorem bool_memory_is_int8 fm :
  (forall d, PTX_mem_type d <> Ok "pred")
  /\ PTX_mem_type dtypes.bool = Ok "s8"
  /\ (forall loc dest gate alt ss off,
        PTX_render_load fm loc dest dtypes.bool gate alt ss off = Raise (AssertionError ""))
  /\ (forall g u n x y z k nx ny db pre post,
        nodes g !! u = Some n ->
        uop n = UOps.LOAD -> dtype n = Some dtypes.bool -> vin n = [x; y; z; k] ->
        nodes g !! x = Some nx -> dtype nx = Some db -> x <> u ->
        nodes g !! y = Some ny -> is_Some (dtype ny) -> y <> u ->
        z <> u ->
        uops g = (pre ++ u :: post)%list -> u ∉ pre ->
        exists g' kc new p o no ins,
          rewrite g u = Ok (g', Some new)
          /\ nodes g !! kc = None /\ nodes g !! new = None /\ kc <> new
          /\ nodes g' !! kc = Some (mkUOp UOps.CAST (Some dtypes.uint8) [k] PNone)
          /\ nodes g' !! u
             = Some (mkUOp UOps.LOAD (Some dtypes.uint8) [p; o; z; kc] (space_tag nx))
          /\ nodes g' !! new = Some (mkUOp UOps.CAST (Some dtypes.bool) [u] PNone)
          /\ uops g' = (pre ++ kc :: ins ++ u :: new :: post)%list
          /\ nodes g' !! o = Some no
          /\ forall s loc gt alt,
               r s !! p = Some loc -> r s !! z = Some (PStr gt) -> gt <> "" ->
               r s !! kc = Some alt ->
               let dest := reg "val" "u16" (counter (c s) "val_u16_") in
               let d := reg "cast" "pred" (counter (c s) "cast_pred_") in
               exists s1,
                 lower_uop fm (PTXLanguage fm) g' u s = Ok (tt, s1)
                 /\ lower_uop fm (PTXLanguage fm) g' new s1
                    = Ok (tt, mkL (kernel s ++
                                     [join nl
                                        ["@" +:+ gt +:+ " ld" +:+ pystr fm (space_tag nx)
                                           +:+ ".s8 " +:+ dest +:+ ", [" +:+ pystr fm loc
                                           +:+ "+" +:+ pystr fm (arg no) +:+ "];";
                                         "@!" +:+ gt +:+ " mov.b16 " +:+ dest +:+ ", "
                                           +:+ pystr fm alt +:+ ";"];
                                      "setp.ne.b16 " +:+ d +:+ ", " +:+ dest +:+ ", 0U;"])
                                  (bufs s)
                                  (dd_set (dd_set (c s) "val_u16_"
                                             (counter (c s) "val_u16_" + 1))
                                          "cast_pred_" (counter (c s) "cast_pred_" + 1))
                                  (<[new := PStr d]> (<[u := PStr dest]> (r s)))
                                  (c_label s) (r_label s)))
  /\ (forall g h u p o v gs np no nv loc val gate s,
        nodes g !! h = Some u ->
        uop u = UOps.STORE -> vin u = p :: o :: v :: gs ->
        nodes g !! p = Some np -> is_Some (dtype np) ->
        nodes g !! o = Some no -> is_Some (dtype no) ->
        nodes g !! v = Some nv -> dtype nv = Some dtypes.bool ->
        r s !! p = Some loc -> r s !! v = Some val ->
        (gs = [] /\ gate = PNone) \/ (exists gh, gs = [gh] /\ r s !! gh = Some gate) ->
        lower_uop fm (PTXLanguage fm) g h s
        = Ok (tt, mkL (kernel s ++
                         [join nl
                            [".reg .s16 " +:+ pystr fm val +:+ "_cast;";
                             "selp.b16 " +:+ (pystr fm val +:+ "_cast") +:+ ", 1, 0, "
                               +:+ pystr fm val +:+ ";";
                             (if truthy gate then "@" +:+ pystr fm gate +:+ " " else "")
                               +:+ "st" +:+ pystr fm (arg u) +:+ ".s8 [" +:+ pystr fm loc
                               +:+ "+" +:+ pystr fm (arg no) +:+ "], " +:+ pystr fm val
                               +:+ "_cast;"]])
                      (bufs s) (c s) (r s) (c_label s) (r_label s))).
Proof.
  split; [apply PTX_mem_type_not_pred |].
  split; [reflexivity |].
  split; [reflexivity |].
  split.
  - intros g u n x y z k nx ny db pre post Hu Hop Hdt Hv Hx Hdx Hxu Hy Hdy Hyu Hzu Huops Hpre.
    destruct (gate_rep_effect g u n x y z k nx ny db pre post
                Hu Hop Hdt Hv Hx Hdx Hxu Hy Hyu Huops Hpre)
      as (g' & kc & new & p & o & ins & Hrw & Hkc & Hnew & Hne & Hkc' & Hu' & Hnew' & Hups
          & no & Ho & Hno).
    exists g', kc, new, p, o, no, ins.
    do 9 (split; [assumption |]).
    intros s loc gt alt Hloc Hgt Hgt0 Halt dest d.
    assert (Hdno : is_Some (dtype no)) by (destruct Hno as [-> | [c ->]]; [exact Hdy | eauto]).
    eexists. split.
    + apply (run_gated_load_u8 fm g' u _ p o z kc no loc gt alt s Hu');
        try reflexivity; try assumption.
      congruence.
    + etransitivity.
      { eapply (run_cast_u8_to_bool fm g' new _ u _ (PStr dest)); try eassumption;
          try reflexivity.
        cbn [r]. apply lookup_insert_eq. }
      cbn [kernel bufs c r c_label r_label].
      rewrite counter_set_ne by discriminate.
      rewrite <- app_assoc. reflexivity.
  - intros g h u p o v gs np no nv loc val gate s.
    apply run_store_bool.
Qed.

Lemma not_in_0123 : 4%nat ∉ [0%nat; 1%nat; 2%nat; 3%nat].
Proof. rewrite !not_elem_of_cons. repeat split; try discriminate. apply not_elem_of_nil. Qed.

Lemma bool_memory_is_int8_witness :
  (exists g' new, rewrite ex_bool_load_graph 4 = Ok (g', Some new)
                  /\ nodes g' !! new = Some (mkUOp UOps.CAST (Some dtypes.bool) [4%nat] PNone))
  /\ lower_uop no_floats (PTXLanguage no_floats) ex_bool_store_rewritten 3 ex_bool_store_state
     = Ok (tt, mkL [join nl [".reg .s16 %const_pred_0_cast;";
                             "selp.b16 %const_pred_0_cast, 1, 0, %const_pred_0;";
                             "st.global.s8 [%dat_u64_0+3], %const_pred_0_cast;"]]
                   [] [] (r ex_bool_store_state) [] ∅).
Proof.
  split.
  - destruct (proj1 (proj2 (proj2 (proj2 (bool_memory_is_int8 no_floats))))
                ex_bool_load_graph 4%nat
                (mkUOp UOps.LOAD (Some dtypes.bool) [0%nat; 1%nat; 2%nat; 3%nat] PNone)
                0%nat 1%nat 2%nat 3%nat
                (mkUOp UOps.DEFINE_GLOBAL (Some (PtrDType dtypes.bool)) []
                   (PTuple [PInt 0; PStr "data0"]))
                (mkUOp UOps.CONST (Some dtypes.int) [] (PInt 3))
                (PtrDType dtypes.bool) [0%nat; 1%nat; 2%nat; 3%nat] []
                eq_refl eq_refl eq_refl eq_refl eq_refl eq_refl
                ltac:(discriminate) eq_refl ltac:(eexists; reflexivity)
                ltac:(discriminate) ltac:(discriminate) eq_refl not_in_0123)
      as (g' & kc & new & p & o & no & ins & Hrw & _ & _ & _ & _ & _ & Hnew & _).
    exists g', new. split; assumption.
  - apply (proj2 (proj2 (proj2 (proj2 (bool_memory_is_int8 no_floats))))
             ex_bool_store_rewritten 3%nat
             (mkUOp UOps.STORE None [0%nat; 1%nat; 2%nat] (PStr ".global"))
             0%nat 1%nat 2%nat []
             (mkUOp UOps.DEFINE_GLOBAL (Some (PtrDType dtypes.bool)) []
                (PTuple [PInt 0; PStr "data0"]))
             (mkUOp UOps.CONST (Some dtypes.int) [] (PInt 3))
             (mkUOp UOps.CONST (Some dtypes.bool) [] (PBool true))
             (PStr "%dat_u64_0") (PStr "%const_pred_0") PNone ex_bool_store_state);
      try reflexivity; try (eexists; reflexivity).
    left. split; reflexivity.
Defined.

(** The store of a [bool] is the 8-bit [st.global.s8]; a 16-bit integer is
    stored with [st.global.s16]. *)
Lemma bool_store_is_8_bit :
  kernel_lines no_floats (PTXLanguage no_floats) ex_bool_store_graph
  = Ok ["ld.param.u64 %dat_u64_0, [data0+0];";
        "mov.b32 %const_s32_0, 3;";
        "setp.ne.s16 %const_pred_0, 1, 0;";
        join nl [".reg .s16 %const_pred_0_cast;";
                 "selp.b16 %const_pred_0_cast, 1, 0, %const_pred_0;";
                 "st.global.s8 [%dat_u64_0+3], %const_pred_0_cast;"]]
  /\ PTX_render_store no_floats (PStr "%dat_u64_0") (PStr "%v") dtypes.int16 PNone
       (PStr ".global") (PInt 3)
     = Ok ["st.global.s16 [%dat_u64_0+3], %v;"]
  /\ PTX_mem_type dtypes.bool <> PTX_mem_type dtypes.int16.
Proof. split; [| split]; vm_compute; [reflexivity | reflexivity | discriminate]. Qed.

(** ** Lowering twice *)






(** * Further properties of the lowering *)

(** ** Nodes without a lowering *)

(** A node that reaches the typed part of the dispatch without a type raises
    the assertion of line 154, whatever its opcode; a typed node whose opcode
    no case handles raises "no code for". *)
Theorem unlowerable_node_raises fm lang g h u s :
  nodes g !! h = Some u ->
  uop u ∉ [UOps.IF_; UOps.ENDLOOP; UOps.ENDIF; UOps.STORE] ->
  (uop u = UOps.BARRIER -> barrier lang = "") ->
  (dtype u = None ->
   lower_uop fm lang g h s
   = Raise (AssertionError ("None dtype for uop UOps." +:+ UOps.name (uop u))))
  /\ (forall nm, uop u = UOps.OTHER nm -> is_Some (dtype u) ->
      lower_uop fm lang g h s = Raise (NotImplementedError ("no code for UOps." +:+ nm))).
Proof.
  intros Hu Hnot Hbar.
  rewrite !not_elem_of_cons in Hnot. destruct Hnot as (Hif & Hel & Hei & Hst & _).
  assert (Hlow : lower_uop fm lang g h s = lower_typed fm lang g h u s).
  { unfold lower_uop. mrun.
    destruct (uop u) eqn:E; try reflexivity; try contradiction.
    rewrite (Hbar eq_refl). reflexivity. }
  rewrite Hlow. split.
  - intros Hdt. unfold lower_typed. rewrite Hdt. reflexivity.
  - intros nm Hop [dt Hdt]. unfold lower_typed. rewrite Hdt, Hop. reflexivity.
Qed.

Lemma unlowerable_node_raises_witness :
  lower_uop no_floats (PTXLanguage no_floats) ex_untyped_graph 0 LState_init
  = Raise (AssertionError "None dtype for uop UOps.CONST").
Proof.
  apply (proj1 (unlowerable_node_raises no_floats (PTXLanguage no_floats) ex_untyped_graph 0
                  (mkUOp UOps.CONST None [] (PInt 1)) LState_init eq_refl
                  ltac:(rewrite !not_elem_of_cons; repeat split; try discriminate;
                        apply not_elem_of_nil)
                  ltac:(discriminate))).
  reflexivity.
Defined.

(** ** GEP *)

Lemma py_getitem_nonneg {A} (l : list A) (k : Z) :
  (0 <= k < Z.of_nat (length l))%Z ->
  exists x, l !! Z.to_nat k = Some x /\ py_getitem l k = Ok x.
Proof.
  intros Hk. unfold py_getitem. cbv zeta.
  replace (k <? 0)%Z with false by (symmetry; apply Z.ltb_ge; lia).
  replace ((k <? 0) || (Z.of_nat (length l) <=? k))%Z with false
    by (symmetry; apply orb_false_iff; split; [apply Z.ltb_ge | apply Z.leb_gt]; lia).
  destruct (l !! Z.to_nat k) as [x |] eqn:E; [eauto |].
  apply lookup_ge_None in E. lia.
Qed.

Lemma py_getitem_neg {A} (l : list A) (k : Z) :
  (- Z.of_nat (length l) <= k < 0)%Z ->
  exists x, l !! Z.to_nat (k + Z.of_nat (length l)) = Some x /\ py_getitem l k = Ok x.
Proof.
  intros Hk. unfold py_getitem. cbv zeta.
  replace (k <? 0)%Z with true by (symmetry; apply Z.ltb_lt; lia).
  replace ((k + Z.of_nat (length l) <? 0) || (Z.of_nat (length l) <=? k + Z.of_nat (length l)))%Z
    with false
    by (symmetry; apply orb_false_iff; split; [apply Z.ltb_ge | apply Z.leb_gt]; lia).
  destruct (l !! Z.to_nat (k + Z.of_nat (length l))) as [x |] eqn:E; [eauto |].
  apply lookup_ge_None in E. lia.
Qed.

Lemma py_getitem_out {A} (l : list A) (k : Z) :
  (k < - Z.of_nat (length l) \/ Z.of_nat (length l) <= k)%Z ->
  py_getitem l k = Raise IndexError.
Proof.
  intros Hk. unfold py_getitem. cbv zeta.
  destruct (k <? 0)%Z eqn:E.
  - apply Z.ltb_lt in E.
    replace ((k + Z.of_nat (length l) <? 0) || (Z.of_nat (length l) <=? k + Z.of_nat (length l)))%Z
      with true; [reflexivity |].
    symmetry. apply orb_true_iff. left. apply Z.ltb_lt. lia.
  - apply Z.ltb_ge in E.
    replace ((k <? 0) || (Z.of_nat (length l) <=? k))%Z with true; [reflexivity |].
    symmetry. apply orb_true_iff. right. apply Z.leb_le. lia.
Qed.

(** A GEP node with payload [k] over a node bound to the registers [lanes]
    is bound to the register at position [k], counted from the end when [k]
    is negative, and emits nothing; a position outside the list raises
    [IndexError]. *)
Theorem gep_selects_lane fm lang g h u dt v0 vs lanes k s :
  nodes g !! h = Some u ->
  uop u = UOps.GEP -> dtype u = Some dt ->
  vin u = v0 :: vs -> arg u = PInt k ->
  r s !! v0 = Some (PList lanes) ->
  let n := Z.of_nat (length lanes) in
  let bound x := Ok (tt, mkL (kernel s) (bufs s) (c s) (<[h := x]> (r s))
                         (c_label s) (r_label s)) in
  ((0 <= k < n)%Z ->
   exists x, lanes !! Z.to_nat k = Some x /\ lower_uop fm lang g h s = bound x)
  /\ ((- n <= k < 0)%Z ->
      exists x, lanes !! Z.to_nat (k + n) = Some x /\ lower_uop fm lang g h s = bound x)
  /\ ((k < - n \/ n <= k)%Z -> lower_uop fm lang g h s = Raise IndexError).
Proof.
  intros Hu Hop Hdt Hv Harg Hr n bound.
  assert (H0 : vin u !! 0%nat = Some v0) by (rewrite Hv; reflexivity).
  assert (Hlow : lower_uop fm lang g h s
                 = (x ← lift (py_getitem lanes k); set_r h x) s).
  { unfold lower_uop. mrun. rewrite Hop. unfold lower_typed. rewrite Hdt, Hop. mrun.
    rewrite Harg. reflexivity. }
  rewrite Hlow. split; [| split]; intros Hk.
  - destruct (py_getitem_nonneg lanes k Hk) as (x & Hx & Hget).
    exists x. split; [exact Hx |]. erewrite bind_run by (apply run_lift, Hget). reflexivity.
  - destruct (py_getitem_neg lanes k Hk) as (x & Hx & Hget).
    exists x. split; [exact Hx |]. erewrite bind_run by (apply run_lift, Hget). reflexivity.
  - apply bind_raise. rewrite (py_getitem_out lanes k Hk). reflexivity.
Qed.

Lemma gep_selects_lane_witness :
  lower_uop no_floats (PTXLanguage no_floats) ex_gep_graph 1
    (ex_state [(0%nat, PList [PStr "%const_s32_0"; PStr "%const_s32_1"])])
  = Ok (tt, mkL [] [] []
              (<[1%nat := PStr "%const_s32_1"]>
                 (list_to_map [(0%nat, PList [PStr "%const_s32_0"; PStr "%const_s32_1"])]))
              [] ∅).
Proof.
  destruct (proj1 (gep_selects_lane no_floats (PTXLanguage no_floats) ex_gep_graph 1
                     (mkUOp UOps.GEP (Some dtypes.int32) [0%nat] (PInt 1)) dtypes.int32
                     0%nat [] [PStr "%const_s32_0"; PStr "%const_s32_1"] 1
                     (ex_state [(0%nat, PList [PStr "%const_s32_0"; PStr "%const_s32_1"])])
                     eq_refl eq_refl eq_refl eq_refl eq_refl eq_refl)
              ltac:(cbn; lia))
    as (x & Hx & Hrun).
  injection Hx as <-. exact Hrun.
Defined.

(** ** SPECIAL *)

(** A SPECIAL node with payload [(i, name, ...)] raises "idx not supported"
    when [name] starts with [i].  Otherwise it reads entry [i] of [gid] when
    [name] starts with [g] and of [lid] for any other first letter, moves it
    into the register [%name], binds the node to that register, and puts the
    declaration of the register in front of everything emitted so far; an
    index outside the table raises [IndexError]. *)
Theorem special_reads_index_register fm lang g h u dt i ch name rest s :
  nodes g !! h = Some u ->
  uop u = UOps.SPECIAL -> dtype u = Some dt ->
  arg u = PTuple (PInt i :: PStr (String ch name) :: rest) ->
  let nm := String ch name in
  let table := if Ascii.eqb ch "g" then gid lang else lid lang in
  (ch = "i"%char ->
   lower_uop fm lang g h s = Raise (AssertionError "idx not supported"))
  /\ (ch <> "i"%char -> forall ax, py_getitem table i = Ok ax ->
      lower_uop fm lang g h s
      = Ok (tt, mkL ((".reg .u32 %" +:+ nm +:+ ";")
                       :: kernel s ++ ["mov.u32 %" +:+ nm +:+ ", " +:+ ax +:+ ";"])
                    (bufs s) (c s) (<[h := PStr ("%" +:+ nm)]> (r s))
                    (c_label s) (r_label s)))
  /\ (ch <> "i"%char -> (i < - Z.of_nat (length table) \/ Z.of_nat (length table) <= i)%Z ->
      lower_uop fm lang g h s = Raise IndexError).
Proof.
  intros Hu Hop Hdt Harg nm table.
  assert (H1 : subscript (arg u) (PInt 1) = Ok (PStr nm))
    by (rewrite Harg; apply py_getitem_1).
  assert (H0 : subscript (arg u) (PInt 0) = Ok (PInt i))
    by (rewrite Harg; apply py_getitem_0).
  assert (Hc : subscript (PStr nm) (PInt 0) = Ok (PStr (String ch ""))).
  { unfold subscript, nm. cbn [chars]. rewrite py_getitem_0. reflexivity. }
  assert (Hi : forall c', str_is (PStr (String ch "")) (String c' "") = Ascii.eqb ch c').
  { intros c'. cbn. destruct (Ascii.eqb ch c'); reflexivity. }
  assert (Hlow : lower_uop fm lang g h s
                 = (_ ← lift (py_assert (negb (Ascii.eqb ch "i")) "idx not supported");
                    ax ← lift (py_getitem table i);
                    _ ← kk ["mov.u32 %" +:+ nm +:+ ", " +:+ ax +:+ ";"];
                    _ ← set_r h (PStr ("%" +:+ nm));
                    prepend_kernel (".reg .u32 %" +:+ nm +:+ ";")) s).
  { unfold lower_uop. mrun. rewrite Hop. unfold lower_typed. rewrite Hdt, Hop. mrun.
    rewrite (Hi "i"%char).
    destruct (py_assert (negb (Ascii.eqb ch "i")) "idx not supported") as [[] | e] eqn:Ea;
      [| reflexivity].
    erewrite !(bind_run (lift (Ok ()))) by reflexivity.
    mrun. rewrite (Hi "g"%char). fold table.
    destruct (py_getitem table i) as [ax | e] eqn:Eg; [| reflexivity].
    erewrite !(bind_run (lift (Ok ax))) by reflexivity.
    reflexivity. }
  rewrite Hlow. split; [| split].
  - intros ->. reflexivity.
  - intros Hne ax Hax.
    replace (Ascii.eqb ch "i") with false
      by (symmetry; apply Ascii.eqb_neq; exact Hne).
    rewrite Hax. reflexivity.
  - intros Hne Hout.
    replace (Ascii.eqb ch "i") with false
      by (symmetry; apply Ascii.eqb_neq; exact Hne).
    rewrite (py_getitem_out table i Hout). reflexivity.
Qed.

Lemma special_reads_index_register_witness :
  lower_uop no_floats (PTXLanguage no_floats) ex_special_graph 0 LState_init
  = Ok (tt, mkL [".reg .u32 %lidx1;"; "mov.u32 %lidx1, %tid.y;"] [] []
              (<[0%nat := PStr "%lidx1"]> ∅) [] ∅).
Proof.
  exact (proj1 (proj2 (special_reads_index_register no_floats (PTXLanguage no_floats)
                         ex_special_graph 0
                         (mkUOp UOps.SPECIAL (Some dtypes.int32) []
                            (PTuple [PInt 1; PStr "lidx1"; PInt 8]))
                         dtypes.int32 1 "l"%char "idx1" [PInt 8] LState_init
                         eq_refl eq_refl eq_refl eq_refl))
           ltac:(discriminate) "%tid.y" eq_refl).
Defined.

(** ** Loops and branches *)

Lemma run_ssa_label lang u prefix s :
  ssa_label lang u prefix s
  = Ok (label lang prefix (counter (c_label s) prefix),
        mkL (kernel s) (bufs s) (c s) (r s)
            (dd_set (c_label s) prefix (counter (c_label s) prefix + 1))
            (<[u := label lang prefix (counter (c_label s) prefix)]> (r_label s))).
Proof.
  unfold ssa_label, incr_c_label, label, counter, mbind, M_bind, dd_incr. cbn.
  rewrite Z.add_simpl_r. reflexivity.
Qed.

Lemma run_get_label h lb s : r_label s !! h = Some lb -> get_label h s = Ok (lb, s).
Proof. unfold get_label, key. intros ->. reflexivity. Qed.

Ltac mstep :=
  first [ erewrite bind_run by (unfold operand; eauto with run)
        | erewrite bind_run by apply run_ssa_label
        | erewrite bind_run by (apply run_ssa; reflexivity)
        | erewrite bind_run by (apply run_get_label; eassumption) ].
Ltac mruns := repeat mstep.

(** A LOOP node [h] over [start; bound] gets a fresh [ridx] register and a
    fresh label [$loop_m]; it emits the move of the start value and the label.
    In any later state that still holds the register and the label of [h], the
    ENDLOOP of [h] increments that register, compares it with the register of
    [bound] into a fresh predicate, branches back to the label the LOOP
    emitted when the predicate holds, and to the label [$loop_m_exit], which
    it emits last, when it does not. *)
Theorem endloop_branches_to_loop_label fm g h e uh ue dt ty a b bs es ra s :
  let lang := PTXLanguage fm in
  let idx := reg "ridx" ty (counter (c s) (ssa_prefix "ridx" ty)) in
  let lb := label lang "loop" (counter (c_label s) "loop") in
  nodes g !! h = Some uh ->
  uop uh = UOps.LOOP -> dtype uh = Some dt -> PTX_types dt = Some ty ->
  vin uh = a :: b :: bs -> a <> h ->
  nodes g !! e = Some ue -> uop ue = UOps.ENDLOOP -> vin ue = h :: es ->
  r s !! a = Some ra ->
  lower_uop fm lang g h s
  = Ok (tt, mkL (kernel s ++ [join nl ["mov.u32 " +:+ idx +:+ ", " +:+ pystr fm ra +:+ ";";
                                       lb +:+ ":"]])
                (bufs s)
                (dd_set (c s) (ssa_prefix "ridx" ty) (counter (c s) (ssa_prefix "ridx" ty) + 1))
                (<[h := PStr idx]> (r s))
                (dd_set (c_label s) "loop" (counter (c_label s) "loop" + 1))
                (<[h := lb]> (r_label s)))
  /\ forall s2 rb,
       r s2 !! h = Some (PStr idx) -> r_label s2 !! h = Some lb -> r s2 !! b = Some rb ->
       let p := reg "pred" "pred" (counter (c s2) "pred_pred_") in
       lower_uop fm lang g e s2
       = Ok (tt, mkL (kernel s2 ++
                        [join nl ["add.s32 " +:+ idx +:+ ", " +:+ idx +:+ ", 1;";
                                  "setp.lt.s32 " +:+ p +:+ ", " +:+ idx +:+ ", "
                                    +:+ pystr fm rb +:+ ";"];
                         join nl ["@" +:+ p +:+ " bra " +:+ lb +:+ ";";
                                  "@!" +:+ p +:+ " bra " +:+ (lb +:+ "_exit") +:+ ";";
                                  lb +:+ "_exit:"]])
                     (bufs s2)
                     (dd_set (c s2) "pred_pred_" (counter (c s2) "pred_pred_" + 1))
                     (r s2) (c_label s2) (r_label s2)).
Proof.
  intros lang idx lb Hh Hoph Hdth Hty Hvh Hah He Hope Hve Hra.
  assert (Ha0 : vin uh !! 0%nat = Some a) by (rewrite Hvh; reflexivity).
  assert (Hb1 : vin uh !! 1%nat = Some b) by (rewrite Hvh; reflexivity).
  assert (He0 : vin ue !! 0%nat = Some h) by (rewrite Hve; reflexivity).
  split.
  - unfold lower_uop. mrun. rewrite Hoph. unfold lower_typed. rewrite Hdth, Hoph. mrun.
    erewrite bind_run
      by (eapply (run_ssa_node lang g h uh dt ty "ridx"); [exact Hh | exact Hdth | exact Hty]).
    erewrite bind_run by (apply run_lift, run_item, Ha0).
    erewrite bind_run
      by (apply run_get_r; cbn [r]; rewrite lookup_insert_ne by congruence; exact Hra).
    erewrite bind_run by apply run_ssa_label.
    erewrite bind_run by (apply run_lift; reflexivity).
    rewrite run_kk. reflexivity.
  - intros s2 rb Hr Hl Hrb p.
    unfold lower_uop. mrun. rewrite Hope. mruns.
    rewrite run_kk. cbn [kernel bufs c r c_label r_label].
    rewrite <- app_assoc. reflexivity.
Qed.

Lemma endloop_branches_to_loop_label_witness :
  lower_uop no_floats (PTXLanguage no_floats) ex_loop_graph 2 ex_loop_state
  = Ok (tt, mkL [join nl ["mov.u32 %ridx_s32_0, %const_s32_0;"; "$loop_0:"]] []
              [("const_s32_", 2%Z); ("ridx_s32_", 1%Z)]
              (<[2%nat := PStr "%ridx_s32_0"]> (r ex_loop_state))
              [("loop", 1%Z)] (<[2%nat := "$loop_0"]> ∅)).
Proof.
  exact (proj1 (endloop_branches_to_loop_label no_floats ex_loop_graph 2 3
                  (mkUOp UOps.LOOP (Some dtypes.int32) [0%nat; 1%nat] PNone)
                  (mkUOp UOps.ENDLOOP None [2%nat] PNone)
                  dtypes.int32 "s32" 0%nat 1%nat [] [] (PStr "%const_s32_0") ex_loop_state
                  eq_refl eq_refl eq_refl eq_refl eq_refl ltac:(discriminate)
                  eq_refl eq_refl eq_refl eq_refl)).
Defined.

(** An IF node [h] on a boolean [p] gets a fresh label [$if_m], is bound to
    the register of [p], and emits the branch to [$if_m] under that register,
    the branch to [$if_m_true] under its negation, and the label
    [$if_m_true].  In any later state that still holds the label of [h], the
    ENDIF of [h] emits [$if_m:]. *)
Theorem endif_closes_if_label fm g h e uh ue p ps es np rp s :
  let lang := PTXLanguage fm in
  let lb := label lang "if" (counter (c_label s) "if") in
  nodes g !! h = Some uh -> uop uh = UOps.IF_ -> vin uh = p :: ps ->
  nodes g !! p = Some np -> dtype np = Some dtypes.bool ->
  nodes g !! e = Some ue -> uop ue = UOps.ENDIF -> vin ue = h :: es ->
  r s !! p = Some (PStr rp) -> rp <> "" ->
  lower_uop fm lang g h s
  = Ok (tt, mkL (kernel s ++ [join nl ["@" +:+ rp +:+ " bra " +:+ lb +:+ ";";
                                       "@!" +:+ rp +:+ " bra " +:+ (lb +:+ "_true") +:+ ";";
                                       lb +:+ "_true:"]])
                (bufs s) (c s) (<[h := PStr rp]> (r s))
                (dd_set (c_label s) "if" (counter (c_label s) "if" + 1))
                (<[h := lb]> (r_label s)))
  /\ forall s2,
       r_label s2 !! h = Some lb ->
       lower_uop fm lang g e s2
       = Ok (tt, mkL (kernel s2 ++ [lb +:+ ":"]) (bufs s2) (c s2) (r s2)
                     (c_label s2) (r_label s2)).
Proof.
  intros lang lb Hh Hoph Hvh Hp Hdp He Hope Hve Hrp Hne.
  assert (Hp0 : vin uh !! 0%nat = Some p) by (rewrite Hvh; reflexivity).
  assert (He0 : vin ue !! 0%nat = Some h) by (rewrite Hve; reflexivity).
  assert (Ht : truthy (PStr rp) = true).
  { cbn. destruct (String.eqb_spec rp ""); [contradiction | reflexivity]. }
  split.
  - unfold lower_uop. mrun. rewrite Hoph. mruns.
    erewrite bind_run; cycle 1.
    { apply run_lift. cbn [render_bra lang PTXLanguage]. unfold PTX_render_bra.
      rewrite Ht. reflexivity. }
    rewrite run_kk. reflexivity.
  - intros s2 Hl. unfold lower_uop. mrun. rewrite Hope. mruns. reflexivity.
Qed.

Lemma endif_closes_if_label_witness :
  lower_uop no_floats (PTXLanguage no_floats) ex_if_graph 1 ex_if_state
  = Ok (tt, mkL [join nl ["@%const_pred_0 bra $if_0;"; "@!%const_pred_0 bra $if_0_true;";
                          "$if_0_true:"]] []
              [("const_pred_", 1%Z)] (<[1%nat := PStr "%const_pred_0"]> (r ex_if_state))
              [("if", 1%Z)] (<[1%nat := "$if_0"]> ∅)).
Proof.
  exact (proj1 (endif_closes_if_label no_floats ex_if_graph 1 2
                  (mkUOp UOps.IF_ None [0%nat] PNone) (mkUOp UOps.ENDIF None [1%nat] PNone)
                  0%nat [] [] (mkUOp UOps.CONST (Some dtypes.bool) [] (PBool true))
                  "%const_pred_0" ex_if_state
                  eq_refl eq_refl eq_refl eq_refl eq_refl eq_refl eq_refl eq_refl eq_refl
                  ltac:(discriminate))).
Defined.

(** ** Accumulators *)

(** A scalar DEFINE_ACC node gets a fresh [acc] register of its type and is
    initialised by one move.  When the type is not in [const_requires_mov] the
    source of the move is the literal [render_const] returns and nothing else
    is emitted; when it is, the constant is first materialised in a fresh
    [const] register, which is the source of the move. *)
Theorem define_acc_initial_value fm lang g h u dt ty s :
  let a := reg "acc" ty (counter (c s) (ssa_prefix "acc" ty)) in
  let c1 := dd_set (c s) (ssa_prefix "acc" ty) (counter (c s) (ssa_prefix "acc" ty) + 1) in
  let out := reg "const" ty (counter c1 (ssa_prefix "const" ty)) in
  nodes g !! h = Some u ->
  uop u = UOps.DEFINE_ACC -> dtype u = Some dt -> (count dt <= 1)%nat ->
  types lang dt = Some ty ->
  (dt ∉ const_requires_mov lang ->
   forall cv, render_const lang (arg u) dt None = Ok cv ->
     lower_uop fm lang g h s
     = Ok (tt, mkL (kernel s ++ ["mov.b" +:+ str_tail ty +:+ " " +:+ a +:+ ", "
                                   +:+ pystr fm cv +:+ ";"])
                   (bufs s) c1 (<[h := PStr a]> (r s)) (c_label s) (r_label s)))
  /\ (dt ∈ const_requires_mov lang -> nonempty ty = true ->
      forall v lines, render_const lang (arg u) dt (Some out) = Ok v -> star v = Ok lines ->
        lower_uop fm lang g h s
        = Ok (tt, mkL (kernel s ++ [join nl lines;
                                    "mov.b" +:+ str_tail ty +:+ " " +:+ a +:+ ", " +:+ out
                                      +:+ ";"])
                      (bufs s)
                      (dd_set c1 (ssa_prefix "const" ty) (counter c1 (ssa_prefix "const" ty) + 1))
                      (<[h := PStr a]> (r s)) (c_label s) (r_label s))).
Proof.
  intros a c1 out Hu Hop Hdt Hc Hty.
  pose proof (ltb_count_scalar dt Hc) as Hlt.
  assert (Hlow : lower_uop fm lang g h s
                 = (cv ← const lang g (arg u) dt false;
                    kk ["mov.b" +:+ str_tail ty +:+ " " +:+ a +:+ ", " +:+ pystr fm cv +:+ ";"])
                     (mkL (kernel s) (bufs s) c1 (<[h := PStr a]> (r s))
                          (c_label s) (r_label s))).
  { unfold lower_uop. mrun. rewrite Hop. unfold lower_typed. rewrite Hdt, Hop. mrun.
    rewrite Hlt. mrun.
    erewrite bind_run
      by (eapply (run_ssa_node lang g h u dt ty "acc"); [exact Hu | exact Hdt | exact Hty]).
    reflexivity. }
  rewrite Hlow. split.
  - intros Hnot cv Hcv. unfold const. cbn [orb].
    rewrite bool_decide_eq_false_2 by exact Hnot.
    erewrite bind_run by (apply run_lift, Hcv). reflexivity.
  - intros Hin Hne v lines Hv Hlines.
    erewrite bind_run; cycle 1.
    { unfold const. cbn [orb]. rewrite bool_decide_eq_true_2 by exact Hin.
      erewrite bind_run by (apply run_ty_of, Hty).
      erewrite bind_run by (apply run_ssa, Hne).
      erewrite bind_run by (apply run_lift, Hv).
      erewrite bind_run by (apply run_lift, Hlines).
      erewrite bind_run by apply run_kk.
      apply run_ret. }
    rewrite run_kk. cbn [kernel bufs c r c_label r_label].
    rewrite <- app_assoc. reflexivity.
Qed.

Lemma define_acc_initial_value_witness :
  lower_uop no_floats (PTXLanguage no_floats) (ex_acc_graph dtypes.int32 (PInt 0)) 0 LState_init
  = Ok (tt, mkL ["mov.b32 %acc_s32_0, 0;"] [] [("acc_s32_", 1%Z)]
              (<[0%nat := PStr "%acc_s32_0"]> ∅) [] ∅)
  /\ lower_uop no_floats (PTXLanguage no_floats) (ex_acc_graph dtypes.bool (PBool false)) 0
       LState_init
     = Ok (tt, mkL ["setp.ne.s16 %const_pred_0, 0, 0;"; "mov.bred %acc_pred_0, %const_pred_0;"]
                 [] [("acc_pred_", 1%Z); ("const_pred_", 1%Z)]
                 (<[0%nat := PStr "%acc_pred_0"]> ∅) [] ∅).
Proof.
  split.
  - exact (proj1 (define_acc_initial_value no_floats (PTXLanguage no_floats)
                    (ex_acc_graph dtypes.int32 (PInt 0)) 0
                    (mkUOp UOps.DEFINE_ACC (Some dtypes.int32) [] (PInt 0)) dtypes.int32 "s32"
                    LState_init eq_refl eq_refl eq_refl ltac:(cbn; lia) eq_refl)
             ltac:(cbn; rewrite !not_elem_of_cons; repeat split; try discriminate;
                   apply not_elem_of_nil)
             (PStr "0") eq_refl).
  - exact (proj2 (define_acc_initial_value no_floats (PTXLanguage no_floats)
                    (ex_acc_graph dtypes.bool (PBool false)) 0
                    (mkUOp UOps.DEFINE_ACC (Some dtypes.bool) [] (PBool false)) dtypes.bool
                    "pred" LState_init eq_refl eq_refl eq_refl ltac:(cbn; lia) eq_refl)
             ltac:(cbn; apply list_elem_of_further, list_elem_of_here) eq_refl
             (PList [PStr "setp.ne.s16 %const_pred_0, 0, 0;"])
             ["setp.ne.s16 %const_pred_0, 0, 0;"] eq_refl eq_refl).
Defined.

(** A PHI node over [acc; x] emits the move of the register of [x] into the
    register of [acc] and is bound to the register of [acc] itself: no
    register is allocated. *)
Theorem phi_writes_into_accumulator fm lang g h u dt ty v0 v1 vs r0 r1 s :
  nodes g !! h = Some u ->
  uop u = UOps.PHI -> dtype u = Some dt -> types lang dt = Some ty ->
  vin u = v0 :: v1 :: vs ->
  r s !! v0 = Some r0 -> r s !! v1 = Some r1 ->
  lower_uop fm lang g h s
  = Ok (tt, mkL (kernel s ++ ["mov.b" +:+ str_tail ty +:+ " " +:+ pystr fm r0 +:+ ", "
                                +:+ pystr fm r1 +:+ ";"])
                (bufs s) (c s) (<[h := r0]> (r s)) (c_label s) (r_label s)).
Proof.
  intros Hu Hop Hdt Hty Hv Hr0 Hr1.
  assert (H0 : vin u !! 0%nat = Some v0) by (rewrite Hv; reflexivity).
  assert (H1 : vin u !! 1%nat = Some v1) by (rewrite Hv; reflexivity).
  unfold lower_uop. mrun. rewrite Hop. unfold lower_typed. rewrite Hdt, Hop. mrun.
  reflexivity.
Qed.

Lemma phi_writes_into_accumulator_witness :
  lower_uop no_floats (PTXLanguage no_floats) (ex_acc_graph dtypes.int32 (PInt 0)) 2
    (ex_state [(0%nat, PStr "%acc_s32_0"); (1%nat, PStr "%const_s32_0")])
  = Ok (tt, mkL ["mov.b32 %acc_s32_0, %const_s32_0;"] [] []
              (<[2%nat := PStr "%acc_s32_0"]>
                 (list_to_map [(0%nat, PStr "%acc_s32_0"); (1%nat, PStr "%const_s32_0")]))
              [] ∅).
Proof.
  exact (phi_writes_into_accumulator no_floats (PTXLanguage no_floats)
           (ex_acc_graph dtypes.int32 (PInt 0)) 2
           (mkUOp UOps.PHI (Some dtypes.int32) [0%nat; 1%nat] PNone) dtypes.int32 "s32"
           0%nat 1%nat [] (PStr "%acc_s32_0") (PStr "%const_s32_0")
           (ex_state [(0%nat, PStr "%acc_s32_0"); (1%nat, PStr "%const_s32_0")])
           eq_refl eq_refl eq_refl eq_refl eq_refl eq_refl eq_refl).
Defined.

(** ** Kernel arguments *)

(** A DEFINE_GLOBAL node with payload [(i, name, ...)] appends [(name, type)]
    to the kernel's arguments.  Without [load_global] it is bound to [%name]
    and emits nothing.  With [load_global] it loads the argument from the
    [.param] space into a fresh [dat] register, as a 64-bit unsigned value
    when the type is a pointer, and the node ends bound to that register, not
    to [%name]. *)
Theorem define_global_binding fm lang g h u dt i name rest s :
  let dt' := if is_ptr dt then dtypes.ulong else dt in
  nodes g !! h = Some u ->
  uop u = UOps.DEFINE_GLOBAL -> dtype u = Some dt ->
  arg u = PTuple (i :: PStr name :: rest) ->
  (load_global lang = false ->
   lower_uop fm lang g h s
   = Ok (tt, mkL (kernel s) (bufs s ++ [(PStr name, dt)]) (c s)
                 (<[h := PStr ("%" +:+ name)]> (r s)) (c_label s) (r_label s)))
  /\ (load_global lang = true ->
      forall ty lines,
        types lang dt' = Some ty -> nonempty ty = true ->
        let dest := reg "dat" ty (counter (c s) (ssa_prefix "dat" ty)) in
        render_load lang (PStr name) dest dt' PNone PNone (PStr ".param") (PInt 0) = Ok lines ->
        lower_uop fm lang g h s
        = Ok (tt, mkL (kernel s ++ [join nl lines]) (bufs s ++ [(PStr name, dt)])
                      (dd_set (c s) (ssa_prefix "dat" ty)
                              (counter (c s) (ssa_prefix "dat" ty) + 1))
                      (<[h := PStr dest]> (r s)) (c_label s) (r_label s))).
Proof.
  intros dt' Hu Hop Hdt Harg.
  assert (H1 : subscript (arg u) (PInt 1) = Ok (PStr name))
    by (rewrite Harg; apply py_getitem_1).
  assert (Hlow : lower_uop fm lang g h s
                 = (if load_global lang then
                      ty ← ty_of lang dt';
                      dest ← ssa lang g (Some h) "dat" (Some ty);
                      lines ← lift (render_load lang (PStr name) dest dt' PNone PNone
                                      (PStr ".param") (PInt 0));
                      kk lines
                    else mret tt)
                     (mkL (kernel s) (bufs s ++ [(PStr name, dt)]) (c s)
                          (<[h := PStr ("%" +:+ name)]> (r s)) (c_label s) (r_label s))).
  { unfold lower_uop. mrun. rewrite Hop. unfold lower_typed. rewrite Hdt, Hop. mrun.
    reflexivity. }
  rewrite Hlow. split.
  - intros ->. reflexivity.
  - intros -> ty lines Hty Hne dest Hlines.
    erewrite bind_run by (apply run_ty_of, Hty).
    erewrite bind_run by (apply run_ssa, Hne).
    erewrite bind_run by (apply run_lift; exact Hlines).
    rewrite run_kk. cbn [kernel bufs c r c_label r_label].
    rewrite insert_insert_eq. reflexivity.
Qed.

Lemma define_global_binding_witness :
  lower_uop no_floats (PTXLanguage no_floats) ex_global_graph 0 LState_init
  = Ok (tt, mkL ["ld.param.u64 %dat_u64_0, [data0+0];"]
              [(PStr "data0", PtrDType dtypes.float32)] [("dat_u64_", 1%Z)]
              (<[0%nat := PStr "%dat_u64_0"]> ∅) [] ∅).
Proof.
  exact (proj2 (define_global_binding no_floats (PTXLanguage no_floats) ex_global_graph 0
                  (mkUOp UOps.DEFINE_GLOBAL (Some (PtrDType dtypes.float32)) []
                     (PTuple [PInt 0; PStr "data0"]))
                  (PtrDType dtypes.float32) (PInt 0) "data0" [] LState_init
                  eq_refl eq_refl eq_refl eq_refl)
           eq_refl "u64" ["ld.param.u64 %dat_u64_0, [data0+0];"] eq_refl eq_refl eq_refl).
Defined.

(** ** Register names *)

Lemma reg_inj prefix ty (n m : Z) : reg prefix ty n = reg prefix ty m -> n = m.
Proof.
  unfold reg, str_Z. intros H.
  apply (inj (String.append "%")) in H.
  apply (inj (String.append (ssa_prefix prefix ty))) in H.
  apply (inj pretty) in H. exact H.
Qed.

Lemma regs_from_elem prefix ty cnt : forall n nm,
  nm ∈ regs_from prefix ty n cnt
  <-> exists i, (n <= i < n + Z.of_nat cnt)%Z /\ nm = reg prefix ty i.
Proof.
  induction cnt as [| cnt IH]; intros n nm; cbn [regs_from].
  - split; [intros H; apply not_elem_of_nil in H; contradiction |].
    intros (i & Hi & _). lia.
  - rewrite elem_of_cons, IH. split.
    + intros [-> | (i & Hi & ->)]; [exists n | exists i]; split; try reflexivity; lia.
    + intros (i & Hi & ->). destruct (decide (i = n)) as [-> | Hne]; [left; reflexivity |].
      right. exists i. split; [lia | reflexivity].
Qed.

Lemma regs_from_NoDup prefix ty cnt : forall n, NoDup (regs_from prefix ty n cnt).
Proof.
  induction cnt as [| cnt IH]; intros n; cbn [regs_from]; [apply NoDup_nil_2 |].
  apply NoDup_cons. split; [| apply IH].
  rewrite regs_from_elem. intros (i & Hi & Heq). apply reg_inj in Heq. lia.
Qed.

Lemma regs_from_length prefix ty cnt : forall n, length (regs_from prefix ty n cnt) = cnt.
Proof. induction cnt as [| cnt IH]; intros n; cbn; [reflexivity | rewrite IH; reflexivity]. Qed.

Lemma counter_bump d p k : counter (bump d p k) p = (counter d p + Z.of_nat k)%Z.
Proof.
  destruct k as [| k]; cbn [bump]; [lia |]. apply counter_set.
Qed.

Lemma run_repeat_ssa lang g prefix t cnt :
  nonempty t = true ->
  forall s,
    repeatM cnt (ssa lang g None prefix (Some t)) s
    = Ok (regs_from prefix t (counter (c s) (ssa_prefix prefix t)) cnt,
          mkL (kernel s) (bufs s) (bump (c s) (ssa_prefix prefix t) cnt)
              (r s) (c_label s) (r_label s)).
Proof.
  intros Hne. induction cnt as [| cnt IH]; intros s.
  - cbn. destruct s; reflexivity.
  - cbn [repeatM].
    erewrite bind_run by (apply run_ssa, Hne).
    erewrite bind_run by apply IH.
    cbn [c kernel bufs r c_label r_label].
    rewrite counter_set, bump_succ. reflexivity.
Qed.

(** [cnt] successive calls of [ssa] under one prefix and type return [cnt]
    pairwise distinct names: the names numbered from the count before the
    calls up to the count after them, which has grown by [cnt].  Nothing else
    of the state changes. *)
Theorem ssa_names_are_fresh lang g prefix t cnt s :
  nonempty t = true ->
  let key := ssa_prefix prefix t in
  exists names s',
    repeatM cnt (ssa lang g None prefix (Some t)) s = Ok (names, s')
    /\ length names = cnt /\ NoDup names
    /\ counter (c s') key = (counter (c s) key + Z.of_nat cnt)%Z
    /\ (forall nm, nm ∈ names
                   <-> exists i, (counter (c s) key <= i < counter (c s') key)%Z
                                 /\ nm = reg prefix t i)
    /\ kernel s' = kernel s /\ r s' = r s /\ bufs s' = bufs s.
Proof.
  intros Hne key. eexists _, _. split; [apply run_repeat_ssa, Hne |].
  cbn [c kernel r bufs]. fold key.
  split; [apply regs_from_length |]. split; [apply regs_from_NoDup |].
  split; [apply counter_bump |].
  split; [| repeat split].
  intros nm. rewrite counter_bump. apply regs_from_elem.
Qed.

Lemma ssa_names_are_fresh_witness :
  exists names s',
    repeatM 3 (ssa (PTXLanguage no_floats) ex_cast_graph None "val" (Some "f32")) LState_init
    = Ok (names, s')
    /\ names = ["%val_f32_0"; "%val_f32_1"; "%val_f32_2"]
    /\ counter (c s') "val_f32_" = 3%Z.
Proof.
  destruct (ssa_names_are_fresh (PTXLanguage no_floats) ex_cast_graph "val" "f32" 3
              LState_init eq_refl)
    as (names & s' & Hrun & _ & _ & Hc & _).
  exists names, s'. split; [exact Hrun |].
  split; [| exact Hc].
  vm_compute in Hrun. injection Hrun as <- _. reflexivity.
Defined.

(** ** CAST and BITCAST between different types *)

(** A scalar CAST or BITCAST node whose operand has another type than the
    node gets a fresh [cast] register of the node's type and emits what the
    backend's [render_cast] returns for it; [bitcast] is set exactly for a
    BITCAST node. *)
Theorem cast_converts_into_fresh_register fm lang g h u v0 vs n0 dt d0 ty a lines s :
  let d := reg "cast" ty (counter (c s) (ssa_prefix "cast" ty)) in
  nodes g !! h = Some u ->
  uop u = UOps.CAST \/ uop u = UOps.BITCAST ->
  dtype u = Some dt -> (count dt <= 1)%nat ->
  vin u = v0 :: vs ->
  nodes g !! v0 = Some n0 -> dtype n0 = Some d0 -> d0 <> dt ->
  types lang dt = Some ty -> nonempty ty = true ->
  r s !! v0 = Some a ->
  render_cast lang d a dt d0 (bool_decide (uop u = UOps.BITCAST)) false = Ok lines ->
  lower_uop fm lang g h s
  = Ok (tt, mkL (kernel s ++ [join nl lines]) (bufs s)
                (dd_set (c s) (ssa_prefix "cast" ty) (counter (c s) (ssa_prefix "cast" ty) + 1))
                (<[h := PStr d]> (r s)) (c_label s) (r_label s)).
Proof.
  intros d Hu Hop Hdt Hc Hv Hn0 Hd0 Hne Hty Hnty Hr Hlines.
  pose proof (ltb_count_scalar dt Hc) as Hlt.
  assert (H0 : vin u !! 0%nat = Some v0) by (rewrite Hv; reflexivity).
  assert (Hcast : cast lang g a dt d0 (bool_decide (uop u = UOps.BITCAST)) (Some h) s
                  = Ok (PStr d, mkL (kernel s ++ [join nl lines]) (bufs s)
                          (dd_set (c s) (ssa_prefix "cast" ty)
                                  (counter (c s) (ssa_prefix "cast" ty) + 1))
                          (<[h := PStr d]> (r s)) (c_label s) (r_label s))).
  { unfold cast. rewrite bool_decide_eq_false_2 by exact Hne.
    erewrite bind_run by (apply run_ty_of, Hty).
    erewrite bind_run by (apply run_ssa, Hnty).
    erewrite bind_run by (apply run_lift; exact Hlines).
    erewrite bind_run by apply run_kk.
    reflexivity. }
  assert (Hty' : lower_typed fm lang g h u s
    = Ok (tt, mkL (kernel s ++ [join nl lines]) (bufs s)
                  (dd_set (c s) (ssa_prefix "cast" ty) (counter (c s) (ssa_prefix "cast" ty) + 1))
                  (<[h := PStr d]> (r s)) (c_label s) (r_label s))).
  { unfold lower_typed. rewrite Hdt.
    erewrite bind_run by (apply run_lift; reflexivity).
    destruct Hop as [Hop | Hop]; rewrite Hop in *;
      (erewrite bind_run by (apply run_lift, run_item, H0));
      (erewrite bind_run by (eapply run_dtype_of; eassumption));
      rewrite Hlt;
      (erewrite bind_run by (apply run_get_r, Hr));
      (erewrite bind_run by exact Hcast); reflexivity. }
  unfold lower_uop. mrun.
  destruct Hop as [Hop | Hop]; rewrite Hop in *; exact Hty'.
Qed.

Lemma cast_converts_into_fresh_register_witness :
  lower_uop no_floats (PTXLanguage no_floats) ex_convert_graph 1
    (ex_state [(0%nat, PStr "%const_s32_0")])
  = Ok (tt, mkL ["cvt.rn.f32.s32 %cast_f32_0, %const_s32_0;"] [] [("cast_f32_", 1%Z)]
              (<[1%nat := PStr "%cast_f32_0"]> (list_to_map [(0%nat, PStr "%const_s32_0")]))
              [] ∅).
Proof.
  exact (cast_converts_into_fresh_register no_floats (PTXLanguage no_floats) ex_convert_graph 1
           (mkUOp UOps.CAST (Some dtypes.float32) [0%nat] PNone) 0%nat []
           (mkUOp UOps.CONST (Some dtypes.int32) [] (PInt 5)) dtypes.float32 dtypes.int32
           "f32" (PStr "%const_s32_0") ["cvt.rn.f32.s32 %cast_f32_0, %const_s32_0;"]
           (ex_state [(0%nat, PStr "%const_s32_0")])
           eq_refl (or_introl eq_refl) eq_refl ltac:(cbn; lia) eq_refl eq_refl eq_refl
           ltac:(discriminate) eq_refl eq_refl eq_refl eq_refl).
Defined.

(** ** The layout of the kernel text *)


Lemma append_nil_l (s : string) : "" +:+ s = s.
Proof. reflexivity. Qed.

Lemma append_cons a (s t : string) : String a s +:+ t = String a (s +:+ t).
Proof. reflexivity. Qed.

Lemma split_on_nonempty c s : split_on c s <> [].
Proof.
  destruct s as [| a s]; cbn; [discriminate |].
  destruct (split_on c s); [discriminate |]. destruct (Ascii.eqb a c); discriminate.
Qed.

Lemma split_on_head c m rest :
  str_has c m = false -> split_on c (m +:+ String c rest) = m :: split_on c rest.
Proof.
  induction m as [| a m IH]; rewrite ?append_nil_l, ?append_cons;
    cbn [str_has split_on]; intros Hm.
  - rewrite Ascii.eqb_refl.
    destruct (split_on c rest) eqn:E; [apply split_on_nonempty in E; contradiction |].
    reflexivity.
  - apply orb_false_iff in Hm as [Ha Hm]. rewrite (IH Hm), Ha. reflexivity.
Qed.

Lemma split_on_none c m : str_has c m = false -> split_on c m = [m].
Proof.
  induction m as [| a m IH]; cbn [str_has split_on]; intros Hm; [reflexivity |].
  apply orb_false_iff in Hm as [Ha Hm]. rewrite (IH Hm), Ha. reflexivity.
Qed.

Lemma replace_first_head c t m rest :
  str_has c m = false -> replace_first c t (m +:+ String c rest) = m +:+ t +:+ rest.
Proof.
  induction m as [| a m IH]; rewrite ?append_nil_l, ?append_cons;
    cbn [str_has replace_first]; intros Hm.
  - rewrite Ascii.eqb_refl. reflexivity.
  - apply orb_false_iff in Hm as [Ha Hm]. rewrite (IH Hm), Ha. reflexivity.
Qed.

Lemma replace_first_none c t m : str_has c m = false -> replace_first c t m = m.
Proof.
  induction m as [| a m IH]; cbn [str_has replace_first]; intros Hm; [reflexivity |].
  apply orb_false_iff in Hm as [Ha Hm]. rewrite (IH Hm), Ha. reflexivity.
Qed.

(** [fmt] fails on an empty line and leaves a line that starts with [$], a
    label, as it is.  Any other line is indented by one tab, and the space
    after its first word is replaced by one tab when the word has more than
    seven characters and by two tabs otherwise; a line of one word is only
    indented. *)
Theorem fmt_tabulates :
  PTX_fmt "" = Raise IndexError
  /\ (forall rest, PTX_fmt (String "$" rest) = Ok (String "$" rest))
  /\ (forall a m rest,
        a <> "$"%char -> str_has " " (String a m) = false ->
        let word := String a m in
        PTX_fmt (word +:+ " " +:+ rest)
        = Ok (tab +:+ word +:+ (if (7 <? String.length word)%nat then tab else tab +:+ tab)
              +:+ rest)
        /\ PTX_fmt word = Ok (tab +:+ word)).
Proof.
  split; [reflexivity |]. split; [reflexivity |].
  intros a m rest Ha Hw word.
  assert (Hne : Ascii.eqb a "$" = false) by (apply Ascii.eqb_neq; exact Ha).
  split.
  - change (word +:+ " " +:+ rest) with (String a (m +:+ String " " rest)).
    unfold PTX_fmt. rewrite Hne.
    change (String a (m +:+ String " " rest)) with (word +:+ String " " rest).
    rewrite (split_on_head " " word rest Hw), (replace_first_head " " _ word rest Hw).
    reflexivity.
  - unfold PTX_fmt, word. rewrite Hne. fold word.
    rewrite (split_on_none " " word Hw), (replace_first_none " " _ word Hw).
    reflexivity.
Qed.

Lemma fmt_tabulates_witness :
  PTX_fmt "mov.b32 %const_s32_0, 5;" = Ok (tab +:+ "mov.b32" +:+ (tab +:+ tab) +:+ "%const_s32_0, 5;")
  /\ PTX_fmt "ld.param.u64 %dat_u64_0, [data0+0];"
     = Ok (tab +:+ "ld.param.u64" +:+ tab +:+ "%dat_u64_0, [data0+0];").
Proof.
  split.
  - exact (proj1 (proj2 (proj2 fmt_tabulates) "m"%char "ov.b32" "%const_s32_0, 5;"
                    ltac:(discriminate) eq_refl)).
  - exact (proj1 (proj2 (proj2 fmt_tabulates) "l"%char "d.param.u64" "%dat_u64_0, [data0+0];"
                    ltac:(discriminate) eq_refl)).
Defined.

Lemma split_on_tail c p y :
  exists pre, pre <> [] /\ split_on c (p +:+ String c y) = (pre ++ split_on c y)%list.
Proof.
  induction p as [| a p (pre & Hpre & IH)]; rewrite ?append_nil_l, ?append_cons;
    cbn [split_on].
  - exists [""]. split; [discriminate |]. rewrite Ascii.eqb_refl.
    destruct (split_on c y) eqn:E; [apply split_on_nonempty in E; contradiction |].
    reflexivity.
  - rewrite IH. destruct pre as [| w pre]; [contradiction |]. cbn [app].
    destruct (Ascii.eqb a c).
    + exists ("" :: w :: pre). split; [discriminate | reflexivity].
    + exists (String a w :: pre). split; [discriminate | reflexivity].
Qed.

Lemma py_getitem_penultimate {A} (pre : list A) (x y : A) :
  py_getitem (pre ++ [x; y]) (-2) = Ok x.
Proof.
  destruct (py_getitem_neg (pre ++ [x; y]) (-2)) as (z & Hz & ->).
  { rewrite length_app. cbn [length]. lia. }
  f_equal.
  rewrite length_app in Hz. cbn [length] in Hz.
  replace (Z.to_nat (-2 + Z.of_nat (length pre + 2))) with (length pre + 0)%nat in Hz by lia.
  rewrite lookup_app_r in Hz by lia.
  replace (length pre + 0 - length pre)%nat with 0%nat in Hz by lia.
  cbn in Hz. congruence.
Qed.

Lemma PTX_types_no_underscore d ty : PTX_types d = Some ty -> str_has "_" ty = false.
Proof.
  unfold PTX_types. case_bool_decide; [| discriminate].
  intros [= <-]. destruct (kind d); reflexivity.
Qed.

(** The type that [render_kernel] reads back from a counter's key, the last
    but one of its pieces between underscores, is the type that [ssa] wrote
    into the key, whatever the prefix (one with underscores too), as long as
    the type name has no underscore; every type name of the PTX table is such
    a name.  A key without underscore has no such piece. *)
Theorem counter_key_keeps_type :
  (forall prefix ty,
     str_has "_" ty = false ->
     py_getitem (split_on "_" (ssa_prefix prefix ty)) (-2) = Ok ty)
  /\ (forall prefix d ty,
        PTX_types d = Some ty ->
        py_getitem (split_on "_" (ssa_prefix prefix ty)) (-2) = Ok ty)
  /\ (forall key,
        str_has "_" key = false -> py_getitem (split_on "_" key) (-2) = Raise IndexError).
Proof.
  assert (Hdec : forall prefix ty,
             str_has "_" ty = false ->
             py_getitem (split_on "_" (ssa_prefix prefix ty)) (-2) = Ok ty).
  { intros prefix ty Hty. unfold ssa_prefix.
    change (prefix +:+ "_" +:+ ty +:+ "_") with (prefix +:+ String "_" (ty +:+ String "_" "")).
    destruct (split_on_tail "_" prefix (ty +:+ String "_" "")) as (pre & _ & ->).
    rewrite (split_on_head "_" ty "" Hty). cbn [split_on].
    apply py_getitem_penultimate. }
  split; [exact Hdec |]. split.
  - intros prefix d ty Hd. apply Hdec. eapply PTX_types_no_underscore, Hd.
  - intros key Hk. rewrite (split_on_none "_" key Hk).
    apply py_getitem_out. cbn. lia.
Qed.

Lemma counter_key_keeps_type_witness :
  py_getitem (split_on "_" (ssa_prefix "alu_cast" "f32")) (-2) = Ok "f32"
  /\ py_getitem (split_on "_" "t") (-2) = Raise IndexError.
Proof.
  split.
  - exact (proj1 counter_key_keeps_type "alu_cast" "f32" eq_refl).
  - exact (proj2 (proj2 counter_key_keeps_type) "t" eq_refl).
Defined.






(** ** What the lowering never undoes *)

Lemma grows_refl s : grows s s.
Proof. unfold grows. repeat split; try reflexivity; auto. Qed.

Lemma grows_trans s1 s2 s3 : grows s1 s2 -> grows s2 s3 -> grows s1 s3.
Proof.
  intros (K1 & B1 & C1 & L1 & R1 & RL1) (K2 & B2 & C2 & L2 & R2 & RL2).
  unfold grows. repeat split.
  - etransitivity; eassumption.
  - etransitivity; eassumption.
  - intros k. specialize (C1 k). specialize (C2 k). lia.
  - intros k. specialize (L1 k). specialize (L2 k). lia.
  - auto.
  - auto.
Qed.

Lemma counter_incr_le d p k : (counter d k <= counter (dd_set d p (counter d p + 1)) k)%Z.
Proof.
  destruct (decide (p = k)) as [-> | Hne].
  - rewrite counter_set. lia.
  - rewrite counter_set_ne by exact Hne. lia.
Qed.

Lemma mono_ret {A} (a : A) : mono (mret a).
Proof. intros s a' s' [= <- <-]. apply grows_refl. Qed.

Lemma mono_bind {A B} (m : M A) (f : A -> M B) :
  mono m -> (forall a, mono (f a)) -> mono (m ≫= f).
Proof.
  intros Hm Hf s b s' H. unfold mbind, M_bind in H.
  destruct (m s) as [[a s1] | e] eqn:E; [| discriminate H].
  eapply grows_trans; [eapply Hm, E | eapply Hf, H].
Qed.

Lemma mono_lift {A} (m : result A) : mono (lift m).
Proof. intros s a s' H. unfold lift in H. destruct m; inversion H. apply grows_refl. Qed.

Lemma mono_key {A} (o : option A) : mono (key o).
Proof. apply mono_lift. Qed.

Lemma mono_get_r h : mono (get_r h).
Proof. intros s a s' H. unfold get_r in H. eapply mono_key, H. Qed.

Lemma mono_get_label h : mono (get_label h).
Proof. intros s a s' H. unfold get_label in H. eapply mono_key, H. Qed.

Lemma mono_set_r h v : mono (set_r h v).
Proof.
  intros s a s' [= _ <-]. unfold grows. cbn. repeat split; try reflexivity; auto.
  intros h' Hh. apply lookup_insert_is_Some. destruct (decide (h = h')); auto.
Qed.

Lemma mono_set_label h v : mono (set_label h v).
Proof.
  intros s a s' [= _ <-]. unfold grows. cbn. repeat split; try reflexivity; auto.
  intros h' Hh. apply lookup_insert_is_Some. destruct (decide (h = h')); auto.
Qed.

Lemma mono_kk lines : mono (kk lines).
Proof.
  intros s a s' [= _ <-]. unfold grows. cbn. repeat split; try reflexivity; auto.
  apply sublist_inserts_r. reflexivity.
Qed.

Lemma mono_prepend_kernel line : mono (prepend_kernel line).
Proof.
  intros s a s' [= _ <-]. unfold grows. cbn. repeat split; try reflexivity; auto.
  apply sublist_cons. reflexivity.
Qed.

Lemma mono_append_buf b : mono (append_buf b).
Proof.
  intros s a s' [= _ <-]. unfold grows. cbn. repeat split; try reflexivity; auto.
  apply prefix_app_r. reflexivity.
Qed.

Lemma mono_incr_c p : mono (incr_c p).
Proof.
  intros s a s' H. rewrite run_incr_c in H. injection H as _ <-.
  unfold grows. cbn. repeat split; try reflexivity; auto.
  intros k. apply counter_incr_le.
Qed.

Lemma mono_incr_c_label p : mono (incr_c_label p).
Proof.
  intros s a s' H. unfold incr_c_label, dd_incr in H. injection H as _ <-.
  unfold grows. cbn. repeat split; try reflexivity; auto.
  intros k. apply counter_incr_le.
Qed.

Lemma mono_repeatM {A} (m : M A) n : mono m -> mono (repeatM n m).
Proof.
  intros Hm. induction n as [| n IH]; cbn [repeatM]; [apply mono_ret |].
  apply mono_bind; [exact Hm | intros x].
  apply mono_bind; [exact IH | intros xs]. apply mono_ret.
Qed.

Lemma mono_forM {A B} (l : list A) (f : A -> M B) : (forall x, mono (f x)) -> mono (forM l f).
Proof.
  intros Hf. induction l as [| x l IH]; cbn [forM]; [apply mono_ret |].
  apply mono_bind; [apply Hf | intros y].
  apply mono_bind; [exact IH | intros ys]. apply mono_ret.
Qed.

Ltac mono_step :=
  first
    [ apply mono_ret | apply mono_lift | apply mono_key | apply mono_get_r
    | apply mono_get_label | apply mono_set_r | apply mono_set_label | apply mono_kk
    | apply mono_prepend_kernel | apply mono_append_buf | apply mono_incr_c
    | apply mono_incr_c_label
    | apply mono_repeatM | apply mono_forM; intros ?
    | apply mono_bind; [| intros ?]
    | progress cbv beta
    | match goal with
      | |- mono (if ?b then _ else _) => destruct b
      | |- mono (match ?x with _ => _ end) => destruct x
      end ].
Ltac mono_solve := repeat mono_step.

Lemma mono_ty_of lang d : mono (ty_of lang d).
Proof. apply mono_key. Qed.

Lemma mono_ssa lang g u prefix dt : mono (ssa lang g u prefix dt).
Proof. unfold ssa, ty_of. mono_solve. Qed.

Lemma mono_ssa_label lang u prefix : mono (ssa_label lang u prefix).
Proof. unfold ssa_label. mono_solve. Qed.

Lemma mono_const lang g x dt mov : mono (const lang g x dt mov).
Proof. unfold const, ty_of. mono_solve; apply mono_ssa. Qed.

Lemma mono_cast lang g a dt atype bitcast u : mono (cast lang g a dt atype bitcast u).
Proof. unfold cast, ty_of. mono_solve; apply mono_ssa. Qed.

Lemma mono_dtype_of g h : mono (dtype_of g h).
Proof. unfold dtype_of. mono_solve. Qed.

Lemma mono_operand v k : mono (operand v k).
Proof. apply mono_lift. Qed.

Lemma mono_opt_r v k : mono (opt_r v k).
Proof. unfold opt_r, operand. mono_solve. Qed.

Lemma mono_arg_of g h : mono (arg_of g h).
Proof. unfold arg_of. mono_solve. Qed.

Lemma mono_upcast_operand lang g dt op : mono (upcast_operand lang g dt op).
Proof. unfold upcast_operand, ty_of. mono_solve; apply mono_ssa. Qed.

Ltac mono_lower :=
  repeat first
    [ apply mono_ssa | apply mono_ssa_label | apply mono_const | apply mono_cast
    | apply mono_dtype_of | apply mono_operand | apply mono_opt_r | apply mono_arg_of
    | apply mono_upcast_operand | apply mono_ty_of
    | mono_step ].

Lemma mono_lower_typed fm lang g h u : mono (lower_typed fm lang g h u).
Proof. unfold lower_typed. mono_lower. Qed.

Lemma mono_lower_uop fm lang g h : mono (lower_uop fm lang g h).
Proof.
  unfold lower_uop. apply mono_bind; [apply mono_lift | intros u].
  destruct (uop u); try apply mono_lower_typed; mono_lower.
Qed.

(** Lowering a node, and lowering the whole graph, only adds to the state:
    the lines emitted before are still there, in their order; the arguments
    collected before are the first of the arguments after; no counter of
    registers or of labels is lower than before; no node and no label that
    was bound is unbound.  This holds for every backend. *)
Theorem lowering_only_grows fm lang g :
  (forall h s s', lower_uop fm lang g h s = Ok (tt, s') -> grows s s')
  /\ (forall s s', lower_all fm lang g s = Ok (tt, s') -> grows s s').
Proof.
  split.
  - intros h s s' H. eapply mono_lower_uop, H.
  - assert (Hm : mono (lower_all fm lang g)).
    { unfold lower_all. apply mono_bind; [| intros ?; apply mono_ret].
      apply mono_forM. intros h. apply mono_lower_uop. }
    intros s s' H. eapply Hm, H.
Qed.

Lemma lowering_only_grows_witness :
  grows ex_if_state
    (mkL [join nl ["@%const_pred_0 bra $if_0;"; "@!%const_pred_0 bra $if_0_true;";
                   "$if_0_true:"]] []
         [("const_pred_", 1%Z)] (<[1%nat := PStr "%const_pred_0"]> (r ex_if_state))
         [("if", 1%Z)] (<[1%nat := "$if_0"]> ∅)).
Proof.
  apply (proj1 (lowering_only_grows no_floats (PTXLanguage no_floats) ex_if_graph) 1%nat).
  vm_compute. reflexivity.
Defined.

(** ** The sweep terminates *)

Lemma safe_Ok {A} (a : A) : safe (Ok a).
Proof. discriminate. Qed.

Lemma safe_bind {A B} (m : result A) (f : A -> result B) :
  safe m -> (forall a, m = Ok a -> safe (f a)) -> safe (m ≫= f).
Proof.
  intros Hm Hf. destruct m as [a | e]; [rewrite rbind_Ok; apply Hf; reflexivity |].
  intros H. apply Hm. unfold mbind, result_bind in H. injection H as ->. reflexivity.
Qed.

Lemma safe_from_opt {A} e (o : option A) : e <> Diverged -> safe (from_opt e o).
Proof. intros He. destruct o; [discriminate | intros [= H]; contradiction]. Qed.

Lemma safe_node g h : safe (node g h).
Proof. apply safe_from_opt. discriminate. Qed.

Lemma safe_item {A} (l : list A) k : safe (item l k).
Proof. apply safe_from_opt. discriminate. Qed.

Lemma safe_py_index x l : safe (py_index x l).
Proof.
  induction l as [| y l IH]; cbn [py_index]; [discriminate |].
  destruct (decide (y = x)); [discriminate |].
  apply safe_bind; [exact IH | intros; discriminate].
Qed.

Lemma safe_index g h : safe (index g h).
Proof. apply safe_py_index. Qed.

Ltac safe_step :=
  first
    [ apply safe_Ok | apply safe_node | apply safe_item | apply safe_index
    | apply safe_from_opt; discriminate
    | apply safe_bind; [| intros ? ?]
    | progress cbv beta zeta
    | match goal with
      | |- safe (if ?b then _ else _) => destruct b
      | |- safe (let '(_, _) := ?x in _) => destruct x
      | |- safe (match ?x with _ => _ end) => destruct x
      end ].
Ltac safe_solve := repeat safe_step.

Lemma safe_ptr_ar g root : safe (ptr_ar g root).
Proof. unfold ptr_ar, ptr_offset, ptr_fold. safe_solve. Qed.

Lemma safe_ld_rep g root : safe (ld_rep g root).
Proof. unfold ld_rep. repeat first [apply safe_ptr_ar | safe_step]. Qed.

Lemma safe_rewrite g u : safe (rewrite g u).
Proof.
  unfold rewrite. apply safe_bind; [apply safe_node | intros n _].
  destruct (matching_rule g n) as [[] |]; unfold eq_rep, lt_rep, gate_rep;
    repeat first [apply safe_ld_rep | apply safe_ptr_ar | safe_step].
Qed.

Lemma safe_visit st u : safe (visit st u).
Proof.
  unfold visit. destruct (bool_decide (u ∈ sw_seen st)); [discriminate |].
  apply safe_bind; [apply safe_rewrite | intros [g rew] _]. discriminate.
Qed.

Lemma inserted_refl Q l : inserted Q 0 l l.
Proof. induction l; constructor; assumption. Qed.

Lemma inserted_mono (Q Q' : handle -> Prop) k l l' :
  (forall x, Q x -> Q' x) -> inserted Q k l l' -> inserted Q' k l l'.
Proof. intros HQ H. induction H; constructor; auto. Qed.

Lemma inserted_trans Q k2 l2 l3 :
  inserted Q k2 l2 l3 ->
  forall k1 l1, inserted Q k1 l1 l2 -> inserted Q (k1 + k2) l1 l3.
Proof.
  induction 1 as [| x k l l' H IH | x k l l' Hx H IH]; intros k1 l1 H1.
  - inversion H1; subst. constructor.
  - inversion H1; subst.
    + apply ins_keep. apply IH. assumption.
    + cbn. apply ins_new; [assumption |]. apply IH. assumption.
  - rewrite Nat.add_succ_r. apply ins_new; [assumption |]. apply IH. assumption.
Qed.

Lemma inserted_length Q k l l' : inserted Q k l l' -> length l' = (length l + k)%nat.
Proof. induction 1; cbn; lia. Qed.

Lemma inserted_py_insert (Q : handle -> Prop) h l : forall i,
  Q h -> inserted Q 1 l (py_insert i h l).
Proof.
  unfold py_insert. induction l as [| x l IH]; intros i Hh.
  - rewrite take_nil, drop_nil. apply ins_new; [exact Hh | constructor].
  - destruct i as [| i]; cbn [take drop app].
    + apply ins_new; [exact Hh | apply inserted_refl].
    + apply ins_keep. apply IH, Hh.
Qed.

Lemma grew_refl u g : grew u 0 g g.
Proof. split; [apply extends_refl | apply inserted_refl]. Qed.

Lemma grew_set_vin u g v : grew u 0 g (set_vin g u v).
Proof. split; [apply extends_set_vin | apply inserted_refl]. Qed.

Lemma grew_set_arg u g a : grew u 0 g (set_arg g u a).
Proof. split; [apply extends_set_arg | apply inserted_refl]. Qed.

Lemma grew_set_dtype u g d : grew u 0 g (set_dtype g u d).
Proof. split; [apply extends_set_dtype | apply inserted_refl]. Qed.

Lemma can_match_created g op dt v a :
  can_match (mkUOp op dt v a) = false -> can_match (created g op dt v a) = false.
Proof. intros H. unfold created. destruct (folded g op v a); [reflexivity | exact H]. Qed.

Lemma grew_add u g op dt v a cb i g' h :
  can_match (mkUOp op dt v a) = false ->
  add g op dt v a cb i = (g', h) -> grew u 1 g g'.
Proof.
  intros Hcm H. apply (can_match_created g) in Hcm. pose proof (extends_add u _ _ _ _ _ _ _ _ _ H) as (Hext & Hnone & Hsome).
  split; [exact Hext |].
  unfold add in H. injection H as <- <-. cbn [uops].
  apply inserted_py_insert. split; [exact Hnone |].
  eexists. split; [exact Hsome | exact Hcm].
Qed.

Lemma grew_trans u k1 k2 g1 g2 g3 :
  is_Some (nodes g1 !! u) ->
  grew u k1 g1 g2 -> grew u k2 g2 g3 -> grew u (k1 + k2) g1 g3.
Proof.
  intros Hu [E1 I1] [E2 I2]. split; [eapply extends_trans; eassumption |].
  eapply inserted_trans.
  - eapply inserted_mono; [| exact I2].
    intros x (Hn & n & Hx & Hc). split; [eapply extends_None; eassumption |]. eauto.
  - eapply inserted_mono; [| exact I1].
    intros x (Hn & n & Hx & Hc). split; [exact Hn |].
    exists n. split; [| exact Hc].
    apply (proj1 E2); [| exact Hx].
    intros ->. destruct Hu as [? Hu]. congruence.
Qed.

Ltac grew_facts u :=
  repeat match goal with
  | H : add _ _ _ _ _ _ _ = (_, _) |- _ => apply (grew_add u) in H; [| reflexivity]
  end.

Ltac grew_chain :=
  match goal with
  | |- grew _ _ ?g ?g => apply grew_refl
  | |- grew ?u _ ?g (set_vin ?g1 ?u _) =>
      eapply (grew_trans u _ _ g g1); [assumption | grew_chain | apply grew_set_vin]
  | |- grew ?u _ ?g (set_arg ?g1 ?u _) =>
      eapply (grew_trans u _ _ g g1); [assumption | grew_chain | apply grew_set_arg]
  | |- grew ?u _ ?g (set_dtype ?g1 ?u _) =>
      eapply (grew_trans u _ _ g g1); [assumption | grew_chain | apply grew_set_dtype]
  | H : grew ?u _ ?g1 ?g2 |- grew ?u _ ?g ?g2 =>
      eapply (grew_trans u _ _ g g1); [assumption | grew_chain | exact H]
  end.

#[local] Opaque add.

Lemma ptr_offset_grew g root u size g' ptr :
  is_Some (nodes g !! root) ->
  ptr_offset g root u size = Ok (g', ptr) -> exists k, grew root k g g' /\ (k <= 2)%nat.
Proof.
  unfold ptr_offset. intros Hu H. unbind; subst; grew_facts root;
    (eexists; split; [grew_chain | cbn; lia]).
Qed.

Lemma ptr_fold_grew g root u b ptr g' :
  is_Some (nodes g !! root) ->
  ptr_fold g root u b ptr = Ok g' -> exists k, grew root k g g' /\ (k <= 3)%nat.
Proof.
  unfold ptr_fold. intros Hu H. unbind; subst; grew_facts root;
    (eexists; split; [grew_chain | cbn; lia]).
Qed.

Lemma node_is_Some g h n : node g h = Ok n -> nodes g !! h = Some n.
Proof. unfold node. destruct (nodes g !! h); [intros [= ->]; reflexivity | discriminate]. Qed.

Lemma grew_is_Some u k g g' : grew u k g g' -> is_Some (nodes g !! u) -> is_Some (nodes g' !! u).
Proof. intros [[_ H] _]. exact H. Qed.

Lemma ptr_ar_grew g root g' :
  ptr_ar g root = Ok g' -> exists k, grew root k g g' /\ (k <= 5)%nat.
Proof.
  unfold ptr_ar. intros H. unbind.
  assert (Hu : is_Some (nodes g !! root))
    by (match goal with H : node g root = Ok _ |- _ => apply node_is_Some in H; eauto end).
  match goal with H : ptr_offset _ _ _ _ = Ok _ |- _ =>
    apply ptr_offset_grew in H;
      [destruct H as (k1 & G1 & B1) | apply (proj2 (extends_set_arg root g _)), Hu] end.
  match goal with H : ptr_fold _ _ _ _ _ = Ok _ |- _ =>
    apply ptr_fold_grew in H;
      [destruct H as (k2 & G2 & B2)
      | eapply grew_is_Some; [exact G1 | apply (proj2 (extends_set_arg root g _)), Hu]] end.
  eexists. split; [grew_chain | lia].
Qed.

Lemma eq_rep_grew g u g' new :
  is_Some (nodes g !! u) ->
  eq_rep g u = Ok (g', new) -> exists k, grew u k g g' /\ (k <= 1)%nat.
Proof.
  unfold eq_rep. intros Hu H. unbind. subst. grew_facts u.
  eexists. split; [grew_chain | cbn; lia].
Qed.

Lemma lt_rep_grew g u g' :
  is_Some (nodes g !! u) ->
  lt_rep g u = Ok g' -> exists k, grew u k g g' /\ (k <= 1)%nat.
Proof.
  unfold lt_rep. intros Hu H. unbind. subst. grew_facts u.
  eexists. split; [grew_chain | cbn; lia].
Qed.

Lemma ld_rep_grew g u g' new :
  is_Some (nodes g !! u) ->
  ld_rep g u = Ok (g', new) -> exists k, grew u k g g' /\ (k <= 6)%nat.
Proof.
  unfold ld_rep. intros Hu H. unbind. subst. grew_facts u.
  match goal with H : ptr_ar _ _ = Ok _ |- _ =>
    apply ptr_ar_grew in H; destruct H as (k1 & G1 & B1) end.
  eexists. split; [grew_chain | cbn; lia].
Qed.

Lemma gate_rep_grew g u x y z k g' new :
  is_Some (nodes g !! u) ->
  gate_rep g u x y z k = Ok (g', new) -> exists n, grew u n g g' /\ (n <= 7)%nat.
Proof.
  unfold gate_rep. intros Hu H. unbind. grew_facts u.
  match goal with H : ld_rep _ _ = Ok _ |- _ =>
    apply ld_rep_grew in H; [destruct H as (k1 & G1 & B1) |] end.
  - eexists. split; [grew_chain | cbn; lia].
  - match goal with G : grew u _ g ?g1 |- is_Some (nodes (set_vin ?g1 _ _) !! _) =>
      apply (proj2 (extends_set_vin u g1 _)); eapply grew_is_Some; [exact G | exact Hu] end.
Qed.

#[local] Transparent add.

Lemma matching_rule_can_match g n ru : matching_rule g n = Some ru -> can_match n = true.
Proof.
  unfold matching_rule, can_match. intros H.
  destruct (bool_decide (uop n = UOps.ALU)), (bool_decide (uop n = UOps.LOAD)),
    (bool_decide (uop n = UOps.STORE)), (arg_is (arg n) BinaryOps.CMPEQ),
    (arg_is (arg n) BinaryOps.CMPLT); cbn in *; try reflexivity; try discriminate;
    repeat match type of H with
           | context [first_of_two_is_bool g n] => destruct (first_of_two_is_bool g n); cbn in H
           end; discriminate.
Qed.

(** What a rewrite does to the list of nodes: at most seven nodes are new,
    none that a pattern can match, and none is new unless a pattern matched
    the node. *)
Lemma rewrite_grew g u g' rew :
  rewrite g u = Ok (g', rew) ->
  exists k, grew u k g g' /\ (k <= 7)%nat
            /\ (k = 0%nat \/ exists n, nodes g !! u = Some n /\ can_match n = true).
Proof.
  unfold rewrite. intros H.
  destruct (node g u) as [n |] eqn:En; [rewrite rbind_Ok in H | cbn in H; discriminate H].
  apply node_is_Some in En.
  assert (HuS : is_Some (nodes g !! u)) by eauto.
  destruct (matching_rule g n) as [ru |] eqn:Hm.
  - pose proof (matching_rule_can_match g n ru Hm) as Hcm.
    assert (Hr : exists n, nodes g !! u = Some n /\ can_match n = true) by eauto.
    destruct ru.
    + unbind. subst.
      match goal with H : eq_rep _ _ = Ok _ |- _ =>
        apply eq_rep_grew in H; [destruct H as (k & G & B) | exact HuS] end.
      exists k. split; [exact G |]. split; [lia | right; exact Hr].
    + unbind. subst.
      match goal with H : lt_rep _ _ = Ok _ |- _ =>
        apply lt_rep_grew in H; [destruct H as (k & G & B) | exact HuS] end.
      exists k. split; [exact G |]. split; [lia | right; exact Hr].
    + destruct (vin n) as [| x [| y [| z [| k0 [|]]]]];
        try (injection H as <- <-; exists 0%nat; split; [apply grew_refl |];
             split; [lia | left; reflexivity]).
      unbind. subst.
      match goal with H : gate_rep _ _ _ _ _ _ = Ok _ |- _ =>
        apply gate_rep_grew in H; [destruct H as (k & G & B) | exact HuS] end.
      exists k. split; [exact G |]. split; [lia | right; exact Hr].
    + unbind. subst.
      match goal with H : ld_rep _ _ = Ok _ |- _ =>
        apply ld_rep_grew in H; [destruct H as (k & G & B) | exact HuS] end.
      exists k. split; [exact G |]. split; [lia | right; exact Hr].
    + unbind. subst.
      match goal with H : ptr_ar _ _ = Ok _ |- _ =>
        apply ptr_ar_grew in H; destruct H as (k & G & B) end.
      exists k. split; [exact G |]. split; [lia | right; exact Hr].
    + unbind. subst.
      match goal with H : ptr_ar _ _ = Ok _ |- _ =>
        apply ptr_ar_grew in H; destruct H as (k & G & B) end.
      exists k. split; [exact G |]. split; [lia | right; exact Hr].
  - injection H as <- <-. exists 0%nat. split; [apply grew_refl |].
    split; [lia | left; reflexivity].
Qed.

Lemma can_match_retarget n v : can_match (retarget n v (arg n)) = can_match n.
Proof. reflexivity. Qed.

Lemma redirect_uops g u rep : uops (redirect g u rep) = uops g.
Proof.
  destruct (nodes g !! u) as [n |] eqn:E.
  - rewrite (redirect_node g u rep n E). reflexivity.
  - rewrite (redirect_dangling g u rep E). reflexivity.
Qed.

Lemma redirect_pending seen g u rep h :
  is_pending seen (redirect g u rep) h = is_pending seen g h.
Proof.
  unfold is_pending. f_equal.
  destruct (nodes g !! u) as [n |] eqn:E.
  - rewrite (redirect_node g u rep n E). cbn [nodes].
    destruct (decide (h = u)) as [-> | Hne].
    + rewrite lookup_insert_eq, E. apply can_match_retarget.
    + rewrite lookup_insert_ne by congruence. reflexivity.
  - rewrite (redirect_dangling g u rep E). reflexivity.
Qed.

Lemma redirect_is_Some g u rep h :
  is_Some (nodes g !! h) -> is_Some (nodes (redirect g u rep) !! h).
Proof.
  intros Hh. destruct (nodes g !! u) as [n |] eqn:E.
  - rewrite (redirect_node g u rep n E). cbn [nodes].
    apply lookup_insert_is_Some. destruct (decide (u = h)); auto.
  - rewrite (redirect_dangling g u rep E). exact Hh.
Qed.

Lemma count_if_le_length f l : (count_if f l <= length l)%nat.
Proof. induction l as [| x l IH]; cbn; [lia |]. destruct (f x); lia. Qed.

Lemma count_if_le f f' l :
  (forall x, f x = true -> f' x = true) -> (count_if f l <= count_if f' l)%nat.
Proof.
  intros H. induction l as [| x l IH]; cbn; [lia |].
  destruct (f x) eqn:E; [rewrite (H x E); lia | destruct (f' x); lia].
Qed.

Lemma count_if_inserted Q k l l' f f' :
  inserted Q k l l' ->
  (forall x, Q x -> f' x = false) -> (forall x, f' x = true -> f x = true) ->
  (count_if f' l' <= count_if f l)%nat.
Proof.
  intros Hi HQ Hf. induction Hi as [| x k l l' H IH | x k l l' Hx H IH]; cbn.
  - lia.
  - destruct (f' x) eqn:E; [rewrite (Hf x E); lia | destruct (f x); lia].
  - rewrite (HQ x Hx). lia.
Qed.

Lemma count_if_remove f l u :
  u ∈ l -> f u = true ->
  (count_if (fun x => f x && negb (bool_decide (x = u))) l + 1 <= count_if f l)%nat.
Proof.
  intros Hu Hf. induction l as [| x l IH]; [apply not_elem_of_nil in Hu; contradiction |].
  cbn. destruct (decide (x = u)) as [-> | Hne].
  - rewrite Hf, bool_decide_eq_true_2 by reflexivity. cbn.
    pose proof (count_if_le (fun x => f x && negb (bool_decide (x = u))) f l) as Hle.
    assert (count_if (fun x => f x && negb (bool_decide (x = u))) l <= count_if f l)%nat.
    { apply Hle. intros x Hx. apply andb_true_iff in Hx as [Hx _]. exact Hx. }
    lia.
  - apply elem_of_cons in Hu as [-> | Hu]; [contradiction |].
    rewrite bool_decide_eq_false_2 by exact Hne. rewrite andb_true_r.
    specialize (IH Hu). destruct (f x); lia.
Qed.

(** A visit at position [i] brings the end of the sweep closer. *)
Lemma visit_measure st u st' i :
  uops (sw_graph st) !! i = Some u -> visit st u = Ok st' ->
  (length (uops (sw_graph st')) - S i + 7 * pending st'
   < length (uops (sw_graph st)) - i + 7 * pending st)%nat.
Proof.
  intros Hi Hv.
  assert (Hlt : (i < length (uops (sw_graph st)))%nat) by (apply lookup_lt_is_Some; eauto).
  assert (Hin : u ∈ uops (sw_graph st)) by (eapply list_elem_of_lookup_2, Hi).
  unfold visit in Hv. case_bool_decide as Hseen; [injection Hv as <-; lia |].
  set (G1 := redirect (sw_graph st) u (sw_replace st)) in *.
  destruct (rewrite G1 u) as [[G2 rew] |] eqn:Hrw; [| discriminate Hv].
  rewrite rbind_Ok in Hv. injection Hv as <-. cbn [sw_graph].
  destruct (rewrite_grew G1 u G2 rew Hrw) as (k & [Hext Hins] & Hk & Hcase).
  assert (Hups : uops G1 = uops (sw_graph st)) by apply redirect_uops.
  pose proof (inserted_length _ _ _ _ Hins) as Hlen. rewrite Hups in Hlen.
  set (f := fun x => is_pending (sw_seen st) G1 x && negb (bool_decide (x = u))).
  assert (Hp1 : (pending (mkSweep G2 ({[u]} ∪ sw_seen st)
                            (match rew with
                             | Some new => dict_set (sw_replace st) u new
                             | None => sw_replace st
                             end))
                 <= count_if f (uops G1))%nat).
  { unfold pending. cbn [sw_graph sw_seen].
    eapply count_if_inserted; [exact Hins | |].
    - intros x (_ & n & Hx & Hc). unfold is_pending. rewrite Hx, Hc. apply andb_false_r.
    - intros x Hx. unfold is_pending in Hx. apply andb_true_iff in Hx as [Hs Hn].
      apply negb_true_iff, bool_decide_eq_false in Hs.
      rewrite not_elem_of_union, not_elem_of_singleton in Hs. destruct Hs as [Hxu Hxs].
      unfold f, is_pending.
      rewrite (bool_decide_eq_false_2 (x ∈ sw_seen st)) by exact Hxs.
      rewrite (bool_decide_eq_false_2 (x = u)) by exact Hxu. cbn.
      rewrite andb_true_r.
      destruct (nodes G1 !! x) as [n |] eqn:E; [| reflexivity].
      rewrite (proj1 Hext x n Hxu E) in Hn. exact Hn. }
  assert (Hp2 : (count_if f (uops G1) <= pending st)%nat).
  { unfold pending. rewrite Hups. apply count_if_le.
    intros x Hx. unfold f in Hx. apply andb_true_iff in Hx as [Hx _].
    unfold G1 in Hx. rewrite redirect_pending in Hx. exact Hx. }
  destruct Hcase as [-> | (n & Hn & Hc)]; [lia |].
  assert (Hp3 : (count_if (is_pending (sw_seen st) G1) (uops G1) <= pending st)%nat).
  { unfold pending. rewrite <- Hups. apply count_if_le.
    intros x Hx. unfold G1 in Hx. rewrite redirect_pending in Hx. exact Hx. }
  pose proof (count_if_remove (is_pending (sw_seen st) G1) (uops G1) u) as Hp4.
  fold f in Hp4.
  assert (count_if f (uops G1) + 1 <= count_if (is_pending (sw_seen st) G1) (uops G1))%nat.
  { apply Hp4.
    - rewrite Hups. exact Hin.
    - unfold is_pending. rewrite (bool_decide_eq_false_2 _ Hseen), Hn, Hc. reflexivity. }
  lia.
Qed.

Lemma sweep_within_fuel fuel : forall i st,
  (length (uops (sw_graph st)) - i + 7 * pending st < fuel)%nat -> safe (sweep fuel i st).
Proof.
  induction fuel as [| fuel IH]; intros i st Hm; [lia |].
  cbn [sweep]. destruct (uops (sw_graph st) !! i) as [u |] eqn:Eu; [| apply safe_Ok].
  apply safe_bind; [apply safe_visit | intros st' Hv].
  apply IH. pose proof (visit_measure st u st' i Eu Hv). lia.
Qed.

Lemma sweep_fuel_mono fuel : forall i st fuel',
  safe (sweep fuel i st) -> (fuel <= fuel')%nat -> sweep fuel' i st = sweep fuel i st.
Proof.
  induction fuel as [| fuel IH]; intros i st fuel' Hs Hle; [contradiction Hs; reflexivity |].
  destruct fuel' as [| fuel']; [lia |].
  cbn [sweep] in *. destruct (uops (sw_graph st) !! i) as [u |]; [| reflexivity].
  destruct (visit st u) as [st' | e]; [| reflexivity].
  rewrite !rbind_Ok in *. apply IH; [exact Hs | lia].
Qed.

(** The walk of lines 94-100 over the list that the rewrites grow comes to an
    end: the pre-transform never runs out of the steps [sweep_fuel] allows,
    eight per node of the graph and one more, and with any larger allowance
    its outcome, a graph or an exception, is the same. *)
Theorem pretransform_terminates g :
  pretransform g <> Raise Diverged
  /\ forall fuel, (sweep_fuel g <= fuel)%nat ->
       sweep fuel 0 (mkSweep g ∅ []) = sweep (sweep_fuel g) 0 (mkSweep g ∅ []).
Proof.
  assert (Hs : safe (sweep (sweep_fuel g) 0 (mkSweep g ∅ []))).
  { apply sweep_within_fuel. unfold sweep_fuel, pending. cbn [sw_graph sw_seen].
    pose proof (count_if_le_length (is_pending ∅ g) (uops g)). lia. }
  split.
  - unfold pretransform. intros H.
    destruct (sweep (sweep_fuel g) 0 (mkSweep g ∅ [])) as [s | e]; [discriminate H |].
    apply Hs. unfold mbind, result_bind in H. injection H as ->. reflexivity.
  - intros fuel Hle. apply sweep_fuel_mono; assumption.
Qed.

Lemma pretransform_terminates_witness :
  sweep 100 0 (mkSweep ex_twice_graph ∅ [])
  = sweep (sweep_fuel ex_twice_graph) 0 (mkSweep ex_twice_graph ∅ []).
Proof.
  apply (proj2 (pretransform_terminates ex_twice_graph) 100%nat).
  vm_compute. lia.
Defined.

(** ** The pre-transform only inserts *)

Lemma visit_inserted st u st' :
  visit st u = Ok st' ->
  (forall h, is_Some (nodes (sw_graph st) !! h) -> is_Some (nodes (sw_graph st') !! h))
  /\ exists k, inserted (fun h => nodes (sw_graph st) !! h = None) k
                 (uops (sw_graph st)) (uops (sw_graph st')).
Proof.
  intros Hv. unfold visit in Hv.
  case_bool_decide as Hseen.
  { injection Hv as <-. split; [auto |]. exists 0%nat. apply inserted_refl. }
  set (G1 := redirect (sw_graph st) u (sw_replace st)) in *.
  destruct (rewrite G1 u) as [[G2 rew] |] eqn:Hrw; [| discriminate Hv].
  rewrite rbind_Ok in Hv. injection Hv as <-. cbn [sw_graph].
  destruct (rewrite_grew G1 u G2 rew Hrw) as (k & [Hext Hins] & _).
  assert (Hdom : forall h, is_Some (nodes (sw_graph st) !! h) -> is_Some (nodes G1 !! h))
    by (intros h; apply redirect_is_Some).
  split.
  - intros h Hh. apply Hdom in Hh. destruct Hh as [n Hn].
    destruct (decide (h = u)) as [-> | Hne].
    + apply (proj2 Hext). eauto.
    + rewrite (proj1 Hext h n Hne Hn). eauto.
  - exists k. unfold G1 in Hins. rewrite redirect_uops in Hins. fold G1 in Hins.
    eapply inserted_mono; [| exact Hins].
    intros x (Hx & _). destruct (nodes (sw_graph st) !! x) as [n |] eqn:E; [| reflexivity].
    destruct (Hdom x ltac:(eauto)) as [n' Hn']. congruence.
Qed.

Lemma sweep_inserted fuel : forall i st st',
  sweep fuel i st = Ok st' ->
  (forall h, is_Some (nodes (sw_graph st) !! h) -> is_Some (nodes (sw_graph st') !! h))
  /\ exists k, inserted (fun h => nodes (sw_graph st) !! h = None) k
                 (uops (sw_graph st)) (uops (sw_graph st')).
Proof.
  induction fuel as [| fuel IH]; intros i st st' Hs; [discriminate Hs |].
  cbn [sweep] in Hs. destruct (uops (sw_graph st) !! i) as [u |].
  - destruct (visit st u) as [st1 |] eqn:Ev; [| discriminate Hs].
    rewrite rbind_Ok in Hs.
    destruct (visit_inserted st u st1 Ev) as (Hd1 & k1 & H1).
    destruct (IH _ _ _ Hs) as (Hd2 & k2 & H2).
    split; [auto |]. exists (k1 + k2)%nat.
    eapply inserted_trans; [| exact H1].
    eapply inserted_mono; [| exact H2].
    intros x Hx. destruct (nodes (sw_graph st) !! x) as [n |] eqn:E; [| reflexivity].
    destruct (Hd1 x ltac:(eauto)) as [n' Hn']. congruence.
  - injection Hs as <-. split; [auto |]. exists 0%nat. apply inserted_refl.
Qed.

Lemma inserted_sublist Q k l l' : inserted Q k l l' -> sublist l l'.
Proof. induction 1; [constructor | apply sublist_skip | apply sublist_cons]; assumption. Qed.

(** The list of the graph that the pre-transform returns is the list it was
    given with new nodes inserted: every node of the given graph is still a
    node and still in the list, the nodes of the given list are in the order
    they had, and what was inserted are handles the given graph did not
    have. *)
Theorem pretransform_only_inserts g g' :
  pretransform g = Ok g' ->
  sublist (uops g) (uops g')
  /\ (forall h, is_Some (nodes g !! h) -> is_Some (nodes g' !! h))
  /\ exists k, inserted (fun h => nodes g !! h = None) k (uops g) (uops g')
               /\ length (uops g') = (length (uops g) + k)%nat.
Proof.
  unfold pretransform. intros H.
  destruct (sweep (sweep_fuel g) 0 (mkSweep g ∅ [])) as [st |] eqn:Es; [| discriminate H].
  rewrite rbind_Ok in H. injection H as <-.
  destruct (sweep_inserted _ _ _ _ Es) as (Hd & k & Hi). cbn [sw_graph] in *.
  split; [eapply inserted_sublist, Hi |]. split; [exact Hd |].
  exists k. split; [exact Hi | eapply inserted_length, Hi].
Qed.

Lemma pretransform_only_inserts_witness :
  exists g', pretransform ex_twice_graph = Ok g'
             /\ sublist [0%nat; 1%nat; 2%nat; 3%nat] (uops g')
             /\ length (uops g') = 7%nat.
Proof.
  eexists. split; [vm_compute; reflexivity |].
  split.
  - refine (proj1 (pretransform_only_inserts ex_twice_graph _ _)). vm_compute. reflexivity.
  - vm_compute. reflexivity.
Defined.

(** ** Boolean loads without a gate *)

Lemma matching_rule_ld g n :
  uop n = UOps.LOAD -> dtype n = Some dtypes.bool -> length (vin n) = 2%nat ->
  matching_rule g n = Some R_ld.
Proof.
  intros Hop Hdt Hlen. unfold matching_rule. rewrite Hop, Hdt, Hlen. reflexivity.
Qed.

Lemma matching_rule_load3 g n :
  uop n = UOps.LOAD -> length (vin n) = 3%nat -> matching_rule g n = Some R_load.
Proof.
  intros Hop Hlen. unfold matching_rule. rewrite Hop, Hlen.
  cbn. rewrite !andb_false_r. reflexivity.
Qed.

(** The rewrite of a boolean load [u] with operands [x; y]. *)
Lemma ld_rep_effect g u n x y nx ny db pre post :
  nodes g !! u = Some n ->
  uop n = UOps.LOAD -> dtype n = Some dtypes.bool -> vin n = [x; y] ->
  nodes g !! x = Some nx -> dtype nx = Some db -> x <> u ->
  nodes g !! y = Some ny -> y <> u ->
  uops g = (pre ++ u :: post)%list -> u ∉ pre ->
  exists g' new p o ins,
    rewrite g u = Ok (g', Some new)
    /\ nodes g !! new = None
    /\ nodes g' !! u = Some (mkUOp UOps.LOAD (Some dtypes.uint8) [p; o] (space_tag nx))
    /\ nodes g' !! new = Some (mkUOp UOps.CAST (Some dtypes.bool) [u] PNone)
    /\ uops g' = (pre ++ ins ++ u :: new :: post)%list
    /\ (exists no, nodes g' !! o = Some no
                   /\ (no = ny \/ exists c, no = mkUOp UOps.CONST (Some dtypes.int) [] (PInt c))).
Proof.
  intros Hu Hop Hdt Hv Hx Hdx Hxu Hy Hyu Huops Hpre.
  unfold rewrite. rewrite (run_node g u n Hu), rbind_Ok.
  rewrite (matching_rule_ld g n Hop Hdt) by (rewrite Hv; reflexivity).
  unfold ld_rep.
  destruct g as [N ups]. cbn [nodes uops] in *. subst ups.
  erewrite (set_dtype_nodes _ u) by exact Hu.
  cbn [nodes uops].
  rewrite index_insert_before by assumption.
  rrun.
  match goal with
  | |- context [add ?g ?o ?d ?v ?a ?cb (Some ?i)] =>
      destruct (add_eq g o d v a cb i) as (new & Hnew & ->)
  end.
  cbn [nodes uops] in *. fresh_facts.
  replace (length pre + 1)%nat with (length (pre ++ [u])%list)
    by (rewrite length_app; reflexivity).
  rewrite (app_snoc_cons pre u post), py_insert_app.
  rewrite <- (app_assoc pre [u] (new :: post)). cbn [app].
  rewrite Hop, Hv.
  set (u1 := mkUOp UOps.LOAD (Some dtypes.uint8) [x; y] (arg n)).
  set (N1 := <[new := _]> _).
  assert (Hu1 : N1 !! u = Some u1).
  { subst N1. rewrite lookup_insert_ne by congruence. apply lookup_insert_eq. }
  assert (Hx1 : N1 !! x = Some nx).
  { subst N1. rewrite !lookup_insert_ne by congruence. exact Hx. }
  assert (Hy1 : N1 !! y = Some ny).
  { subst N1. rewrite !lookup_insert_ne by congruence. exact Hy. }
  destruct (ptr_ar_shape (mkGraph N1 (pre ++ u :: new :: post)%list)
              u u1 x y [] nx ny db pre (new :: post)
              Hu1 eq_refl Hx1 Hdx Hy1 eq_refl Hpre)
    as (g' & p & o & ins & Hrun & Hroot & Hups & Hframe & Hoff).
  rewrite Hrun. rrun.
  exists g', new, p, o, ins.
  split; [reflexivity |]. split; [exact Hnew |].
  split; [exact Hroot |].
  split.
  { apply Hframe; [congruence |]. cbn [nodes]. subst N1. apply lookup_insert_eq. }
  split; [exact Hups |].
  destruct Hoff as [-> | [c Hoff]]; [| eexists; split; [exact Hoff | right; eauto]].
  exists ny. split; [| left; reflexivity].
  apply Hframe; [congruence | exact Hy1].
Qed.

(** A scalar load of [uint8] without a gate. *)
Lemma run_load_u8 fm g h u p o rest no loc s :
  let dest := reg "val" "u16" (counter (c s) "val_u16_") in
  nodes g !! h = Some u ->
  uop u = UOps.LOAD -> dtype u = Some dtypes.uint8 -> vin u = p :: o :: rest ->
  (length rest <= 1)%nat ->
  nodes g !! o = Some no -> is_Some (dtype no) ->
  p <> h ->
  r s !! p = Some loc ->
  lower_uop fm (PTXLanguage fm) g h s
  = Ok (tt, mkL (kernel s ++
                   ["ld" +:+ pystr fm (arg u) +:+ ".s8 " +:+ dest
                      +:+ ", [" +:+ pystr fm loc +:+ "+" +:+ pystr fm (arg no) +:+ "];"])
                (bufs s) (dd_set (c s) "val_u16_" (counter (c s) "val_u16_" + 1))
                (<[h := PStr dest]> (r s)) (c_label s) (r_label s)).
Proof.
  intros dest Hu Hop Hdt Hv Hlen Ho [dno Hdno] Hph Hp.
  assert (H0 : vin u !! 0%nat = Some p) by (rewrite Hv; reflexivity).
  assert (H1 : vin u !! 1%nat = Some o) by (rewrite Hv; reflexivity).
  assert (Hl3 : (3 <? length (vin u))%nat = false).
  { rewrite Hv. cbn [length]. apply Nat.ltb_ge. lia. }
  unfold lower_uop. mrun. rewrite Hop. unfold lower_typed. rewrite Hdt, Hop. mrun.
  cbn [count dtypes.uint8 dtypes.scalar_of Nat.ltb Nat.leb].
  mrun.
  erewrite bind_run
    by (eapply (run_ssa_node (PTXLanguage fm) g h u dtypes.uint8 "u16");
        [exact Hu | exact Hdt | reflexivity]).
  unfold opt_r. rewrite Hl3.
  erewrite bind_run by apply run_ret.
  erewrite bind_run by apply run_ret.
  mrun. rewrite ?run_kk. reflexivity.
Qed.

(** A boolean load [u] from a pointer [x] at an index [y] is rewritten to a
    load of [uint8] followed by a new cast to [bool] of [u], which is returned
    as the replacement of [u]; the PTX backend lowers the two to an 8-bit load
    [ld.s8] into a 16-bit register and to [setp.ne.b16 d, dest, 0U]. *)
Theorem bool_load_reads_a_byte fm g u n x y nx ny db pre post :
  nodes g !! u = Some n ->
  uop n = UOps.LOAD -> dtype n = Some dtypes.bool -> vin n = [x; y] ->
  nodes g !! x = Some nx -> dtype nx = Some db -> x <> u ->
  nodes g !! y = Some ny -> is_Some (dtype ny) -> y <> u ->
  uops g = (pre ++ u :: post)%list -> u ∉ pre ->
  exists g' new p o no ins,
    rewrite g u = Ok (g', Some new)
    /\ nodes g !! new = None
    /\ nodes g' !! u = Some (mkUOp UOps.LOAD (Some dtypes.uint8) [p; o] (space_tag nx))
    /\ nodes g' !! new = Some (mkUOp UOps.CAST (Some dtypes.bool) [u] PNone)
    /\ uops g' = (pre ++ ins ++ u :: new :: post)%list
    /\ nodes g' !! o = Some no
    /\ forall s loc,
         r s !! p = Some loc -> p <> u ->
         let dest := reg "val" "u16" (counter (c s) "val_u16_") in
         let d := reg "cast" "pred" (counter (c s) "cast_pred_") in
         exists s1,
           lower_uop fm (PTXLanguage fm) g' u s = Ok (tt, s1)
           /\ lower_uop fm (PTXLanguage fm) g' new s1
              = Ok (tt, mkL (kernel s ++
                               ["ld" +:+ pystr fm (space_tag nx) +:+ ".s8 " +:+ dest
                                  +:+ ", [" +:+ pystr fm loc +:+ "+" +:+ pystr fm (arg no)
                                  +:+ "];";
                                "setp.ne.b16 " +:+ d +:+ ", " +:+ dest +:+ ", 0U;"])
                            (bufs s)
                            (dd_set (dd_set (c s) "val_u16_" (counter (c s) "val_u16_" + 1))
                                    "cast_pred_" (counter (c s) "cast_pred_" + 1))
                            (<[new := PStr d]> (<[u := PStr dest]> (r s)))
                            (c_label s) (r_label s)).
Proof.
  intros Hu Hop Hdt Hv Hx Hdx Hxu Hy Hdy Hyu Huops Hpre.
  destruct (ld_rep_effect g u n x y nx ny db pre post
              Hu Hop Hdt Hv Hx Hdx Hxu Hy Hyu Huops Hpre)
    as (g' & new & p & o & ins & Hrw & Hnew & Hu' & Hnew' & Hups & no & Ho & Hno).
  exists g', new, p, o, no, ins.
  do 6 (split; [assumption |]).
  intros s loc Hloc Hpu dest d.
  assert (Hdno : is_Some (dtype no)) by (destruct Hno as [-> | [c ->]]; [exact Hdy | eauto]).
  eexists. split.
  - apply (run_load_u8 fm g' u _ p o [] no loc s Hu'); try reflexivity; try assumption.
    cbn. lia.
  - etransitivity.
    { eapply (run_cast_u8_to_bool fm g' new _ u _ (PStr dest)); try eassumption;
        try reflexivity.
      cbn [r]. apply lookup_insert_eq. }
    cbn [kernel bufs c r c_label r_label].
    rewrite counter_set_ne by discriminate.
    rewrite <- app_assoc. reflexivity.
Qed.

Lemma not_in_01_b : 2%nat ∉ [0%nat; 1%nat].
Proof. rewrite !not_elem_of_cons. repeat split; try discriminate. apply not_elem_of_nil. Qed.

Lemma bool_load_reads_a_byte_witness :
  exists g' new, rewrite ex_bool_load2_graph 2 = Ok (g', Some new)
                 /\ nodes g' !! new = Some (mkUOp UOps.CAST (Some dtypes.bool) [2%nat] PNone).
Proof.
  destruct (bool_load_reads_a_byte no_floats ex_bool_load2_graph 2%nat
              (mkUOp UOps.LOAD (Some dtypes.bool) [0%nat; 1%nat] PNone) 0%nat 1%nat
              (mkUOp UOps.DEFINE_GLOBAL (Some (PtrDType dtypes.bool)) []
                 (PTuple [PInt 0; PStr "data0"]))
              (mkUOp UOps.CONST (Some dtypes.int) [] (PInt 3))
              (PtrDType dtypes.bool) [0%nat; 1%nat] []
              eq_refl eq_refl eq_refl eq_refl eq_refl eq_refl ltac:(discriminate)
              eq_refl ltac:(eexists; reflexivity) ltac:(discriminate) eq_refl not_in_01_b)
    as (g' & new & p & o & no & ins & Hrw & _ & _ & Hnew & _).
  exists g', new. split; assumption.
Defined.

(** A boolean load [u] with three operands matches neither boolean pattern:
    only its pointer arithmetic is done, it is returned with its [bool] type,
    and the PTX backend then refuses it with the assertion of [render_load],
    whatever the state. *)
Theorem bool_load_with_three_operands_raises fm g u n x y z nx ny db pre post :
  nodes g !! u = Some n ->
  uop n = UOps.LOAD -> dtype n = Some dtypes.bool -> vin n = [x; y; z] ->
  nodes g !! x = Some nx -> dtype nx = Some db ->
  nodes g !! y = Some ny -> is_Some (dtype ny) -> y <> u ->
  uops g = (pre ++ u :: post)%list -> u ∉ pre ->
  exists g' p o ins,
    rewrite g u = Ok (g', None)
    /\ nodes g' !! u = Some (mkUOp UOps.LOAD (Some dtypes.bool) [p; o; z] (space_tag nx))
    /\ uops g' = (pre ++ ins ++ u :: post)%list
    /\ forall s loc,
         r s !! p = Some loc -> p <> u ->
         lower_uop fm (PTXLanguage fm) g' u s = Raise (AssertionError "").
Proof.
  intros Hu Hop Hdt Hv Hx Hdx Hy [dy Hdy] Hyu Huops Hpre.
  destruct (ptr_ar_shape g u n x y [z] nx ny db pre post Hu Hv Hx Hdx Hy Huops Hpre)
    as (g' & p & o & ins & Hrun & Hroot & Hups & Hframe & Hoff).
  exists g', p, o, ins.
  assert (Hroot' : nodes g' !! u
                   = Some (mkUOp UOps.LOAD (Some dtypes.bool) [p; o; z] (space_tag nx))).
  { rewrite Hroot. unfold retarget. rewrite Hop, Hdt. reflexivity. }
  split.
  { unfold rewrite. rewrite (run_node g u n Hu), rbind_Ok.
    rewrite (matching_rule_load3 g n Hop) by (rewrite Hv; reflexivity).
    rewrite Hrun. reflexivity. }
  split; [exact Hroot' |]. split; [exact Hups |].
  intros s loc Hloc Hpu.
  assert (Ho : exists no, nodes g' !! o = Some no /\ is_Some (dtype no)).
  { destruct Hoff as [-> | [c Hoff]]; [| eexists; split; [exact Hoff | eauto]].
    exists ny. split; [apply Hframe; [exact Hyu | exact Hy] | eauto]. }
  destruct Ho as (no & Ho & dno & Hdno).
  unfold lower_uop.
  erewrite bind_run by (apply run_lift, run_node, Hroot').
  cbn [uop vin]. unfold lower_typed. cbn [uop dtype vin arg].
  erewrite bind_run by (apply run_lift; reflexivity).
  erewrite bind_run by (apply run_lift; reflexivity).
  erewrite bind_run by (eapply run_dtype_of; eassumption).
  cbn [count dtypes.bool dtypes.scalar_of Nat.ltb Nat.leb].
  erewrite bind_run by (apply run_lift; reflexivity).
  erewrite bind_run by (apply run_get_r; exact Hloc).
  erewrite bind_run
    by (eapply (run_ssa_node (PTXLanguage fm) g' u _ dtypes.bool "pred");
        [exact Hroot' | reflexivity | reflexivity]).
  unfold opt_r. cbn [length Nat.ltb Nat.leb].
  erewrite bind_run by apply run_ret.
  erewrite bind_run by apply run_ret.
  erewrite bind_run by (eapply run_arg_of; exact Ho).
  reflexivity.
Qed.

Lemma not_in_012_b : 3%nat ∉ [0%nat; 1%nat; 2%nat].
Proof. rewrite !not_elem_of_cons. repeat split; try discriminate. apply not_elem_of_nil. Qed.

Lemma bool_load_with_three_operands_raises_witness :
  exists g', rewrite ex_bool_load3_graph 3 = Ok (g', None)
             /\ nodes g' !! 3%nat
                = Some (mkUOp UOps.LOAD (Some dtypes.bool) [0%nat; 1%nat; 2%nat]
                          (PStr ".shared"))
             /\ lower_uop no_floats (PTXLanguage no_floats) g' 3
                  (ex_state [(0%nat, PStr "%local_u64_0"); (1%nat, PStr "%const_s32_0")])
                = Raise (AssertionError "").
Proof.
  destruct (bool_load_with_three_operands_raises no_floats ex_bool_load3_graph 3%nat
              (mkUOp UOps.LOAD (Some dtypes.bool) [0%nat; 1%nat; 2%nat] PNone)
              0%nat 1%nat 2%nat
              (mkUOp UOps.DEFINE_LOCAL (Some (PtrDType dtypes.bool)) []
                 (PTuple [PStr "temp"; PInt 16]))
              (mkUOp UOps.CONST (Some dtypes.int) [] (PInt 3))
              (PtrDType dtypes.bool) [0%nat; 1%nat; 2%nat] []
              eq_refl eq_refl eq_refl eq_refl eq_refl eq_refl
              eq_refl ltac:(eexists; reflexivity) ltac:(discriminate) eq_refl not_in_012_b)
    as (g' & p & o & ins & Hrw & Hu & _ & Hlow).
  exists g'.
  assert (Hg : rewrite ex_bool_load3_graph 3 = Ok (g', None)) by exact Hrw.
  vm_compute in Hrw. injection Hrw as <-.
  split; [exact Hg |]. split; [vm_compute; reflexivity |].
  vm_compute. reflexivity.
Defined.

(** ** Comparisons *)

(** A CMPLT or CMPEQ node of the PTX backend emits one [setp.lt] or [setp.eq]
    whose type is the register type of the first operand, not that of the
    boolean result, into a fresh [alu] register of the predicate type. *)
Theorem comparison_is_typed_by_operand fm g h u o v0 v1 n0 d0 tn ra rb s :
  let lab := reg "alu" "pred" (counter (c s) "alu_pred_") in
  nodes g !! h = Some u ->
  uop u = UOps.ALU -> dtype u = Some dtypes.bool -> arg u = POp (Binary o) ->
  o = BinaryOps.CMPLT \/ o = BinaryOps.CMPEQ ->
  vin u = [v0; v1] ->
  nodes g !! v0 = Some n0 -> dtype n0 = Some d0 -> PTX_types d0 = Some tn ->
  r s !! v0 = Some ra -> r s !! v1 = Some rb ->
  lower_uop fm (PTXLanguage fm) g h s
  = Ok (tt, mkL (kernel s ++
                   [(if bool_decide (o = BinaryOps.CMPLT) then "setp.lt." else "setp.eq.")
                      +:+ tn +:+ " " +:+ lab +:+ ", " +:+ pystr fm ra +:+ ", "
                      +:+ pystr fm rb +:+ ";"])
                (bufs s) (dd_set (c s) "alu_pred_" (counter (c s) "alu_pred_" + 1))
                (<[h := PStr lab]> (r s)) (c_label s) (r_label s)).
Proof.
  intros lab Hu Hop Hdt Harg Ho Hv Hn0 Hd0 Htn Hra Hrb.
  assert (HT : (if arg_is (POp (Binary o)) BinaryOps.CMPLT
                   || arg_is (POp (Binary o)) BinaryOps.CMPEQ then d0 else dtypes.bool) = d0)
    by (destruct Ho as [-> | ->]; reflexivity).
  destruct Ho as [-> | ->].
  - eapply (run_alu_plain fm (PTXLanguage fm) g h u (Binary BinaryOps.CMPLT) v0 [v1] n0 d0
              dtypes.bool [ra; rb] "pred" tn); try eassumption; try reflexivity.
    + left. discriminate.
    + rewrite Hv. repeat constructor; assumption.
  - eapply (run_alu_plain fm (PTXLanguage fm) g h u (Binary BinaryOps.CMPEQ) v0 [v1] n0 d0
              dtypes.bool [ra; rb] "pred" tn); try eassumption; try reflexivity.
    + left. discriminate.
    + rewrite Hv. repeat constructor; assumption.
Qed.

Lemma comparison_is_typed_by_operand_witness :
  lower_uop no_floats (PTXLanguage no_floats) ex_int_cmp_graph 2 ex_int_cmp_state
  = Ok (tt, mkL ["setp.lt.s32 %alu_pred_0, %const_s32_0, %const_s32_1;"] []
              [("alu_pred_", 1%Z)]
              (<[2%nat := PStr "%alu_pred_0"]> (r ex_int_cmp_state)) [] ∅).
Proof.
  exact (comparison_is_typed_by_operand no_floats ex_int_cmp_graph 2
           (mkUOp UOps.ALU (Some dtypes.bool) [0%nat; 1%nat] (POp BinaryOps.CMPLT))
           BinaryOps.CMPLT 0%nat 1%nat (mkUOp UOps.CONST (Some dtypes.int32) [] (PInt 1))
           dtypes.int32 "s32" (PStr "%const_s32_0") (PStr "%const_s32_1") ex_int_cmp_state
           eq_refl eq_refl eq_refl eq_refl (or_introl eq_refl) eq_refl eq_refl eq_refl eq_refl
           eq_refl eq_refl).
Defined.

(** ** Vector loads *)

Lemma run_repeat_alloc lang g d ty prefix cnt :
  types lang d = Some ty -> nonempty ty = true ->
  forall s,
    repeatM cnt (ty ← ty_of lang d; ssa lang g None prefix (Some ty)) s
    = Ok (regs_from prefix ty (counter (c s) (ssa_prefix prefix ty)) cnt,
          mkL (kernel s) (bufs s) (bump (c s) (ssa_prefix prefix ty) cnt)
              (r s) (c_label s) (r_label s)).
Proof.
  intros Hty Hne. induction cnt as [| cnt IH]; intros s.
  - cbn. destruct s; reflexivity.
  - cbn [repeatM].
    erewrite bind_run; cycle 1.
    { erewrite bind_run by (apply run_ty_of, Hty). apply run_ssa, Hne. }
    erewrite bind_run by apply IH.
    cbn [c kernel bufs r c_label r_label].
    rewrite counter_set, bump_succ. reflexivity.
Qed.

Lemma all_strs_PStr (l : list string) : all_strs (PStr <$> l) = Ok l.
Proof.
  induction l as [| x l IH]; [reflexivity |].
  cbn [fmap list_fmap all_strs]. fold (PStr <$> l). rewrite IH. reflexivity.
Qed.

Lemma run_forM_fill fm lang d mt z (regs : list string) :
  mem_type lang d = Ok mt -> render_val fm (PInt 0) d = Ok z ->
  forall s,
    exists us,
      forM regs (fun x =>
                   mt ← lift (mem_type lang d);
                   z ← lift (render_val fm (PInt 0) d);
                   kk ["mov." +:+ mt +:+ " " +:+ x +:+ ", " +:+ z +:+ ";"]) s
      = Ok (us, mkL (kernel s ++ ((fun x => "mov." +:+ mt +:+ " " +:+ x +:+ ", " +:+ z +:+ ";")
                                    <$> regs))
                    (bufs s) (c s) (r s) (c_label s) (r_label s)).
Proof.
  intros Hmt Hz. induction regs as [| x regs IH]; intros s.
  - exists []. cbn. rewrite app_nil_r. destruct s; reflexivity.
  - cbn [forM].
    erewrite bind_run; cycle 1.
    { erewrite bind_run by (apply run_lift, Hmt).
      erewrite bind_run by (apply run_lift, Hz).
      apply run_kk. }
    destruct (IH (mkL (kernel s ++ [join nl ["mov." +:+ mt +:+ " " +:+ x +:+ ", " +:+ z +:+ ";"]])
                      (bufs s) (c s) (r s) (c_label s) (r_label s))) as (us & Hus).
    erewrite bind_run by exact Hus.
    eexists. cbn [kernel bufs c r c_label r_label].
    rewrite <- app_assoc. reflexivity.
Qed.

(** A LOAD node of a vector type with [k] lanes gets [k] fresh [val]
    registers of the lane type and is bound to their list.  With two or
    three operands it emits the one vector load, whose text starts with a
    space.  With a gate and a default it first emits, for every lane, the move
    of the literal zero into the lane's register, and then the vector load
    under the gate: the default operand is not used. *)
Theorem vector_load_fills_lanes fm lang g h u dt ty mt p o rest no loc s :
  let k := count dt in
  let lanes := regs_from "val" ty (counter (c s) (ssa_prefix "val" ty)) k in
  let after kern :=
    mkL kern (bufs s) (bump (c s) (ssa_prefix "val" ty) k)
        (<[h := PList (PStr <$> lanes)]> (r s)) (c_label s) (r_label s) in
  let ld := " ld" +:+ pystr fm (arg u) +:+ ".v" +:+ str_nat k +:+ "." +:+ mt +:+ " {"
            +:+ join ", " lanes +:+ "}, [" +:+ pystr fm loc +:+ "+" +:+ pystr fm (arg no)
            +:+ "];" in
  nodes g !! h = Some u ->
  uop u = UOps.LOAD -> dtype u = Some dt -> (1 < count dt)%nat ->
  vin u = p :: o :: rest ->
  nodes g !! o = Some no -> is_Some (dtype no) ->
  types lang (scalar dt) = Some ty -> nonempty ty = true ->
  mem_type lang (scalar dt) = Ok mt ->
  p <> h -> r s !! p = Some loc ->
  ((length rest < 2)%nat ->
   lower_uop fm lang g h s = Ok (tt, after (kernel s ++ [ld])%list))
  /\ (forall gt alt rest' gate z,
        rest = gt :: alt :: rest' -> gt <> h -> r s !! gt = Some gate ->
        render_val fm (PInt 0) (scalar dt) = Ok z ->
        lower_uop fm lang g h s
        = Ok (tt, after (kernel s
                         ++ ((fun x => "mov." +:+ mt +:+ " " +:+ x +:+ ", " +:+ z +:+ ";")
                               <$> lanes)
                         ++ ["@" +:+ pystr fm gate +:+ ld])%list)).
Proof.
  intros k lanes after ld Hu Hop Hdt Hk Hv Ho [dno Hdno] Hty Hne Hmt Hph Hp.
  assert (H0 : vin u !! 0%nat = Some p) by (rewrite Hv; reflexivity).
  assert (H1 : vin u !! 1%nat = Some o) by (rewrite Hv; reflexivity).
  assert (Hlt : (1 <? count dt)%nat = true) by (apply Nat.ltb_lt; exact Hk).
  assert (Hstart : lower_uop fm lang g h s
    = (_ ← (if (3 <? length (vin u))%nat then
              _ ← forM lanes (fun x =>
                     mt ← lift (mem_type lang (scalar dt));
                     z ← lift (render_val fm (PInt 0) (scalar dt));
                     kk ["mov." +:+ mt +:+ " " +:+ x +:+ ", " +:+ z +:+ ";"]);
              mret tt
            else mret tt);
       gate ← (if (3 <? length (vin u))%nat
               then v2 ← operand (vin u) 2; r2 ← get_r v2; mret ("@" +:+ pystr fm r2)
               else mret "");
       mt ← lift (mem_type lang (scalar dt));
       ru ← get_r h; lanes ← lift (star ru);
       v0 ← operand (vin u) 0; r0 ← get_r v0;
       off ← arg_of g o;
       kk [gate +:+ " ld" +:+ pystr fm (arg u) +:+ ".v" +:+ str_nat (count dt) +:+ "."
           +:+ mt +:+ " {" +:+ join ", " lanes +:+ "}, [" +:+ pystr fm r0 +:+ "+"
           +:+ pystr fm off +:+ "];"]) (after (kernel s))).
  { unfold lower_uop.
    erewrite bind_run by (apply run_lift, run_node, Hu).
    rewrite Hop. unfold lower_typed. rewrite Hdt, Hop.
    erewrite bind_run by (apply run_lift; reflexivity).
    erewrite bind_run by (apply run_lift, run_item, H1).
    erewrite bind_run by (eapply run_dtype_of; eassumption).
    rewrite Hlt.
    erewrite bind_run by (apply (run_repeat_alloc lang g (scalar dt) ty "val"); assumption).
    erewrite bind_run by apply run_set_r.
    reflexivity. }
  assert (Hfin : forall gate0 kern,
    (mt ← lift (mem_type lang (scalar dt));
     ru ← get_r h; lanes ← lift (star ru);
     v0 ← operand (vin u) 0; r0 ← get_r v0;
     off ← arg_of g o;
     kk [gate0 +:+ " ld" +:+ pystr fm (arg u) +:+ ".v" +:+ str_nat (count dt) +:+ "."
         +:+ mt +:+ " {" +:+ join ", " lanes +:+ "}, [" +:+ pystr fm r0 +:+ "+"
         +:+ pystr fm off +:+ "];"]) (after kern)
    = Ok (tt, after (kern ++ [gate0 +:+ ld])%list)).
  { intros gate0 kern.
    erewrite bind_run by (apply run_lift, Hmt).
    erewrite bind_run by (apply run_get_r; cbn [r after]; apply lookup_insert_eq).
    erewrite bind_run by (apply run_lift; cbn [star]; apply all_strs_PStr).
    erewrite bind_run by (apply run_lift, run_item, H0).
    erewrite bind_run
      by (apply run_get_r; cbn [r after]; rewrite lookup_insert_ne by congruence; exact Hp).
    erewrite bind_run by (eapply run_arg_of; exact Ho).
    rewrite run_kk. reflexivity. }
  rewrite Hstart. split.
  - intros Hlen.
    assert (Hl3 : (3 <? length (vin u))%nat = false).
    { rewrite Hv. cbn [length]. apply Nat.ltb_ge. lia. }
    rewrite Hl3.
    erewrite bind_run by apply run_ret.
    erewrite bind_run by apply run_ret.
    apply (Hfin "" (kernel s)).
  - intros gt alt rest' gate z -> Hgh Hgate Hz.
    assert (Hl3 : (3 <? length (vin u))%nat = true) by (rewrite Hv; reflexivity).
    assert (H2 : vin u !! 2%nat = Some gt) by (rewrite Hv; reflexivity).
    rewrite Hl3.
    destruct (run_forM_fill fm lang (scalar dt) mt z lanes Hmt Hz (after (kernel s)))
      as (us & Hfill).
    erewrite bind_run; cycle 1.
    { erewrite bind_run by exact Hfill. apply run_ret. }
    erewrite bind_run; cycle 1.
    { erewrite bind_run by (apply run_lift, run_item, H2).
      erewrite bind_run
        by (apply run_get_r; cbn [r after]; rewrite lookup_insert_ne by congruence;
            exact Hgate).
      apply run_ret. }
    etransitivity;
      [exact (Hfin ("@" +:+ pystr fm gate)
                (kernel s ++ ((fun x => "mov." +:+ mt +:+ " " +:+ x +:+ ", " +:+ z +:+ ";")
                                <$> lanes))%list) |].
    rewrite <- app_assoc. reflexivity.
Qed.

Lemma vector_load_fills_lanes_witness :
  lower_uop no_floats (PTXLanguage no_floats) ex_vec_load_graph 4 ex_vec_load_state
  = Ok (tt, mkL ["mov.s32 %val_s32_0, 0;"; "mov.s32 %val_s32_1, 0;";
                 "@%const_pred_0 ld.global.v2.s32 {%val_s32_0, %val_s32_1}, [%dat_u64_0+16];"]
              [] [("val_s32_", 2%Z)]
              (<[4%nat := PList [PStr "%val_s32_0"; PStr "%val_s32_1"]]> (r ex_vec_load_state))
              [] ∅).
Proof. 
  exact (proj2 (vector_load_fills_lanes no_floats (PTXLanguage no_floats) ex_vec_load_graph 4
                  (mkUOp UOps.LOAD (Some (vec dtypes.int32 2))
                     [0%nat; 1%nat; 2%nat; 3%nat] (PStr ".global"))
                  (vec dtypes.int32 2) "s32" "s32" 0%nat 1%nat [2%nat; 3%nat]
                  (mkUOp UOps.CONST (Some dtypes.int) [] (PInt 16)) (PStr "%dat_u64_0")
                  ex_vec_load_state
                  eq_refl eq_refl eq_refl ltac:(cbn; lia) eq_refl eq_refl
                  ltac:(eexists; reflexivity) eq_refl eq_refl eq_refl ltac:(discriminate)
                  eq_refl)
           2%nat 3%nat [] (PStr "%const_pred_0") "0" eq_refl ltac:(discriminate) eq_refl
           eq_refl).
Defined.

(** ** Stores *)

(** A STORE node of a scalar value that is not a [bool] emits one [st] of
    the PTX backend: its memory type is that of the value operand, [s8] for
    a type of one byte and [b16] for [half]; its address-space tag is the
    node's payload and its offset the payload of the second operand; the
    instruction is predicated by the register of the fourth operand exactly
    when the node has more than three operands.  No register is allocated
    and no node is bound. *)
Theorem scalar_store_uses_memory_type fm g h u p o v gs np no nv d2 mt loc val gate s :
  nodes g !! h = Some u ->
  uop u = UOps.STORE -> vin u = p :: o :: v :: gs ->
  nodes g !! p = Some np -> is_Some (dtype np) ->
  nodes g !! o = Some no -> is_Some (dtype no) ->
  nodes g !! v = Some nv -> dtype nv = Some d2 ->
  (count d2 <= 1)%nat -> d2 <> dtypes.bool -> PTX_mem_type d2 = Ok mt ->
  r s !! p = Some loc -> r s !! v = Some val ->
  (gs = [] /\ gate = PNone) \/ (exists gh gs', gs = gh :: gs' /\ r s !! gh = Some gate) ->
  lower_uop fm (PTXLanguage fm) g h s
  = Ok (tt, mkL (kernel s ++
                   [(if truthy gate then "@" +:+ pystr fm gate +:+ " " else "")
                      +:+ "st" +:+ pystr fm (arg u) +:+ "." +:+ mt +:+ " [" +:+ pystr fm loc
                      +:+ "+" +:+ pystr fm (arg no) +:+ "], " +:+ pystr fm val +:+ ";"])
                (bufs s) (c s) (r s) (c_label s) (r_label s))
  /\ (itemsize d2 = 1%Z -> mt = "s8")
  /\ (d2 = dtypes.half -> mt = "b16").
Proof.
  intros Hu Hop Hv Hp [dp Hdp] Ho [dno Hdno] Hnv Hdv Hc Hnb Hmt Hloc Hval Hgate.
  assert (H0 : vin u !! 0%nat = Some p) by (rewrite Hv; reflexivity).
  assert (H1 : vin u !! 1%nat = Some o) by (rewrite Hv; reflexivity).
  assert (H2 : vin u !! 2%nat = Some v) by (rewrite Hv; reflexivity).
  pose proof (ltb_count_scalar d2 Hc) as Hlt.
  split; [| split].
  - assert (Hg : opt_r (vin u) 3 s = Ok (gate, s)).
    { unfold opt_r. rewrite Hv. destruct Hgate as [[-> ->] | (gh & gs' & -> & Hgh)].
      - reflexivity.
      - cbn [length Nat.ltb Nat.leb].
        erewrite bind_run by (apply run_lift, run_item; reflexivity).
        apply run_get_r, Hgh. }
    unfold lower_uop.
    erewrite bind_run by (apply run_lift, run_node, Hu).
    rewrite Hop.
    erewrite bind_run by (apply run_lift, run_item, H0).
    erewrite bind_run by (eapply run_dtype_of; eassumption).
    erewrite bind_run by (apply run_lift, run_item, H1).
    erewrite bind_run by (eapply run_dtype_of; eassumption).
    erewrite bind_run by (apply run_lift, run_item, H2).
    erewrite bind_run by (eapply run_dtype_of; eassumption).
    rewrite Hlt.
    erewrite bind_run by (apply run_get_r, Hloc).
    erewrite bind_run by (apply run_get_r, Hval).
    erewrite bind_run by exact Hg.
    erewrite bind_run by (eapply run_arg_of; exact Ho).
    erewrite bind_run; cycle 1.
    { apply run_lift. cbn [render_store PTXLanguage]. unfold PTX_render_store.
      rewrite bool_decide_eq_false_2 by exact Hnb. rewrite Hmt. reflexivity. }
    rewrite run_kk. reflexivity.
  - intros Hsz. unfold PTX_mem_type in Hmt. rewrite Hsz in Hmt.
    change (1 =? 1)%Z with true in Hmt. cbv iota in Hmt. congruence.
  - intros ->. vm_compute in Hmt. congruence.
Qed.

Lemma scalar_store_uses_memory_type_witness :
  lower_uop no_floats (PTXLanguage no_floats) ex_store_graph 4 ex_store_state
  = Ok (tt, mkL ["@%const_pred_0 st.global.b16 [%dat_u64_0+6], %val_f16_0;"] [] []
              (r ex_store_state) [] ∅).
Proof.
  exact (proj1 (scalar_store_uses_memory_type no_floats ex_store_graph 4
                  (mkUOp UOps.STORE None [0%nat; 1%nat; 2%nat; 3%nat] (PStr ".global"))
                  0%nat 1%nat 2%nat [3%nat]
                  (mkUOp UOps.DEFINE_GLOBAL (Some (PtrDType dtypes.half)) []
                     (PTuple [PInt 0; PStr "data0"]))
                  (mkUOp UOps.CONST (Some dtypes.int) [] (PInt 6))
                  (mkUOp UOps.LOAD (Some dtypes.half) [0%nat; 1%nat] (PStr ".global"))
                  dtypes.half "b16" (PStr "%dat_u64_0") (PStr "%val_f16_0")
                  (PStr "%const_pred_0") ex_store_state
                  eq_refl eq_refl eq_refl eq_refl ltac:(eexists; reflexivity)
                  eq_refl ltac:(eexists; reflexivity) eq_refl eq_refl ltac:(cbn; lia)
                  ltac:(discriminate) eq_refl eq_refl eq_refl
                  (or_intror (ex_intro _ 3%nat (ex_intro _ [] (conj eq_refl eq_refl)))))).
Defined.

(** A STORE node of a vector value with [k] lanes emits one line, for every
    backend: [st], the node's payload, [.v] and [k], the backend's memory type
    of a lane, the address, and the registers of the lanes between braces;
    the line starts with the gate's register when the node has more than
    three operands. *)
Theorem vector_store_writes_lanes fm lang g h u p o v gs np no nv d2 mt loc lanes gate s :
  nodes g !! h = Some u ->
  uop u = UOps.STORE -> vin u = p :: o :: v :: gs ->
  nodes g !! p = Some np -> is_Some (dtype np) ->
  nodes g !! o = Some no -> is_Some (dtype no) ->
  nodes g !! v = Some nv -> dtype nv = Some d2 ->
  (1 < count d2)%nat -> mem_type lang (scalar d2) = Ok mt ->
  r s !! p = Some loc -> r s !! v = Some (PList (PStr <$> lanes)) ->
  (gs = [] /\ gate = "")
  \/ (exists gh gs' rg, gs = gh :: gs' /\ r s !! gh = Some rg
                        /\ gate = "@" +:+ pystr fm rg +:+ " ") ->
  lower_uop fm lang g h s
  = Ok (tt, mkL (kernel s ++
                   [gate +:+ "st" +:+ pystr fm (arg u) +:+ ".v" +:+ str_nat (count d2) +:+ "."
                      +:+ mt +:+ " [" +:+ pystr fm loc +:+ "+" +:+ pystr fm (arg no) +:+ "], {"
                      +:+ join ", " lanes +:+ "};"])
                (bufs s) (c s) (r s) (c_label s) (r_label s)).
Proof.
  intros Hu Hop Hv Hp [dp Hdp] Ho [dno Hdno] Hnv Hdv Hc Hmt Hloc Hval Hgate.
  assert (H0 : vin u !! 0%nat = Some p) by (rewrite Hv; reflexivity).
  assert (H1 : vin u !! 1%nat = Some o) by (rewrite Hv; reflexivity).
  assert (H2 : vin u !! 2%nat = Some v) by (rewrite Hv; reflexivity).
  assert (Hlt : (1 <? count d2)%nat = true) by (apply Nat.ltb_lt; exact Hc).
  assert (Hg : (if (3 <? length (vin u))%nat
                then v3 ← operand (vin u) 3; r3 ← get_r v3;
                     mret ("@" +:+ pystr fm r3 +:+ " ")
                else mret "") s = Ok (gate, s)).
  { rewrite Hv. destruct Hgate as [[-> ->] | (gh & gs' & rg & -> & Hgh & ->)].
    - reflexivity.
    - cbn [length Nat.ltb Nat.leb].
      erewrite bind_run by (apply run_lift, run_item; reflexivity).
      erewrite bind_run by (apply run_get_r, Hgh).
      reflexivity. }
  unfold lower_uop.
  erewrite bind_run by (apply run_lift, run_node, Hu).
  rewrite Hop.
  erewrite bind_run by (apply run_lift, run_item, H0).
  erewrite bind_run by (eapply run_dtype_of; eassumption).
  erewrite bind_run by (apply run_lift, run_item, H1).
  erewrite bind_run by (eapply run_dtype_of; eassumption).
  erewrite bind_run by (apply run_lift, run_item, H2).
  erewrite bind_run by (eapply run_dtype_of; eassumption).
  rewrite Hlt.
  erewrite bind_run by exact Hg.
  erewrite bind_run by (apply run_lift, Hmt).
  erewrite bind_run by (apply run_get_r, Hloc).
  erewrite bind_run by (eapply run_arg_of; exact Ho).
  erewrite bind_run by (apply run_get_r, Hval).
  erewrite bind_run by (apply run_lift; cbn [star]; apply all_strs_PStr).
  rewrite run_kk. reflexivity.
Qed.

Lemma vector_store_writes_lanes_witness :
  lower_uop no_floats (PTXLanguage no_floats) ex_store_graph 6 ex_store_state
  = Ok (tt, mkL ["st.global.v2.s32 [%dat_u64_0+6], {%const_s32_1, %const_s32_2};"] [] []
              (r ex_store_state) [] ∅).
Proof.
  exact (vector_store_writes_lanes no_floats (PTXLanguage no_floats) ex_store_graph 6
           (mkUOp UOps.STORE None [0%nat; 1%nat; 5%nat] (PStr ".global"))
           0%nat 1%nat 5%nat []
           (mkUOp UOps.DEFINE_GLOBAL (Some (PtrDType dtypes.half)) []
              (PTuple [PInt 0; PStr "data0"]))
           (mkUOp UOps.CONST (Some dtypes.int) [] (PInt 6))
           (mkUOp UOps.CONST (Some (vec dtypes.int32 2)) [] (PInt 7))
           (vec dtypes.int32 2) "s32" (PStr "%dat_u64_0") ["%const_s32_1"; "%const_s32_2"] ""
           ex_store_state
           eq_refl eq_refl eq_refl eq_refl ltac:(eexists; reflexivity)
           eq_refl ltac:(eexists; reflexivity) eq_refl eq_refl ltac:(cbn; lia)
           eq_refl eq_refl eq_refl (or_introl (conj eq_refl eq_refl))).
Defined.
